(** * The compute node controller of the ShardingSphere operator

    A shallow embedding of
    [shardingsphere-operator/pkg/controllers/compute_node_controller.go]
    and the properties of its reconciliation loop: the service port
    bookkeeping, the pod classifier, the rollup of pod conditions, the
    merge into the condition history, and the orchestration of the
    reconcilers with its error handling. *)

From Stdlib Require Import ZArith Bool List Lia.
From stdpp Require Import base option list strings pretty gmap.

Local Open Scope string_scope.
Local Open Scope Z_scope.
Local Open Scope list_scope.

(** ** Go scalars *)

(** [metav1.Time] is kept as an opaque instant; the zero [Time] is [0]. *)
Definition Time := Z.

(** Go's [int] is 64 bits wide and signed; [x++] wraps around. *)
Definition wrap64 (x : Z) : Z := (x + 2 ^ 63) mod 2 ^ 64 - 2 ^ 63.

(** Go's [int32], the type of the ready instance counter. *)
Definition wrap32 (x : Z) : Z := (x + 2 ^ 31) mod 2 ^ 32 - 2 ^ 31.

(** [len(s)] of a slice, a Go [int]. *)
Definition len {A} (s : list A) : Z := Z.of_nat (length s).

(** ** Constants of k8s.io/api/core/v1 *)

Module corev1.
Definition PodPending := "Pending".
Definition PodRunning := "Running".
Definition PodSucceeded := "Succeeded".
Definition PodFailed := "Failed".
Definition PodUnknown := "Unknown".

Definition ContainersReady := "ContainersReady".
Definition PodInitialized := "Initialized".
Definition PodReady := "Ready".
Definition PodScheduled := "PodScheduled".

Definition ConditionTrue := "True".
Definition ConditionFalse := "False".

Definition ServiceTypeClusterIP := "ClusterIP".
Definition ServiceTypeNodePort := "NodePort".
Definition ServiceTypeLoadBalancer := "LoadBalancer".
Definition ServiceTypeExternalName := "ExternalName".
End corev1.

(** ** Declarations of api/v1alpha1 *)

Module v1alpha1.
(** Modelled from the spec: the values of [ComputeNodeConditionType],
    declared in api/v1alpha1; the spec lists the types as Unknown,
    Pending, Deployed, Initialized, Started, Ready and Failed. *)
Definition ComputeNodeConditionUnknown := "Unknown".
Definition ComputeNodeConditionPending := "Pending".
Definition ComputeNodeConditionDeployed := "Deployed".
Definition ComputeNodeConditionInitialized := "Initialized".
Definition ComputeNodeConditionStarted := "Started".
Definition ComputeNodeConditionReady := "Ready".
Definition ComputeNodeConditionFailed := "Failed".

(** Modelled from the spec: the values of [ConditionStatus], declared in
    api/v1alpha1; the spec gives a condition the status True or False. *)
Definition ConditionStatusTrue := "True".
Definition ConditionStatusFalse := "False".

(** Modelled from the spec: the values of [ComputeNodePhaseStatus],
    declared in api/v1alpha1; the spec names the phases Ready and
    NotReady. *)
Definition ComputeNodeStatusReady := "Ready".
Definition ComputeNodeStatusNotReady := "NotReady".
End v1alpha1.

(** ** Data *)

(** Modelled from the spec: [v1alpha1.PortBinding], declared in
    api/v1alpha1; a name, a container port, a service port, a transport
    protocol and a node port, where 0 stands for unassigned. *)
Record PortBinding := mkPortBinding {
  pb_Name : string;
  pb_ContainerPort : Z;
  pb_ServicePort : Z;
  pb_NodePort : Z;
  pb_Protocol : string
}.

(** [corev1.ServicePort]; [sp_TargetPort] is the integer of an
    [intstr.FromInt]. *)
Record ServicePort := mkServicePort {
  sp_Name : string;
  sp_Protocol : string;
  sp_Port : Z;
  sp_TargetPort : Z;
  sp_NodePort : Z
}.

(** Modelled from the spec: [v1alpha1.ComputeNodeCondition], declared in
    api/v1alpha1; a type, a status, the last update and last transition
    times, a reason and a message. *)
Record ComputeNodeCondition := mkCondition {
  cond_Type : string;
  cond_Status : string;
  cond_LastUpdateTime : Time;
  cond_LastTransitionTime : Time;
  cond_Reason : string;
  cond_Message : string
}.

(** The zero value of the struct: [v1alpha1.ComputeNodeCondition{}]. *)
Definition zeroCondition : ComputeNodeCondition := mkCondition "" "" 0 0 "" "".

(** The fields of [corev1.PodCondition] the controller reads. *)
Record PodCondition := mkPodCondition {
  pc_Type : string;
  pc_Status : string
}.

(** The fields of [corev1.ContainerStatus] the controller reads. *)
Record ContainerStatus := mkContainerStatus {
  cs_Name : string;
  cs_Ready : bool
}.

(** The fields of [corev1.Pod] the controller reads, all in [pod.Status]. *)
Record Pod := mkPod {
  pod_Phase : string;
  pod_Conditions : list PodCondition;
  pod_ContainerStatuses : list ContainerStatus
}.

(** ** The condition classifier *)

(** The four flags of [getPreferedConditionFromPodConditions]. *)
Record PodFlags := mkPodFlags {
  sched : bool;
  initialized : bool;
  conReady : bool;
  ready : bool
}.

Definition isTrue (c : PodCondition) (t : string) : bool :=
  String.eqb (pc_Type c) t && String.eqb (pc_Status c) corev1.ConditionTrue.

(** One turn of the loop over the pod's conditions. *)
Definition scanPodCondition (f : PodFlags) (c : PodCondition) : PodFlags :=
  let f := if isTrue c corev1.PodScheduled
           then mkPodFlags true (initialized f) (conReady f) (ready f) else f in
  let f := if isTrue c corev1.PodInitialized
           then mkPodFlags (sched f) true (conReady f) (ready f) else f in
  let f := if isTrue c corev1.ContainersReady
           then mkPodFlags (sched f) (initialized f) true (ready f) else f in
  let f := if isTrue c corev1.PodReady
           then mkPodFlags (sched f) (initialized f) (conReady f) true else f in
  f.

(** A condition with only its type set: [ComputeNodeCondition{Type: t}]. *)
Definition onlyType (t : string) : ComputeNodeCondition := mkCondition t "" 0 0 "" "".

Definition getPreferedConditionFromPodConditions
    (conditions : list PodCondition) : ComputeNodeCondition :=
  let f := foldl scanPodCondition (mkPodFlags false false false false) conditions in
  if ready f then onlyType v1alpha1.ComputeNodeConditionReady
  else if conReady f then onlyType v1alpha1.ComputeNodeConditionStarted
  else if initialized f then onlyType v1alpha1.ComputeNodeConditionInitialized
  else if sched f then onlyType v1alpha1.ComputeNodeConditionDeployed
  else zeroCondition.

Definition getPreferedConditionFromPod (pod : Pod) : ComputeNodeCondition :=
  if String.eqb (pod_Phase pod) corev1.PodUnknown
  then onlyType v1alpha1.ComputeNodeConditionUnknown
  else if String.eqb (pod_Phase pod) corev1.PodPending
  then onlyType v1alpha1.ComputeNodeConditionPending
  else if String.eqb (pod_Phase pod) corev1.PodFailed
  then onlyType v1alpha1.ComputeNodeConditionFailed
  else getPreferedConditionFromPodConditions (pod_Conditions pod).

(** ** The rollup of the pods' conditions *)

(** [newCondition]; the two readings of [time.Now()] are [tu] and [tn]. *)
Definition newCondition (t : string) (tu tn : Time) (reason message : string)
    : ComputeNodeCondition :=
  mkCondition t v1alpha1.ConditionStatusTrue tu tn reason message.

Definition newConditionUnknown := newCondition v1alpha1.ComputeNodeConditionUnknown.
Definition newConditionPending := newCondition v1alpha1.ComputeNodeConditionPending.
Definition newConditionDeployed := newCondition v1alpha1.ComputeNodeConditionDeployed.
Definition newConditionStarted := newCondition v1alpha1.ComputeNodeConditionStarted.
Definition newConditionInitialized := newCondition v1alpha1.ComputeNodeConditionInitialized.
Definition newConditionReady := newCondition v1alpha1.ComputeNodeConditionReady.
Definition newConditionFailed := newCondition v1alpha1.ComputeNodeConditionFailed.

(** Reading a Go [map[ComputeNodeConditionType]int]: an absent key reads 0. *)
Definition count (result : gmap string Z) (t : string) : Z :=
  default 0 (result !! t).

(** [result[pc.Type]++] for one pod. *)
Definition tally (result : gmap string Z) (p : Pod) : gmap string Z :=
  let t := cond_Type (getPreferedConditionFromPod p) in
  <[t := wrap64 (count result t + 1)]> result.

Definition getConditionFromPods (tu tn : Time) (items : list Pod)
    : ComputeNodeCondition :=
  if len items =? 0 then newConditionUnknown tu tn "PodNotFound" "No pod was found"
  else
    let result := foldl tally (∅ : gmap string Z) items in
    if count result v1alpha1.ComputeNodeConditionUnknown =? len items
    then newConditionUnknown tu tn "PodUnknown" "All pods are unknown"
    else if 0 <? count result v1alpha1.ComputeNodeConditionReady
    then newConditionReady tu tn "PodReady" "Some pods are ready"
    else if 0 <? count result v1alpha1.ComputeNodeConditionStarted
    then newConditionStarted tu tn "PodStarted" "Some pods are started"
    else if 0 <? count result v1alpha1.ComputeNodeConditionInitialized
    then newConditionInitialized tu tn "PodInitialized" "Some pods are initialized"
    else if 0 <? count result v1alpha1.ComputeNodeConditionDeployed
    then newConditionDeployed tu tn "PodDeployed" "Some pods are deployed"
    else if 0 <? count result v1alpha1.ComputeNodeConditionPending
    then newConditionPending tu tn "PodPending" "Some pods are pending"
    else if 0 <? count result v1alpha1.ComputeNodeConditionFailed
    then newConditionFailed tu tn "PodFailed" "Some pods are failed"
    else zeroCondition.

(** ** The merge into the condition history *)

Definition setStatusFalse (c : ComputeNodeCondition) : ComputeNodeCondition :=
  mkCondition (cond_Type c) v1alpha1.ConditionStatusFalse (cond_LastUpdateTime c)
    (cond_LastTransitionTime c) (cond_Reason c) (cond_Message c).

Definition setLastUpdateTime (t : Time) (c : ComputeNodeCondition) : ComputeNodeCondition :=
  mkCondition (cond_Type c) (cond_Status c) t
    (cond_LastTransitionTime c) (cond_Reason c) (cond_Message c).

(** The body of the loop of [updateComputeNodeStatusCondition] for the
    entry [c] of the history: the new value of [conditions[i]]. *)
Definition mergeEntry (cond c : ComputeNodeCondition) : ComputeNodeCondition :=
  if String.eqb (cond_Type c) (cond_Type cond) then cond
  else if String.eqb (cond_Type cond) v1alpha1.ComputeNodeConditionUnknown
  then setStatusFalse (setLastUpdateTime (cond_LastUpdateTime cond) c)
  else
    let c := if String.eqb (cond_Type c) v1alpha1.ComputeNodeConditionUnknown
             then setStatusFalse c else c in
    setLastUpdateTime (cond_LastUpdateTime cond) c.

(** The loop itself, over the entries left to visit, with the flag [found]
    as it stands; it returns the entries as rewritten and the final flag. *)
Fixpoint mergeLoop (cond : ComputeNodeCondition) (conditions : list ComputeNodeCondition)
    (found : bool) : list ComputeNodeCondition * bool :=
  match conditions with
  | [] => ([], found)
  | c :: rest =>
      let found' := if String.eqb (cond_Type c) (cond_Type cond) then true else found in
      let '(rest', final) := mergeLoop cond rest found' in
      (mergeEntry cond c :: rest', final)
  end.

Definition updateComputeNodeStatusCondition
    (conditions : list ComputeNodeCondition) (cond : ComputeNodeCondition)
    : list ComputeNodeCondition :=
  let '(conditions', found) := mergeLoop cond conditions false in
  if (len conditions' =? 0) || negb found then conditions' ++ [cond] else conditions'.

(** ** The service ports *)

Definition setNodePort (n : Z) (b : PortBinding) : PortBinding :=
  mkPortBinding (pb_Name b) (pb_ContainerPort b) (pb_ServicePort b) n (pb_Protocol b).

(** The inner loop of [updateServiceNodePort] for the live port [sp]: it
    stops at the first binding of that name. *)
Fixpoint adoptNodePort (sp : ServicePort) (portBindings : list PortBinding)
    : list PortBinding :=
  match portBindings with
  | [] => []
  | b :: rest =>
      if String.eqb (sp_Name sp) (pb_Name b)
      then (if pb_NodePort b =? 0 then setNodePort (sp_NodePort sp) b else b) :: rest
      else b :: adoptNodePort sp rest
  end.

(** The bindings are changed in place; the function returns them as the
    caller sees them afterwards. *)
Definition updateServiceNodePort (portBindings : list PortBinding)
    (svcports : list ServicePort) : list PortBinding :=
  foldl (fun pbs sp => adoptNodePort sp pbs) portBindings svcports.

(** Also in place: the loop leaves at the first node port it clears. *)
Fixpoint updateServiceClusterIP (portBindings : list PortBinding) : list PortBinding :=
  match portBindings with
  | [] => []
  | b :: rest =>
      if negb (pb_NodePort b =? 0) then setNodePort 0 b :: rest
      else b :: updateServiceClusterIP rest
  end.

(** The port [updateNodePorts] builds for a binding and a live port of the
    same name: [NodePort] starts at 0 and takes the live value if that is
    not 0. *)
Definition joinPort (pb : PortBinding) (sp : ServicePort) : ServicePort :=
  let port := mkServicePort (pb_Name pb) (pb_Protocol pb) (pb_ServicePort pb)
                (pb_ContainerPort pb) 0 in
  if negb (sp_NodePort sp =? 0)
  then mkServicePort (sp_Name port) (sp_Protocol port) (sp_Port port)
         (sp_TargetPort port) (sp_NodePort sp)
  else port.

Definition updateNodePorts (portbindings : list PortBinding)
    (svcports : list ServicePort) : list ServicePort :=
  foldl (fun ports pb =>
           foldl (fun ports sp =>
                    if String.eqb (pb_Name pb) (sp_Name sp)
                    then ports ++ [joinPort pb sp] else ports)
                 ports svcports)
        [] portbindings.

(** ** The objects of the cluster *)

(** [types.NamespacedName]. *)
Record NamespacedName := mkNamespacedName {
  nn_Namespace : string;
  nn_Name : string
}.

(** The fields of [metav1.ObjectMeta] the controller reads or writes. *)
Record ObjectMeta := mkObjectMeta {
  om_Name : string;
  om_Namespace : string;
  om_ResourceVersion : string;
  om_Labels : gmap string string;
  om_Annotations : gmap string string
}.

Definition clearResourceVersion (m : ObjectMeta) : ObjectMeta :=
  mkObjectMeta (om_Name m) (om_Namespace m) "" (om_Labels m) (om_Annotations m).

Definition setLabels (l : gmap string string) (m : ObjectMeta) : ObjectMeta :=
  mkObjectMeta (om_Name m) (om_Namespace m) (om_ResourceVersion m) l (om_Annotations m).

Definition setAnnotations (a : gmap string string) (m : ObjectMeta) : ObjectMeta :=
  mkObjectMeta (om_Name m) (om_Namespace m) (om_ResourceVersion m) (om_Labels m) a.

(** [appsv1.Deployment]: its metadata, and the rest of the object, which
    the controller hands on as the builder made it. *)
Record Deployment := mkDeployment {
  dp_ObjectMeta : ObjectMeta;
  dp_Spec : string
}.

(** [corev1.ConfigMap], likewise. *)
Record ConfigMap := mkConfigMap {
  cm_ObjectMeta : ObjectMeta;
  cm_Data : gmap string string
}.

(** [corev1.LoadBalancerIngress]. *)
Record LoadBalancerIngress := mkLoadBalancerIngress {
  lbi_IP : string;
  lbi_Hostname : string
}.

(** [corev1.Service]: metadata, the fields of [Spec] and
    [Status.LoadBalancer.Ingress]. *)
Record Service := mkService {
  svc_ObjectMeta : ObjectMeta;
  svc_Type : string;
  svc_ClusterIP : string;
  svc_ClusterIPs : list string;
  svc_Ports : list ServicePort;
  svc_Ingress : list LoadBalancerIngress
}.

(** Modelled from the spec: [v1alpha1.ComputeNode], declared in
    api/v1alpha1, flattened: its metadata, the fields of [Spec] (replica
    count, pod selector, service exposure mode, port bindings) and the
    fields of [Status] (phase, condition history, the ready/total string,
    the ready count, and the load balancer's cluster address and
    ingress points). *)
Record ComputeNode := mkComputeNode {
  cn_ObjectMeta : ObjectMeta;
  cn_Replicas : Z;
  cn_MatchLabels : gmap string string;
  cn_ServiceType : string;
  cn_PortBindings : list PortBinding;
  cn_Phase : string;
  cn_Conditions : list ComputeNodeCondition;
  cn_Ready : string;
  cn_ReadyInstances : Z;
  cn_ClusterIP : string;
  cn_Ingress : list LoadBalancerIngress
}.

(** [&v1alpha1.ComputeNode{}]. *)
Definition zeroComputeNode : ComputeNode :=
  mkComputeNode (mkObjectMeta "" "" "" ∅ ∅) 0 ∅ "" [] "" [] "" 0 "" [].

Definition setPortBindings (pbs : list PortBinding) (cn : ComputeNode) : ComputeNode :=
  mkComputeNode (cn_ObjectMeta cn) (cn_Replicas cn) (cn_MatchLabels cn)
    (cn_ServiceType cn) pbs (cn_Phase cn) (cn_Conditions cn) (cn_Ready cn)
    (cn_ReadyInstances cn) (cn_ClusterIP cn) (cn_Ingress cn).

(** The key all lookups use:
    [types.NamespacedName{Namespace: cn.Namespace, Name: cn.Name}]. *)
Definition keyOf (cn : ComputeNode) : NamespacedName :=
  mkNamespacedName (om_Namespace (cn_ObjectMeta cn)) (om_Name (cn_ObjectMeta cn)).

(** ** Errors *)

(** The reasons of [metav1.StatusReason] that the API machinery tells
    apart; an error that is no API status has [StatusReasonUnknown]. *)
Inductive StatusReason :=
| StatusReasonUnknown
| StatusReasonNotFound
| StatusReasonAlreadyExists
| StatusReasonConflict
| StatusReasonTimeout
| StatusReasonInvalid.

(** A Go [error] that is not [nil]; [nil] is [None] of [option error]. *)
Record error := mkError {
  err_Reason : StatusReason;
  err_Message : string
}.

Module apierrors.
Definition IsNotFound (err : error) : bool :=
  match err_Reason err with StatusReasonNotFound => true | _ => false end.

Definition IsAlreadyExists (err : error) : bool :=
  match err_Reason err with StatusReasonAlreadyExists => true | _ => false end.
End apierrors.

(** ** The status projection *)

Definition isTrueReadyPod (pod : Pod) : bool :=
  existsb (fun c => isTrue c corev1.PodReady) (pod_Conditions pod).

(** [findRunningPod] of [getReadyProxyInstances], with the counter. *)
Definition findRunningPod (cnt : Z) (pod : Pod) : Z :=
  if negb (String.eqb (pod_Phase pod) corev1.PodRunning) then cnt
  else if isTrueReadyPod pod
  then foldl (fun cnt cs =>
                if String.eqb (cs_Name cs) "shardingsphere-proxy" && cs_Ready cs
                then wrap32 (cnt + 1) else cnt)
             cnt (pod_ContainerStatuses pod)
  else cnt.

Definition getReadyProxyInstances (items : list Pod) : Z :=
  foldl findRunningPod 0 items.

(** [fmt.Sprintf] with the format "%d/%d". *)
Definition sprintfReady (ready replicas : Z) : string :=
  String.append (pretty ready) (String.append "/" (pretty replicas)).

Definition reconcileComputeNodeStatus (tu tn : Time) (items : list Pod)
    (svc : Service) (cn : ComputeNode) : ComputeNode :=
  let cond := getConditionFromPods tu tn items in
  let conditions := updateComputeNodeStatusCondition (cn_Conditions cn) cond in
  let ready := getReadyProxyInstances items in
  mkComputeNode (cn_ObjectMeta cn) (cn_Replicas cn) (cn_MatchLabels cn)
    (cn_ServiceType cn) (cn_PortBindings cn)
    (if 0 <? ready then v1alpha1.ComputeNodeStatusReady
     else v1alpha1.ComputeNodeStatusNotReady)
    conditions
    (sprintfReady ready (cn_Replicas cn))
    ready
    (svc_ClusterIP svc)
    (svc_Ingress svc).

(** ** The calls to the outside *)

(** What the controller asks of the cluster, the builders' clients and
    the logger, in the order it asks. *)
Inductive Call :=
| ClientGetComputeNode (key : NamespacedName)
| ClientGetService (key : NamespacedName)
| ClientListPods (namespace : string) (matchingLabels : gmap string string)
| ClientUpdateComputeNode (cn : ComputeNode)
| ClientUpdateService (svc : Service)
| ClientStatusUpdate (cn : ComputeNode)
| DeploymentGetByNamespacedName (key : NamespacedName)
| DeploymentCreate (dp : Deployment)
| DeploymentUpdate (dp : Deployment)
| ServiceGetByNamespacedName (key : NamespacedName)
| ServiceCreate (svc : Service)
| ConfigMapGetByNamespacedName (key : NamespacedName)
| ConfigMapCreate (cm : ConfigMap)
| ConfigMapUpdate (cm : ConfigMap)
| LoggerError (err : error) (msg : string)
| Printf (conditions : list ComputeNodeCondition).

Definition Trace := list Call.

(** [ComputeNodeReconciler]: the client, the three builders with their
    clients, and the clock. Every answer may depend on all the calls made
    before. A getter or an update that is handed a pointer answers with
    the object as the call leaves it, next to the error. *)
Record ComputeNodeReconciler := mkReconciler {
  Get_ComputeNode : Trace -> NamespacedName -> ComputeNode * option error;
  Get_Service : Trace -> NamespacedName -> Service * option error;
  List_Pods : Trace -> string -> gmap string string -> list Pod * option error;
  Update_ComputeNode : Trace -> ComputeNode -> ComputeNode * option error;
  Update_Service : Trace -> Service -> option error;
  Status_Update : Trace -> ComputeNode -> option error;
  Deployment_Build : ComputeNode -> Deployment;
  Deployment_Create : Trace -> Deployment -> option error;
  Deployment_Update : Trace -> Deployment -> option error;
  Deployment_GetByNamespacedName :
    Trace -> NamespacedName -> option Deployment * option error;
  Service_Build : ComputeNode -> Service;
  Service_Create : Trace -> Service -> option error;
  Service_GetByNamespacedName :
    Trace -> NamespacedName -> option Service * option error;
  ConfigMap_Build : ComputeNode -> ConfigMap;
  ConfigMap_Create : Trace -> ConfigMap -> option error;
  ConfigMap_Update : Trace -> ConfigMap -> option error;
  ConfigMap_GetByNamespacedName :
    Trace -> NamespacedName -> option ConfigMap * option error;
  time_Now : Trace -> Time * Time
}.

(** A computation that makes calls: from the calls made so far to its
    result and the calls made by its end. *)
Definition M (A : Type) : Type := Trace -> A * Trace.

#[global] Instance M_ret : MRet M := fun A x tr => (x, tr).
#[global] Instance M_bind : MBind M :=
  fun A B f m tr => let '(x, tr') := m tr in f x tr'.

(** One call: the answer is read off the calls before it, and the call
    joins them. *)
Definition call {A} (c : Call) (answer : Trace -> A) : M A :=
  fun tr => (answer tr, tr ++ [c]).

(** [ctrl.Result]; [RequeueAfter] is a [time.Duration], in nanoseconds. *)
Record Result := mkResult {
  Requeue : bool;
  RequeueAfter : Z
}.

Definition Second : Z := 1000000000.
Definition defaultRequeueTime : Z := 10 * Second.

(** ** The reconcilers *)

Section Reconciler.
Variable r : ComputeNodeReconciler.

Definition loggerError (err : error) (msg : string) : M unit :=
  call (LoggerError err msg) (fun _ => tt).

(** *** Deployment *)

Definition getDeploymentByNamespacedName (namespacedName : NamespacedName)
    : M (option Deployment * option error) :=
  '(dp, err) ← call (DeploymentGetByNamespacedName namespacedName)
                 (fun tr => Deployment_GetByNamespacedName r tr namespacedName);
  match err with
  | Some err => mret (None, Some err)
  | None => mret (dp, None)
  end.

Definition createDeployment (cn : ComputeNode) : M (option error) :=
  let deploy := Deployment_Build r cn in
  err ← call (DeploymentCreate deploy) (fun tr => Deployment_Create r tr deploy);
  match err with
  | Some e => if apierrors.IsAlreadyExists e then mret None else mret (Some e)
  | None => mret None
  end.

Definition updateDeployment (cn : ComputeNode) (deploy : Deployment)
    : M (option error) :=
  let exp := Deployment_Build r cn in
  let meta := dp_ObjectMeta deploy in
  let meta := clearResourceVersion meta in
  let meta := setLabels (om_Labels (dp_ObjectMeta deploy)) meta in
  let meta := setAnnotations (om_Annotations (dp_ObjectMeta deploy)) meta in
  let exp := mkDeployment meta (dp_Spec exp) in
  call (DeploymentUpdate exp) (fun tr => Deployment_Update r tr exp).

Definition reconcileDeployment (cn : ComputeNode) : M (option error) :=
  '(deploy, err) ← getDeploymentByNamespacedName (keyOf cn);
  match err with
  | Some err => mret (Some err)
  | None =>
      match deploy with
      | Some deploy => updateDeployment cn deploy
      | None => createDeployment cn
      end
  end.

(** *** Service *)

Definition getServiceByNamespacedName (namespacedName : NamespacedName)
    : M (option Service * option error) :=
  '(svc, err) ← call (ServiceGetByNamespacedName namespacedName)
                  (fun tr => Service_GetByNamespacedName r tr namespacedName);
  match err with
  | Some err => mret (None, Some err)
  | None => mret (svc, None)
  end.

Definition createService (cn : ComputeNode) : M (option error) :=
  let svc := Service_Build r cn in
  err ← call (ServiceCreate svc) (fun tr => Service_Create r tr svc);
  match err with
  | Some e => if apierrors.IsAlreadyExists e then mret None else mret (Some e)
  | None => mret None
  end.

(** [r.Update(ctx, cn)]: the client writes what the server answers into
    the object [cn] points to. *)
Definition clientUpdateComputeNode (cn : ComputeNode)
    : M (ComputeNode * option error) :=
  call (ClientUpdateComputeNode cn) (fun tr => Update_ComputeNode r tr cn).

(** The [switch] of [updateService]: the bindings of [cn] are rewritten
    in place, then [cn] is sent to the cluster. *)
Definition updateServicePorts (cn : ComputeNode) (cur : Service)
    : M (ComputeNode * option error) :=
  if String.eqb (cn_ServiceType cn) corev1.ServiceTypeClusterIP then
    clientUpdateComputeNode
      (setPortBindings (updateServiceClusterIP (cn_PortBindings cn)) cn)
  else if String.eqb (cn_ServiceType cn) corev1.ServiceTypeExternalName
       || String.eqb (cn_ServiceType cn) corev1.ServiceTypeLoadBalancer
       || String.eqb (cn_ServiceType cn) corev1.ServiceTypeNodePort then
    clientUpdateComputeNode
      (setPortBindings
         (updateServiceNodePort (cn_PortBindings cn) (svc_Ports cur)) cn)
  else mret (cn, None).

(** The service [updateService] sends: built from [cn], with the live
    metadata and cluster addresses, and in NodePort mode the joined
    ports. *)
Definition expectedService (cn : ComputeNode) (cur : Service) : Service :=
  let exp := Service_Build r cn in
  mkService (svc_ObjectMeta cur) (svc_Type exp)
    (svc_ClusterIP cur) (svc_ClusterIPs cur)
    (if String.eqb (cn_ServiceType cn) corev1.ServiceTypeNodePort
     then updateNodePorts (cn_PortBindings cn) (svc_Ports cur)
     else svc_Ports exp)
    (svc_Ingress exp).

(** [cn] is a pointer: the caller sees the object as [updateService]
    leaves it, so it is returned next to the error. *)
Definition updateService (cn : ComputeNode) (cur : Service)
    : M (ComputeNode * option error) :=
  '(cn, err) ← updateServicePorts cn cur;
  match err with
  | Some err => mret (cn, Some err)
  | None =>
      let exp := expectedService cn cur in
      err ← call (ClientUpdateService exp) (fun tr => Update_Service r tr exp);
      mret (cn, err)
  end.

Definition reconcileService (cn : ComputeNode) : M (ComputeNode * option error) :=
  '(svc, err) ← getServiceByNamespacedName (keyOf cn);
  match err with
  | Some err => mret (cn, Some err)
  | None =>
      match svc with
      | Some svc => updateService cn svc
      | None => err ← createService cn; mret (cn, err)
      end
  end.

(** *** ConfigMap *)

Definition createConfigMap (cn : ComputeNode) : M (option error) :=
  let cm := ConfigMap_Build r cn in
  err ← call (ConfigMapCreate cm) (fun tr => ConfigMap_Create r tr cm);
  match err with
  | Some e => if apierrors.IsAlreadyExists e then mret None else mret (Some e)
  | None => mret None
  end.

Definition updateConfigMap (cn : ComputeNode) (cm : ConfigMap) : M (option error) :=
  let exp := ConfigMap_Build r cn in
  let meta := cm_ObjectMeta cm in
  let meta := clearResourceVersion meta in
  let meta := setLabels (om_Labels (cm_ObjectMeta cm)) meta in
  let meta := setAnnotations (om_Annotations (cm_ObjectMeta cm)) meta in
  let exp := mkConfigMap meta (cm_Data exp) in
  call (ConfigMapUpdate exp) (fun tr => ConfigMap_Update r tr exp).

Definition getConfigMapByNamespacedName (namespacedName : NamespacedName)
    : M (option ConfigMap * option error) :=
  '(cm, err) ← call (ConfigMapGetByNamespacedName namespacedName)
                 (fun tr => ConfigMap_GetByNamespacedName r tr namespacedName);
  match err with
  | Some err => mret (None, Some err)
  | None => mret (cm, None)
  end.

Definition reconcileConfigMap (cn : ComputeNode) : M (option error) :=
  '(cm, err) ← getConfigMapByNamespacedName (keyOf cn);
  match err with
  | Some err => mret (Some err)
  | None =>
      match cm with
      | Some cm => updateConfigMap cn cm
      | None => createConfigMap cn
      end
  end.

(** *** Status *)

Definition getRuntimeComputeNode (namespacedName : NamespacedName)
    : M (ComputeNode * option error) :=
  call (ClientGetComputeNode namespacedName)
    (fun tr => Get_ComputeNode r tr namespacedName).

Definition reconcileStatus (cn : ComputeNode) : M (option error) :=
  '(podlist, err) ← call (ClientListPods (om_Namespace (cn_ObjectMeta cn))
                            (cn_MatchLabels cn))
                      (fun tr => List_Pods r tr (om_Namespace (cn_ObjectMeta cn))
                                   (cn_MatchLabels cn));
  match err with
  | Some err => mret (Some err)
  | None =>
      '(service, err) ← call (ClientGetService (keyOf cn))
                          (fun tr => Get_Service r tr (keyOf cn));
      match err with
      | Some err => mret (Some err)
      | None =>
          '(rt, err) ← getRuntimeComputeNode (keyOf cn);
          match err with
          | Some err => mret (Some err)
          | None =>
              '(tu, tn) ← (fun tr => (time_Now r tr, tr));
              let rt := reconcileComputeNodeStatus tu tn podlist service rt in
              call (Printf (cn_Conditions rt)) (fun _ => ()) ;;
              call (ClientStatusUpdate rt) (fun tr => Status_Update r tr rt)
          end
      end
  end.

(** *** The orchestrator *)

(** [errors = append(errors, err)] after a reconciler, with its log. *)
Definition collect (errors : list error) (err : option error) (msg : string)
    : M (list error) :=
  match err with
  | Some err => loggerError err msg ;; mret (errors ++ [err])
  | None => mret errors
  end.

Definition Reconcile (req : NamespacedName) : M (Result * option error) :=
  '(cn, err) ← call (ClientGetComputeNode req) (fun tr => Get_ComputeNode r tr req);
  match err with
  | Some err =>
      if apierrors.IsNotFound err
      then mret (mkResult false defaultRequeueTime, None)
      else loggerError err "Failed to get the compute node" ;;
           mret (mkResult true 0, Some err)
  | None =>
      err ← reconcileStatus cn;
      match err with
      | Some err => loggerError err "Failed to reconcile status"
      | None => mret ()
      end ;;
      let errors := [] in
      err ← reconcileDeployment cn;
      errors ← collect errors err "Failed to reconcile deployement";
      '(cn, err) ← reconcileService cn;
      errors ← collect errors err "Failed to reconcile service";
      err ← reconcileConfigMap cn;
      errors ← collect errors err "Failed to reconcile configmap";
      match errors with
      | err :: _ => mret (mkResult true 0, Some err)
      | [] => mret (mkResult false defaultRequeueTime, None)
      end
  end.
End Reconciler.

(** ** The specification's reading of the classifier and of the rollup *)

(** The type a pod classifies to. *)
Definition podType (pod : Pod) : string :=
  cond_Type (getPreferedConditionFromPod pod).

(** A sub-condition of the given type is true. *)
Definition hasTrue (conditions : list PodCondition) (t : string) : bool :=
  existsb (fun c => isTrue c t) conditions.

(** The classifier as the specification words it: the three phases first,
    then the sub-conditions in strict priority order. *)
Definition classifySpec (pod : Pod) : string :=
  if String.eqb (pod_Phase pod) "Unknown" then "Unknown"
  else if String.eqb (pod_Phase pod) "Pending" then "Pending"
  else if String.eqb (pod_Phase pod) "Failed" then "Failed"
  else if hasTrue (pod_Conditions pod) "Ready" then "Ready"
  else if hasTrue (pod_Conditions pod) "ContainersReady" then "Started"
  else if hasTrue (pod_Conditions pod) "Initialized" then "Initialized"
  else if hasTrue (pod_Conditions pod) "PodScheduled" then "Deployed"
  else "".

(** The number of pods that classify to [t]. *)
Definition occ (t : string) (items : list Pod) : Z :=
  len (List.filter (fun p => String.eqb (podType p) t) items).

(** Some pod classifies to [t]; every pod classifies to [t]. *)
Definition anyIs (t : string) (items : list Pod) : Prop :=
  Exists (fun p => podType p = t) items.
Definition allAre (t : string) (items : list Pod) : Prop :=
  Forall (fun p => podType p = t) items.

(** The priority chain of the rollup after its first rule: type, reason
    and message, first match wins. *)
Definition rollupChain : list (string * string * string) :=
  [ ("Ready", "PodReady", "Some pods are ready");
    ("Started", "PodStarted", "Some pods are started");
    ("Initialized", "PodInitialized", "Some pods are initialized");
    ("Deployed", "PodDeployed", "Some pods are deployed");
    ("Pending", "PodPending", "Some pods are pending");
    ("Failed", "PodFailed", "Some pods are failed") ].

Definition firstMatch (ts : list string) : option (string * string * string) :=
  List.find (fun '(t, _, _) => existsb (String.eqb t) ts) rollupChain.

(** The rollup over the pods' types, rule by rule; where no rule of the
    chain applies the result is the zero condition. *)
Definition rollupSpec (tu tn : Time) (ts : list string) : ComputeNodeCondition :=
  match ts with
  | [] => newCondition "Unknown" tu tn "PodNotFound" "No pod was found"
  | _ =>
      if forallb (String.eqb "Unknown") ts
      then newCondition "Unknown" tu tn "PodUnknown" "All pods are unknown"
      else match firstMatch ts with
           | Some (t, reason, message) => newCondition t tu tn reason message
           | None => zeroCondition
           end
  end.

(** The ports [updateNodePorts] joins for one binding: one for each live
    port of its name. *)
Definition joinedFor (sps : list ServicePort) (pb : PortBinding) : list ServicePort :=
  map (joinPort pb) (List.filter (fun sp => String.eqb (pb_Name pb) (sp_Name sp)) sps).

(** The test of the merge loop: the entry has the type of the merged
    condition. *)
Definition sameType (cond c : ComputeNodeCondition) : bool :=
  String.eqb (cond_Type c) (cond_Type cond).

(** The types of a history, in order. *)
Definition types (conditions : list ComputeNodeCondition) : list string :=
  map cond_Type conditions.

(** A sequence of merges. *)
Definition merges (conditions : list ComputeNodeCondition)
    (conds : list ComputeNodeCondition) : list ComputeNodeCondition :=
  foldl updateComputeNodeStatusCondition conditions conds.

(** The log line the orchestrator writes for a failed step, if any. *)
Definition logOf (err : option error) (msg : string) : Trace :=
  match err with
  | Some err => [LoggerError err msg]
  | None => []
  end.

(** The first of the collected errors. *)
Definition firstError (errs : list (option error)) : option error :=
  head (omap id errs).

(** The directive of a pass from the first collected error. *)
Definition directive (err : option error) : Result * option error :=
  match err with
  | Some err => (mkResult true 0, Some err)
  | None => (mkResult false defaultRequeueTime, None)
  end.

(** The lookups a reconciler starts with. *)
Definition isLookup (c : Call) : bool :=
  match c with
  | DeploymentGetByNamespacedName _
  | ServiceGetByNamespacedName _
  | ConfigMapGetByNamespacedName _ => true
  | _ => false
  end.

(** What a creation that answered [answer] makes the reconciler return:
    success and already-exists give [nil], any other error is handed on. *)
Definition IdempotentCreate (answer result : option error) : Prop :=
  (answer = None -> result = None) /\
  (forall e, answer = Some e -> apierrors.IsAlreadyExists e = true -> result = None) /\
  (forall e, answer = Some e -> apierrors.IsAlreadyExists e = false -> result = Some e).

(** ** A cluster to run the controller on *)

Module Scenario.
Definition meta : ObjectMeta := mkObjectMeta "proxy" "default" "7" ∅ ∅.

Definition bindingA : PortBinding := mkPortBinding "a" 3307 3307 30001 "TCP".
Definition bindingB : PortBinding := mkPortBinding "b" 3308 3308 30002 "TCP".
Definition bindingP : PortBinding := mkPortBinding "p" 3307 3307 0 "TCP".
Definition liveP : ServicePort := mkServicePort "p" "TCP" 3307 3307 30080.

Definition node (serviceType : string) (pbs : list PortBinding) : ComputeNode :=
  mkComputeNode meta 1 ∅ serviceType pbs "" [] "" 0 "" [].

Definition live (ports : list ServicePort) : Service :=
  mkService meta "NodePort" "10.0.0.1" ["10.0.0.1"] ports [].

Definition running : Pod := mkPod "Running" [] [].
Definition unknown : Pod := mkPod "Unknown" [] [].
Definition failed : Pod := mkPod "Failed" [] [].
Definition readyPod : Pod :=
  mkPod "Running" [mkPodCondition "PodScheduled" "True";
                   mkPodCondition "Ready" "True"] [].

Definition buildService (cn : ComputeNode) : Service :=
  mkService (cn_ObjectMeta cn) (cn_ServiceType cn) "" []
    (map (fun pb => mkServicePort (pb_Name pb) (pb_Protocol pb) (pb_ServicePort pb)
                      (pb_ContainerPort pb) (pb_NodePort pb))
         (cn_PortBindings cn)) [].

Definition conflict : error := mkError StatusReasonConflict "conflict".
Definition exists_ : error := mkError StatusReasonAlreadyExists "exists".
Definition notFound : error := mkError StatusReasonNotFound "not found".

(** A cluster that holds the compute node [cn], the pods [items], the
    service [svc] if any, no deployment and no config map, and in which
    creating a deployment answers [dpCreate], creating a config map
    [cmCreate], and every other call succeeds. *)
Definition cluster (cn : ComputeNode) (items : list Pod) (svc : option Service)
    (getErr dpCreate cmCreate : option error) : ComputeNodeReconciler :=
  mkReconciler
    (fun _ _ => (match getErr with Some _ => zeroComputeNode | None => cn end, getErr))
    (fun _ _ => (default (live []) svc, None))
    (fun _ _ _ => (items, None))
    (fun _ cn => (cn, None))
    (fun _ _ => None)
    (fun _ _ => None)
    (fun cn => mkDeployment (cn_ObjectMeta cn) "proxy")
    (fun _ _ => dpCreate)
    (fun _ _ => None)
    (fun _ _ => (None, None))
    buildService
    (fun _ _ => None)
    (fun _ _ => (svc, None))
    (fun cn => mkConfigMap (cn_ObjectMeta cn) ∅)
    (fun _ _ => cmCreate)
    (fun _ _ => None)
    (fun _ _ => (None, None))
    (fun _ => (5, 6)).
End Scenario.

(** ** The other builders of the condition history *)

Definition setStatus (st : string) (c : ComputeNodeCondition) : ComputeNodeCondition :=
  mkCondition (cond_Type c) st (cond_LastUpdateTime c)
    (cond_LastTransitionTime c) (cond_Reason c) (cond_Message c).

(** The loop of [newConditions]: it stops at the first entry of the
    type of [cond], which takes the update time and the status of [cond];
    it returns the entries as rewritten and whether it found one. *)
Fixpoint refreshFirst (cond : ComputeNodeCondition)
    (conditions : list ComputeNodeCondition) : list ComputeNodeCondition * bool :=
  match conditions with
  | [] => ([], false)
  | c :: rest =>
      if negb (String.eqb (cond_Type c) (cond_Type cond))
      then let '(rest', found) := refreshFirst cond rest in (c :: rest', found)
      else (setStatus (cond_Status cond)
              (setLastUpdateTime (cond_LastUpdateTime cond) c) :: rest, true)
  end.

(** [newConditions]; a [nil] slice and an empty one are both [[]]. *)
Definition newConditions (conditions : list ComputeNodeCondition)
    (cond : ComputeNodeCondition) : list ComputeNodeCondition :=
  if String.eqb (cond_Type cond) "" then conditions
  else
    let '(conditions', found) := refreshFirst cond conditions in
    if negb found then conditions' ++ [cond] else conditions'.

Definition updateReadyConditions (conditions : list ComputeNodeCondition)
    (cond : ComputeNodeCondition) : list ComputeNodeCondition :=
  newConditions conditions cond.

(** The loop of [updateNotReadyConditions]. Every entry of type Ready
    reads the clock for itself: [clock k] is the reading number [k] of
    [metav1.Now()], and [k] counts the readings taken so far. *)
Fixpoint retireReady (clock : nat -> Time) (k : nat)
    (cur : list ComputeNodeCondition) : list ComputeNodeCondition :=
  match cur with
  | [] => []
  | c :: rest =>
      if String.eqb (cond_Type c) v1alpha1.ComputeNodeConditionReady
      then setStatusFalse (setLastUpdateTime (clock k) c) :: retireReady clock (S k) rest
      else c :: retireReady clock k rest
  end.

Definition updateNotReadyConditions (clock : nat -> Time)
    (conditions : list ComputeNodeCondition) (cond : ComputeNodeCondition)
    : list ComputeNodeCondition :=
  let cur := newConditions conditions cond in
  retireReady clock 0 cur.

(** The body of the loop of [setCondition] for the entry [c]. *)
Definition setEntry (cond : ComputeNodeCondition) (exlusive : bool)
    (c : ComputeNodeCondition) : ComputeNodeCondition :=
  if String.eqb (cond_Type c) (cond_Type cond) then cond
  else if exlusive
  then setStatusFalse (setLastUpdateTime (cond_LastUpdateTime cond) c)
  else c.

Fixpoint setLoop (cond : ComputeNodeCondition) (exlusive : bool)
    (conditions : list ComputeNodeCondition) (found : bool)
    : list ComputeNodeCondition * bool :=
  match conditions with
  | [] => ([], found)
  | c :: rest =>
      let found' := if String.eqb (cond_Type c) (cond_Type cond) then true else found in
      let '(rest', final) := setLoop cond exlusive rest found' in
      (setEntry cond exlusive c :: rest', final)
  end.

(** [setCondition] returns nothing. Its writes to [conditions[i]] land in
    the caller's slice; its [append] is assigned to the parameter, a copy
    of the caller's slice header, and the caller's slice keeps its
    length. The first component is the slice as the caller has it after
    the call, the second the parameter as the function leaves it. *)
Definition setCondition (tu tn : Time) (conditions : list ComputeNodeCondition)
    (t reason message : string) (exlusive : bool)
    : list ComputeNodeCondition * list ComputeNodeCondition :=
  let cond := mkCondition t v1alpha1.ConditionStatusTrue tu tn reason message in
  let '(conditions', found) := setLoop cond exlusive conditions false in
  (conditions',
   if (len conditions' =? 0) || negb found then conditions' ++ [cond] else conditions').

Definition setConditionUnknown (tu tn : Time) (conditions : list ComputeNodeCondition)
    (reason message : string) :=
  setCondition tu tn conditions v1alpha1.ComputeNodeConditionUnknown reason message true.
Definition setConditionPending (tu tn : Time) (conditions : list ComputeNodeCondition)
    (reason message : string) :=
  setCondition tu tn conditions v1alpha1.ComputeNodeConditionPending reason message false.
Definition setConditionDeployed (tu tn : Time) (conditions : list ComputeNodeCondition)
    (reason message : string) :=
  setCondition tu tn conditions v1alpha1.ComputeNodeConditionDeployed reason message false.
Definition setConditionInitialized (tu tn : Time) (conditions : list ComputeNodeCondition)
    (reason message : string) :=
  setCondition tu tn conditions v1alpha1.ComputeNodeConditionInitialized reason message false.
Definition setConditionStarted (tu tn : Time) (conditions : list ComputeNodeCondition)
    (reason message : string) :=
  setCondition tu tn conditions v1alpha1.ComputeNodeConditionStarted reason message false.
Definition setConditionReady (tu tn : Time) (conditions : list ComputeNodeCondition)
    (reason message : string) :=
  setCondition tu tn conditions v1alpha1.ComputeNodeConditionReady reason message false.
Definition setConditionFailed (tu tn : Time) (conditions : list ComputeNodeCondition)
    (reason message : string) :=
  setCondition tu tn conditions v1alpha1.ComputeNodeConditionFailed reason message true.

(** ** Measures used in the properties *)

(** The bindings that have a node port. *)
Definition assigned (portBindings : list PortBinding) : nat :=
  length (List.filter (fun b => negb (pb_NodePort b =? 0)) portBindings).


(** The live port [sp] has nothing left to give to the bindings: the
    first binding of its name, if there is one, has a node port, or the
    live port has none. *)
Fixpoint settled (sp : ServicePort) (portBindings : list PortBinding) : Prop :=
  match portBindings with
  | [] => True
  | b :: rest =>
      if String.eqb (sp_Name sp) (pb_Name b)
      then pb_NodePort b <> 0 \/ sp_NodePort sp = 0
      else settled sp rest
  end.

(** A pod that counts towards the ready instances: running, with a true
    Ready condition. *)
Definition runningAndReady (pod : Pod) : bool :=
  String.eqb (pod_Phase pod) corev1.PodRunning && isTrueReadyPod pod.

(** The ready proxy containers of a pod. *)
Definition readyProxyContainers (pod : Pod) : list ContainerStatus :=
  List.filter (fun cs => String.eqb (cs_Name cs) "shardingsphere-proxy" && cs_Ready cs)
    (pod_ContainerStatuses pod).

(** The ready proxy containers of the running and ready pods, counted
    without bound. *)
Definition readyProxies (items : list Pod) : Z :=
  len (flat_map readyProxyContainers (List.filter runningAndReady items)).

(** The types a rollup can have. *)
Definition rollupTypes : list string :=
  [ v1alpha1.ComputeNodeConditionUnknown; v1alpha1.ComputeNodeConditionReady;
    v1alpha1.ComputeNodeConditionStarted; v1alpha1.ComputeNodeConditionInitialized;
    v1alpha1.ComputeNodeConditionDeployed; v1alpha1.ComputeNodeConditionPending;
    v1alpha1.ComputeNodeConditionFailed; "" ].

(** A call that writes to the cluster. *)
Definition isWrite (c : Call) : bool :=
  match c with
  | ClientUpdateComputeNode _ | ClientUpdateService _ | ClientStatusUpdate _
  | DeploymentCreate _ | DeploymentUpdate _ | ServiceCreate _
  | ConfigMapCreate _ | ConfigMapUpdate _ => true
  | _ => false
  end.

(** What a call of [updateService] for the compute node [cn] and the
    live service [cur] may be: the compute node with no more than its
    node ports changed, or a service with the metadata and the cluster
    addresses of the live one. *)
Definition updateServiceCall (cn : ComputeNode) (cur : Service) (c : Call) : Prop :=
  match c with
  | ClientUpdateComputeNode cn0 =>
      setPortBindings (map (setNodePort 0) (cn_PortBindings cn0)) cn0
        = setPortBindings (map (setNodePort 0) (cn_PortBindings cn)) cn
  | ClientUpdateService exp =>
      svc_ObjectMeta exp = svc_ObjectMeta cur /\
      svc_ClusterIP exp = svc_ClusterIP cur /\
      svc_ClusterIPs exp = svc_ClusterIPs cur
  | _ => False
  end.

(** The four exposure modes [updateService] knows. *)
Definition knownServiceTypes : list string :=
  [ corev1.ServiceTypeClusterIP; corev1.ServiceTypeExternalName;
    corev1.ServiceTypeLoadBalancer; corev1.ServiceTypeNodePort ].

(** The bindings [updateService] persists in one of these modes. *)
Definition persistedBindings (cn : ComputeNode) (cur : Service) : list PortBinding :=
  if String.eqb (cn_ServiceType cn) corev1.ServiceTypeClusterIP
  then updateServiceClusterIP (cn_PortBindings cn)
  else updateServiceNodePort (cn_PortBindings cn) (svc_Ports cur).

(** ** A cluster that fails where asked *)

Module Faulty.
(** Like the cluster of [Scenario], with the answers of the three
    lookups given and an error, if any, for listing the pods, for
    reading the service and for updating the compute node. *)
Definition cluster (cn : ComputeNode) (items : list Pod)
    (dp : option Deployment * option error)
    (svc : option Service * option error)
    (cm : option ConfigMap * option error)
    (listErr getServiceErr updateErr : option error) : ComputeNodeReconciler :=
  mkReconciler
    (fun _ _ => (cn, None))
    (fun _ _ => (Scenario.live [], getServiceErr))
    (fun _ _ _ => (items, listErr))
    (fun _ cn => (cn, updateErr))
    (fun _ _ => None)
    (fun _ _ => None)
    (fun cn => mkDeployment (cn_ObjectMeta cn) "proxy")
    (fun _ _ => None)
    (fun _ _ => None)
    (fun _ _ => dp)
    Scenario.buildService
    (fun _ _ => None)
    (fun _ _ => svc)
    (fun cn => mkConfigMap (cn_ObjectMeta cn) ∅)
    (fun _ _ => None)
    (fun _ _ => None)
    (fun _ _ => cm)
    (fun _ => (5, 6)).

Definition liveDeployment : Deployment :=
  mkDeployment (mkObjectMeta "proxy" "default" "41" {[ "app" := "proxy" ]} ∅) "old".

Definition liveConfigMap : ConfigMap :=
  mkConfigMap (mkObjectMeta "proxy" "default" "42" ∅ {[ "note" := "kept" ]}) ∅.
End Faulty.

(** The pod reports a sub-condition of type [t] with status True. *)
Definition subTrue (pod : Pod) (t : string) : Prop :=
  Exists (fun c => pc_Type c = t /\ pc_Status c = "True") (pod_Conditions pod).

(** * Properties *)

(** ** Scalars and strings *)

Lemma wrap64_small (x : Z) : - 2 ^ 63 <= x < 2 ^ 63 -> wrap64 x = x.
Proof.
  intros Hx. unfold wrap64.
  rewrite Z.mod_small; lia.
Qed.

Lemma len_nonneg {A} (s : list A) : 0 <= len s.
Proof. unfold len. lia. Qed.

Lemma len_cons {A} (x : A) (s : list A) : len (x :: s) = len s + 1.
Proof. unfold len. cbn [length]. lia. Qed.

Lemma len_zero {A} (s : list A) : (len s =? 0) = true <-> s = [].
Proof.
  unfold len. destruct s; cbn [length]; split; intros H; easy.
Qed.

(** ** The classifier *)

Section Classifier.
Implicit Types (f : PodFlags) (c : PodCondition) (cs : list PodCondition).

Lemma scan_sched f c :
  sched (scanPodCondition f c) = sched f || isTrue c corev1.PodScheduled.
Proof.
  unfold scanPodCondition.
  destruct (isTrue c corev1.PodScheduled), (isTrue c corev1.PodInitialized),
    (isTrue c corev1.ContainersReady), (isTrue c corev1.PodReady);
    cbn; rewrite ?orb_true_r, ?orb_false_r; reflexivity.
Qed.

Lemma scan_initialized f c :
  initialized (scanPodCondition f c) = initialized f || isTrue c corev1.PodInitialized.
Proof.
  unfold scanPodCondition.
  destruct (isTrue c corev1.PodScheduled), (isTrue c corev1.PodInitialized),
    (isTrue c corev1.ContainersReady), (isTrue c corev1.PodReady);
    cbn; rewrite ?orb_true_r, ?orb_false_r; reflexivity.
Qed.

Lemma scan_conReady f c :
  conReady (scanPodCondition f c) = conReady f || isTrue c corev1.ContainersReady.
Proof.
  unfold scanPodCondition.
  destruct (isTrue c corev1.PodScheduled), (isTrue c corev1.PodInitialized),
    (isTrue c corev1.ContainersReady), (isTrue c corev1.PodReady);
    cbn; rewrite ?orb_true_r, ?orb_false_r; reflexivity.
Qed.

Lemma scan_ready f c :
  ready (scanPodCondition f c) = ready f || isTrue c corev1.PodReady.
Proof.
  unfold scanPodCondition.
  destruct (isTrue c corev1.PodScheduled), (isTrue c corev1.PodInitialized),
    (isTrue c corev1.ContainersReady), (isTrue c corev1.PodReady);
    cbn; rewrite ?orb_true_r, ?orb_false_r; reflexivity.
Qed.

(** The flags at the end of the loop: each is set exactly when some
    condition of its type is true. *)
Lemma scan_all cs f :
  let g := foldl scanPodCondition f cs in
  sched g = sched f || hasTrue cs corev1.PodScheduled /\
  initialized g = initialized f || hasTrue cs corev1.PodInitialized /\
  conReady g = conReady f || hasTrue cs corev1.ContainersReady /\
  ready g = ready f || hasTrue cs corev1.PodReady.
Proof.
  revert f. induction cs as [|c cs IH]; intros f; cbn [foldl hasTrue existsb].
  - rewrite !orb_false_r. auto.
  - destruct (IH (scanPodCondition f c)) as (Hs & Hi & Hc & Hr).
    cbn zeta in *. rewrite Hs, Hi, Hc, Hr.
    rewrite scan_sched, scan_initialized, scan_conReady, scan_ready.
    unfold hasTrue. rewrite !orb_assoc. auto.
Qed.

Lemma getPreferedConditionFromPodConditions_spec cs :
  getPreferedConditionFromPodConditions cs =
    if hasTrue cs "Ready" then onlyType "Ready"
    else if hasTrue cs "ContainersReady" then onlyType "Started"
    else if hasTrue cs "Initialized" then onlyType "Initialized"
    else if hasTrue cs "PodScheduled" then onlyType "Deployed"
    else zeroCondition.
Proof.
  unfold getPreferedConditionFromPodConditions.
  destruct (scan_all cs (mkPodFlags false false false false)) as (Hs & Hi & Hc & Hr).
  cbn zeta in *. rewrite Hs, Hi, Hc, Hr. reflexivity.
Qed.
End Classifier.

(** The classifier computes the type the specification gives. *)
Lemma getPreferedConditionFromPod_classifySpec (pod : Pod) :
  getPreferedConditionFromPod pod = onlyType (classifySpec pod).
Proof.
  unfold getPreferedConditionFromPod, classifySpec.
  change corev1.PodUnknown with "Unknown".
  change corev1.PodPending with "Pending".
  change corev1.PodFailed with "Failed".
  destruct (String.eqb (pod_Phase pod) "Unknown"); [reflexivity|].
  destruct (String.eqb (pod_Phase pod) "Pending"); [reflexivity|].
  destruct (String.eqb (pod_Phase pod) "Failed"); [reflexivity|].
  rewrite getPreferedConditionFromPodConditions_spec.
  repeat match goal with
    | |- context [hasTrue ?cs ?t] => destruct (hasTrue cs t); [reflexivity|]
    end.
  reflexivity.
Qed.

Lemma hasTrue_subTrue (pod : Pod) (t : string) :
  hasTrue (pod_Conditions pod) t = true <-> subTrue pod t.
Proof.
  unfold hasTrue, subTrue, isTrue. rewrite existsb_exists, Exists_exists. split.
  - intros (c & Hin & Hc). apply andb_prop in Hc as [Ht Hs].
    apply String.eqb_eq in Ht. apply String.eqb_eq in Hs.
    exists c. split; [apply list_elem_of_In; exact Hin|]. split; assumption.
  - intros (c & Hin & Ht & Hs). exists c. split; [apply list_elem_of_In; exact Hin|].
    apply andb_true_intro. split; apply String.eqb_eq; assumption.
Qed.

Lemma hasTrue_not_subTrue (pod : Pod) (t : string) :
  ~ subTrue pod t -> hasTrue (pod_Conditions pod) t = false.
Proof.
  intros Hn. destruct (hasTrue (pod_Conditions pod) t) eqn:E; [|reflexivity].
  apply hasTrue_subTrue in E. contradiction.
Qed.

(** The type the specification gives, case by case. *)
Lemma classifySpec_cases (pod : Pod) :
  (pod_Phase pod = "Unknown" -> classifySpec pod = "Unknown") /\
  (pod_Phase pod = "Pending" -> classifySpec pod = "Pending") /\
  (pod_Phase pod = "Failed" -> classifySpec pod = "Failed") /\
  (pod_Phase pod <> "Unknown" -> pod_Phase pod <> "Pending" ->
   pod_Phase pod <> "Failed" ->
   (subTrue pod "Ready" -> classifySpec pod = "Ready") /\
   (~ subTrue pod "Ready" -> subTrue pod "ContainersReady" ->
    classifySpec pod = "Started") /\
   (~ subTrue pod "Ready" -> ~ subTrue pod "ContainersReady" ->
    subTrue pod "Initialized" -> classifySpec pod = "Initialized") /\
   (~ subTrue pod "Ready" -> ~ subTrue pod "ContainersReady" ->
    ~ subTrue pod "Initialized" -> subTrue pod "PodScheduled" ->
    classifySpec pod = "Deployed") /\
   (~ subTrue pod "Ready" -> ~ subTrue pod "ContainersReady" ->
    ~ subTrue pod "Initialized" -> ~ subTrue pod "PodScheduled" ->
    classifySpec pod = "")).
Proof.
  unfold classifySpec. split; [|split; [|split]].
  - intros ->. reflexivity.
  - intros ->. reflexivity.
  - intros ->. reflexivity.
  - intros Hu Hp Hf.
    apply String.eqb_neq in Hu. apply String.eqb_neq in Hp. apply String.eqb_neq in Hf.
    rewrite Hu, Hp, Hf.
    repeat split; intros;
      repeat (first [ rewrite hasTrue_not_subTrue by assumption
                    | match goal with
                      | H : subTrue pod ?t |- _ =>
                          rewrite (proj2 (hasTrue_subTrue pod t) H)
                      end ]);
      reflexivity.
Qed.

(** C6. The classifier maps a pod to one condition that carries a type
    and nothing else: status, reason and message are empty and both
    times are zero. Phase Unknown, Pending and Failed map to the type of
    the same name; any other phase maps to Ready if the pod has a true
    Ready sub-condition, else to Started if it has a true
    ContainersReady, else to Initialized if it has a true Initialized,
    else to Deployed if it has a true PodScheduled, else to the empty
    type. *)
Theorem getPreferedConditionFromPod_classifies (pod : Pod) :
  let c := getPreferedConditionFromPod pod in
  (cond_Status c = "" /\ cond_LastUpdateTime c = 0 /\
   cond_LastTransitionTime c = 0 /\ cond_Reason c = "" /\ cond_Message c = "") /\
  (pod_Phase pod = "Unknown" -> cond_Type c = "Unknown") /\
  (pod_Phase pod = "Pending" -> cond_Type c = "Pending") /\
  (pod_Phase pod = "Failed" -> cond_Type c = "Failed") /\
  (pod_Phase pod <> "Unknown" -> pod_Phase pod <> "Pending" ->
   pod_Phase pod <> "Failed" ->
   (subTrue pod "Ready" -> cond_Type c = "Ready") /\
   (~ subTrue pod "Ready" -> subTrue pod "ContainersReady" ->
    cond_Type c = "Started") /\
   (~ subTrue pod "Ready" -> ~ subTrue pod "ContainersReady" ->
    subTrue pod "Initialized" -> cond_Type c = "Initialized") /\
   (~ subTrue pod "Ready" -> ~ subTrue pod "ContainersReady" ->
    ~ subTrue pod "Initialized" -> subTrue pod "PodScheduled" ->
    cond_Type c = "Deployed") /\
   (~ subTrue pod "Ready" -> ~ subTrue pod "ContainersReady" ->
    ~ subTrue pod "Initialized" -> ~ subTrue pod "PodScheduled" ->
    cond_Type c = "")) /\
  c = mkCondition (classifySpec pod) "" 0 0 "" "".
Proof.
  intros c. subst c. rewrite getPreferedConditionFromPod_classifySpec.
  cbn [onlyType cond_Type cond_Status cond_LastUpdateTime cond_LastTransitionTime
         cond_Reason cond_Message].
  split; [repeat split|].
  destruct (classifySpec_cases pod) as (Hu & Hp & Hf & Hother).
  split; [exact Hu|]. split; [exact Hp|]. split; [exact Hf|].
  split; [exact Hother|reflexivity].
Qed.

(** A running pod that is scheduled and has its containers ready but is
    not Ready classifies as Started, and a pending pod with a true
    Ready sub-condition as Pending: instances of C6 with the premises
    checked. *)
Lemma getPreferedConditionFromPod_classifies_witness :
  getPreferedConditionFromPod
    (mkPod "Running"
       [mkPodCondition "PodScheduled" "True"; mkPodCondition "Ready" "False";
        mkPodCondition "ContainersReady" "True"] [])
  = mkCondition "Started" "" 0 0 "" "" /\
  cond_Type (getPreferedConditionFromPod
               (mkPod "Pending" [mkPodCondition "Ready" "True"] [])) = "Pending".
Proof.
  split.
  - destruct (getPreferedConditionFromPod_classifies
                (mkPod "Running"
                   [mkPodCondition "PodScheduled" "True"; mkPodCondition "Ready" "False";
                    mkPodCondition "ContainersReady" "True"] []))
      as ((Hst & Hlu & Hlt & Hre & Hme) & _ & _ & _ & Hother & _).
    assert (Hty : cond_Type (getPreferedConditionFromPod
                               (mkPod "Running"
                                  [mkPodCondition "PodScheduled" "True";
                                   mkPodCondition "Ready" "False";
                                   mkPodCondition "ContainersReady" "True"] []))
                  = "Started").
    { apply Hother; try discriminate.
      - intros H. unfold subTrue in H. cbn [pod_Conditions] in H.
        repeat (apply Exists_cons in H as [[H1 H2]|H];
                [cbn in H1, H2; discriminate|]).
        apply Exists_nil in H. exact H.
      - unfold subTrue. cbn [pod_Conditions].
        apply Exists_cons_tl, Exists_cons_tl, Exists_cons_hd. split; reflexivity. }
    destruct (getPreferedConditionFromPod _) as [ty st lu lt re me].
    cbn in Hst, Hlu, Hlt, Hre, Hme, Hty. subst. reflexivity.
  - exact (proj1 (proj2 (proj2 (getPreferedConditionFromPod_classifies
                                  (mkPod "Pending" [mkPodCondition "Ready" "True"] []))))
             eq_refl).
Defined.

(** ** The rollup *)

Section Rollup.
Implicit Types (m : gmap string Z) (p : Pod) (items : list Pod) (t : string).

Lemma count_tally m p t :
  count (tally m p) t =
    if String.eqb (podType p) t then wrap64 (count m t + 1) else count m t.
Proof.
  unfold tally, count. fold (podType p).
  destruct (String.eqb_spec (podType p) t) as [->|Hne].
  - rewrite lookup_insert_eq. reflexivity.
  - rewrite lookup_insert_ne by exact Hne. reflexivity.
Qed.

Lemma occ_nil t : occ t [] = 0.
Proof. reflexivity. Qed.

Lemma occ_cons t p items :
  occ t (p :: items) = (if String.eqb (podType p) t then 1 else 0) + occ t items.
Proof.
  unfold occ. cbn [List.filter].
  destruct (String.eqb (podType p) t); [rewrite len_cons|]; lia.
Qed.

Lemma occ_bounds t items : 0 <= occ t items <= len items.
Proof.
  induction items as [|p items IH].
  - rewrite occ_nil. unfold len. cbn. lia.
  - rewrite occ_cons, len_cons. destruct (String.eqb (podType p) t); lia.
Qed.

(** The counters never wrap: a slice has fewer than 2^63 elements. *)
Lemma count_foldl_tally items : forall m t,
  0 <= count m t -> count m t + len items < 2 ^ 63 ->
  count (foldl tally m items) t = count m t + occ t items.
Proof.
  induction items as [|p items IH]; intros m t H0 Hlt; cbn [foldl].
  - rewrite occ_nil. lia.
  - rewrite len_cons in Hlt. pose proof (len_nonneg items) as Hl.
    assert (Hc : count (tally m p) t =
                 count m t + (if String.eqb (podType p) t then 1 else 0)).
    { rewrite count_tally. destruct (String.eqb (podType p) t); [|lia].
      apply wrap64_small. lia. }
    rewrite IH, Hc, occ_cons.
    + lia.
    + rewrite Hc. destruct (String.eqb (podType p) t); lia.
    + rewrite Hc. destruct (String.eqb (podType p) t); lia.
Qed.

Lemma count_result items t :
  len items < 2 ^ 63 ->
  count (foldl tally (∅ : gmap string Z) items) t = occ t items.
Proof.
  intros Hlt. rewrite count_foldl_tally.
  - unfold count. rewrite lookup_empty. reflexivity.
  - unfold count. rewrite lookup_empty. cbn. lia.
  - unfold count. rewrite lookup_empty. cbn [default]. lia.
Qed.

Lemma occ_pos t items :
  (0 <? occ t items) = existsb (String.eqb t) (map podType items).
Proof.
  induction items as [|p items IH]; [reflexivity|].
  rewrite occ_cons. cbn [map existsb]. rewrite <- IH.
  pose proof (occ_bounds t items) as Hb.
  rewrite (String.eqb_sym t).
  destruct (String.eqb (podType p) t); cbn [orb].
  - apply Z.ltb_lt. lia.
  - reflexivity.
Qed.

Lemma occ_all t items :
  (occ t items =? len items) = forallb (String.eqb t) (map podType items).
Proof.
  induction items as [|p items IH]; [reflexivity|].
  rewrite occ_cons, len_cons. cbn [map forallb]. rewrite <- IH.
  pose proof (occ_bounds t items) as Hb.
  rewrite (String.eqb_sym t).
  destruct (String.eqb (podType p) t); cbn [andb].
  - destruct (Z.eqb_spec (occ t items) (len items)) as [->|Hne].
    + apply Z.eqb_eq. lia.
    + apply Z.eqb_neq. lia.
  - apply Z.eqb_neq. lia.
Qed.

Lemma existsb_anyIs t items :
  existsb (String.eqb t) (map podType items) = true <-> anyIs t items.
Proof.
  unfold anyIs. rewrite existsb_exists, Exists_exists. split.
  - intros (x & Hin & Heq). apply in_map_iff in Hin as (p & <- & Hp).
    apply String.eqb_eq in Heq. exists p. split; [|congruence].
    apply list_elem_of_In. exact Hp.
  - intros (p & Hp & Heq). exists (podType p). split.
    + apply in_map. apply list_elem_of_In. exact Hp.
    + apply String.eqb_eq. congruence.
Qed.

Lemma forallb_allAre t items :
  forallb (String.eqb t) (map podType items) = true <-> allAre t items.
Proof.
  unfold allAre. rewrite forallb_forall, Forall_forall. split.
  - intros H p Hp. symmetry. apply String.eqb_eq, H, in_map.
    apply list_elem_of_In. exact Hp.
  - intros H x Hin. apply in_map_iff in Hin as (p & <- & Hp).
    apply String.eqb_eq. symmetry. apply H, list_elem_of_In. exact Hp.
Qed.

(** The counting loop of the code computes the rollup of the
    specification over the pods' types. *)
Lemma getConditionFromPods_rollupSpec tu tn items :
  len items < 2 ^ 63 ->
  getConditionFromPods tu tn items = rollupSpec tu tn (map podType items).
Proof.
  intros Hlt. unfold getConditionFromPods, rollupSpec.
  destruct items as [|p items]; [reflexivity|].
  replace (len (p :: items) =? 0) with false
    by (symmetry; apply Z.eqb_neq; rewrite len_cons; pose proof (len_nonneg items); lia).
  cbn zeta. rewrite !count_result by exact Hlt.
  rewrite occ_all, !occ_pos.
  change (map podType (p :: items)) with (podType p :: map podType items).
  set (ts := podType p :: map podType items).
  change v1alpha1.ComputeNodeConditionUnknown with "Unknown".
  destruct (forallb (String.eqb "Unknown") ts); [reflexivity|].
  unfold firstMatch, rollupChain. cbn [List.find].
  change v1alpha1.ComputeNodeConditionReady with "Ready".
  change v1alpha1.ComputeNodeConditionStarted with "Started".
  change v1alpha1.ComputeNodeConditionInitialized with "Initialized".
  change v1alpha1.ComputeNodeConditionDeployed with "Deployed".
  change v1alpha1.ComputeNodeConditionPending with "Pending".
  change v1alpha1.ComputeNodeConditionFailed with "Failed".
  repeat match goal with
    | |- context [existsb (String.eqb ?t) ts] =>
        destruct (existsb (String.eqb t) ts); [reflexivity|]
    end.
  reflexivity.
Qed.
End Rollup.

Lemma existsb_anyIs_false (t : string) (items : list Pod) :
  ~ anyIs t items -> existsb (String.eqb t) (map podType items) = false.
Proof.
  intros Hn. destruct (existsb _ _) eqn:E; [|reflexivity].
  apply existsb_anyIs in E. contradiction.
Qed.

Lemma forallb_allAre_false (t : string) (items : list Pod) :
  ~ allAre t items -> forallb (String.eqb t) (map podType items) = false.
Proof.
  intros Hn. destruct (forallb _ _) eqn:E; [|reflexivity].
  apply forallb_allAre in E. contradiction.
Qed.

(** Below the first rule, the rollup is the first match of the chain. *)
Lemma rollupSpec_chain (tu tn : Time) (items : list Pod) :
  ~ allAre "Unknown" items ->
  rollupSpec tu tn (map podType items) =
    match firstMatch (map podType items) with
    | Some (t, reason, message) => newCondition t tu tn reason message
    | None => zeroCondition
    end.
Proof.
  intros Hn. unfold rollupSpec.
  rewrite (forallb_allAre_false _ _ Hn).
  destruct items as [|p items]; [|reflexivity].
  exfalso. apply Hn. constructor.
Qed.

Ltac decide_chain :=
  unfold firstMatch, rollupChain; cbn [List.find];
  repeat (first [ rewrite existsb_anyIs_false by assumption
                | match goal with
                  | H : anyIs ?t ?items |- _ =>
                      rewrite (proj2 (existsb_anyIs t items) H)
                  end ]);
  reflexivity.

(** C3. The rollup follows the priority chain, and each rule gives a
    condition with status True, the two readings of the clock, and its
    own type, reason and message: no pod gives Unknown with reason
    PodNotFound; pods that all classify as Unknown give Unknown (All
    pods are unknown); otherwise the first of Ready, Started,
    Initialized, Deployed, Pending and Failed that some pod classifies
    to is the summary, so one Ready pod makes the summary Ready whatever
    the other pods are. The pods are a Go slice, of length below 2^63. *)
Theorem getConditionFromPods_priority_chain (tu tn : Time) (items : list Pod) :
  len items < 2 ^ 63 ->
  let summary := getConditionFromPods tu tn items in
  (items = [] ->
   summary = mkCondition "Unknown" "True" tu tn "PodNotFound" "No pod was found") /\
  (items <> [] -> allAre "Unknown" items ->
   summary = mkCondition "Unknown" "True" tu tn "PodUnknown" "All pods are unknown") /\
  (~ allAre "Unknown" items ->
   (anyIs "Ready" items ->
    summary = mkCondition "Ready" "True" tu tn "PodReady" "Some pods are ready") /\
   (~ anyIs "Ready" items ->
    anyIs "Started" items ->
    summary = mkCondition "Started" "True" tu tn "PodStarted" "Some pods are started") /\
   (~ anyIs "Ready" items ->
    ~ anyIs "Started" items ->
    anyIs "Initialized" items ->
    summary = mkCondition "Initialized" "True" tu tn "PodInitialized"
                "Some pods are initialized") /\
   (~ anyIs "Ready" items ->
    ~ anyIs "Started" items ->
    ~ anyIs "Initialized" items ->
    anyIs "Deployed" items ->
    summary = mkCondition "Deployed" "True" tu tn "PodDeployed" "Some pods are deployed") /\
   (~ anyIs "Ready" items ->
    ~ anyIs "Started" items ->
    ~ anyIs "Initialized" items ->
    ~ anyIs "Deployed" items ->
    anyIs "Pending" items ->
    summary = mkCondition "Pending" "True" tu tn "PodPending" "Some pods are pending") /\
   (~ anyIs "Ready" items ->
    ~ anyIs "Started" items ->
    ~ anyIs "Initialized" items ->
    ~ anyIs "Deployed" items ->
    ~ anyIs "Pending" items ->
    anyIs "Failed" items ->
    summary = mkCondition "Failed" "True" tu tn "PodFailed" "Some pods are failed")).
Proof.
  intros Hlt summary. subst summary.
  rewrite getConditionFromPods_rollupSpec by exact Hlt.
  split; [intros ->; reflexivity|]. split.
  - intros Hne Hall. apply forallb_allAre in Hall. unfold rollupSpec.
    rewrite Hall. destruct items; [congruence|reflexivity].
  - intros Hn. rewrite rollupSpec_chain by exact Hn.
    repeat split; intros; decide_chain.
Qed.

(** The chain at work on a failed pod, a ready pod and an unknown pod,
    where the pods' types are read off their phases and sub-conditions;
    also an instance of C3 with each premise checked. *)
Lemma getConditionFromPods_priority_chain_witness :
  len [Scenario.failed; Scenario.readyPod; Scenario.unknown] < 2 ^ 63 /\
  ~ allAre "Unknown" [Scenario.failed; Scenario.readyPod; Scenario.unknown] /\
  anyIs "Ready" [Scenario.failed; Scenario.readyPod; Scenario.unknown] /\
  getConditionFromPods 5 6 [Scenario.failed; Scenario.readyPod; Scenario.unknown] =
    mkCondition "Ready" "True" 5 6 "PodReady" "Some pods are ready".
Proof.
  assert (Hlt : len [Scenario.failed; Scenario.readyPod; Scenario.unknown] < 2 ^ 63)
    by (vm_compute; reflexivity).
  assert (Hn : ~ allAre "Unknown"
                 [Scenario.failed; Scenario.readyPod; Scenario.unknown]).
  { intros H. apply Forall_cons in H as [H _]. vm_compute in H. discriminate H. }
  assert (Hr : anyIs "Ready"
                 [Scenario.failed; Scenario.readyPod; Scenario.unknown]).
  { apply Exists_cons_tl, Exists_cons_hd. reflexivity. }
  split; [exact Hlt|]. split; [exact Hn|]. split; [exact Hr|].
  exact (proj1 (proj2 (proj2 (getConditionFromPods_priority_chain 5 6 _ Hlt)) Hn) Hr).
Defined.

(** ** The merge *)

Section Merge.
Implicit Types (cond c : ComputeNodeCondition) (cs : list ComputeNodeCondition).

Lemma mergeLoop_map cond cs : forall found,
  mergeLoop cond cs found = (map (mergeEntry cond) cs, found || existsb (sameType cond) cs).
Proof.
  induction cs as [|c cs IH]; intros found; cbn [mergeLoop map existsb].
  - rewrite orb_false_r. reflexivity.
  - rewrite IH. unfold sameType at 2.
    destruct (String.eqb (cond_Type c) (cond_Type cond)), found; reflexivity.
Qed.

(** The merge in one equation: every entry is rewritten where it
    stands, and the merged condition is appended if no entry had its
    type. *)
Lemma updateComputeNodeStatusCondition_map cs cond :
  updateComputeNodeStatusCondition cs cond =
    map (mergeEntry cond) cs ++ (if existsb (sameType cond) cs then [] else [cond]).
Proof.
  unfold updateComputeNodeStatusCondition. rewrite mergeLoop_map. cbn [orb].
  destruct (existsb (sameType cond) cs) eqn:E.
  - destruct cs as [|c cs]; [discriminate E|].
    cbn [map]. rewrite len_cons.
    replace (len (map (mergeEntry cond) cs) + 1 =? 0) with false.
    + cbn. rewrite app_nil_r. reflexivity.
    + symmetry. apply Z.eqb_neq. pose proof (len_nonneg (map (mergeEntry cond) cs)). lia.
  - cbn [negb]. rewrite orb_true_r. reflexivity.
Qed.

Lemma mergeEntry_type cond c : cond_Type (mergeEntry cond c) = cond_Type c.
Proof.
  unfold mergeEntry.
  destruct (String.eqb_spec (cond_Type c) (cond_Type cond)) as [->|_]; [reflexivity|].
  destruct (String.eqb (cond_Type cond) v1alpha1.ComputeNodeConditionUnknown);
    [reflexivity|].
  destruct (String.eqb (cond_Type c) v1alpha1.ComputeNodeConditionUnknown); reflexivity.
Qed.

Lemma mergeEntry_same cond c : cond_Type c = cond_Type cond -> mergeEntry cond c = cond.
Proof.
  intros H. unfold mergeEntry. rewrite H, String.eqb_refl. reflexivity.
Qed.

Lemma existsb_sameType cond cs :
  existsb (sameType cond) cs = true <-> cond_Type cond ∈ types cs.
Proof.
  unfold types. rewrite existsb_exists, list_elem_of_fmap. split.
  - intros (c & Hin & Heq). apply String.eqb_eq in Heq.
    exists c. split; [congruence|]. apply list_elem_of_In. exact Hin.
  - intros (c & Heq & Hin). exists c. split; [apply list_elem_of_In; exact Hin|].
    apply String.eqb_eq. congruence.
Qed.

Lemma types_update cs cond :
  types (updateComputeNodeStatusCondition cs cond) =
    types cs ++ (if existsb (sameType cond) cs then [] else [cond_Type cond]).
Proof.
  rewrite updateComputeNodeStatusCondition_map. unfold types.
  rewrite map_app, map_map.
  rewrite (map_ext _ cond_Type (mergeEntry_type cond)).
  destruct (existsb (sameType cond) cs); reflexivity.
Qed.

Lemma NoDup_types_update cs cond :
  NoDup (types cs) -> NoDup (types (updateComputeNodeStatusCondition cs cond)).
Proof.
  intros Hnd. rewrite types_update.
  destruct (existsb (sameType cond) cs) eqn:E.
  - rewrite app_nil_r. exact Hnd.
  - apply NoDup_app. split; [exact Hnd|]. split; [|apply NoDup_singleton].
    intros t Ht Hin. apply list_elem_of_singleton in Hin. subst t.
    apply existsb_sameType in Ht. congruence.
Qed.

Lemma types_merges conds : forall cs,
  exists added, types (merges cs conds) = types cs ++ added.
Proof.
  unfold merges. induction conds as [|cond conds IH]; intros cs; cbn [foldl].
  - exists []. rewrite app_nil_r. reflexivity.
  - destruct (IH (updateComputeNodeStatusCondition cs cond)) as [added Ha].
    rewrite Ha, types_update, <- app_assoc. eauto.
Qed.

Lemma NoDup_types_merges conds : forall cs,
  NoDup (types cs) -> NoDup (types (merges cs conds)).
Proof.
  unfold merges. induction conds as [|cond conds IH]; intros cs Hnd; cbn [foldl].
  - exact Hnd.
  - apply IH, NoDup_types_update, Hnd.
Qed.

(** Every entry of the merged history is the merged condition or the
    rewriting of an old entry of another type. *)
Lemma elem_of_update cs cond c :
  c ∈ updateComputeNodeStatusCondition cs cond ->
  c = cond \/ exists c0, c0 ∈ cs /\ cond_Type c0 <> cond_Type cond /\ c = mergeEntry cond c0.
Proof.
  rewrite updateComputeNodeStatusCondition_map, elem_of_app, list_elem_of_fmap.
  intros [(c0 & -> & Hin)|Hin].
  - destruct (String.eqb_spec (cond_Type c0) (cond_Type cond)) as [Heq|Hne].
    + left. apply mergeEntry_same, Heq.
    + right. eauto.
  - left. destruct (existsb (sameType cond) cs).
    + apply elem_of_nil in Hin. contradiction.
    + apply list_elem_of_singleton in Hin. exact Hin.
Qed.

(** The merged condition is always in the merged history. *)
Lemma cond_in_update cs cond : cond ∈ updateComputeNodeStatusCondition cs cond.
Proof.
  rewrite updateComputeNodeStatusCondition_map, elem_of_app.
  destruct (existsb (sameType cond) cs) eqn:E.
  - left. apply existsb_exists in E as (c & Hin & Heq).
    apply String.eqb_eq in Heq. apply list_elem_of_fmap.
    exists c. split; [symmetry; apply mergeEntry_same, Heq|].
    apply list_elem_of_In, Hin.
  - right. apply list_elem_of_singleton. reflexivity.
Qed.
End Merge.

Lemma mergeEntry_unknown (cond c : ComputeNodeCondition) :
  cond_Type cond = v1alpha1.ComputeNodeConditionUnknown ->
  cond_Type c <> cond_Type cond ->
  cond_Status (mergeEntry cond c) = v1alpha1.ConditionStatusFalse /\
  cond_LastUpdateTime (mergeEntry cond c) = cond_LastUpdateTime cond.
Proof.
  intros Hu Hne. unfold mergeEntry.
  destruct (String.eqb_spec (cond_Type c) (cond_Type cond)) as [Heq|_]; [contradiction|].
  rewrite Hu, String.eqb_refl. split; reflexivity.
Qed.

Lemma mergeEntry_retires_unknown (cond c : ComputeNodeCondition) :
  cond_Type cond <> v1alpha1.ComputeNodeConditionUnknown ->
  cond_Type c = v1alpha1.ComputeNodeConditionUnknown ->
  cond_Status (mergeEntry cond c) = v1alpha1.ConditionStatusFalse /\
  cond_LastUpdateTime (mergeEntry cond c) = cond_LastUpdateTime cond.
Proof.
  intros Hne Hu. unfold mergeEntry. rewrite Hu.
  destruct (String.eqb_spec v1alpha1.ComputeNodeConditionUnknown (cond_Type cond))
    as [Heq|_]; [congruence|].
  destruct (String.eqb_spec (cond_Type cond) v1alpha1.ComputeNodeConditionUnknown)
    as [Heq|_]; [contradiction|].
  rewrite String.eqb_refl. split; reflexivity.
Qed.

(** C4, as the code has it. After a condition of type Unknown is merged,
    every entry of another type has status False and the update time of
    the merged condition, and every entry of type Unknown is the merged
    condition. After a condition of another type is merged, every entry
    of type Unknown has status False, the history has an entry of the
    merged type, and every such entry is the merged condition itself: its
    status is True when the merged condition's status is True, as it is
    for every condition [newCondition] builds. *)
Theorem updateComputeNodeStatusCondition_unknown_exclusive
    (conditions : list ComputeNodeCondition) (cond : ComputeNodeCondition) :
  let merged := updateComputeNodeStatusCondition conditions cond in
  (cond_Type cond = v1alpha1.ComputeNodeConditionUnknown ->
   forall c, c ∈ merged ->
     (cond_Type c <> v1alpha1.ComputeNodeConditionUnknown ->
      cond_Status c = v1alpha1.ConditionStatusFalse /\
      cond_LastUpdateTime c = cond_LastUpdateTime cond) /\
     (cond_Type c = v1alpha1.ComputeNodeConditionUnknown -> c = cond)) /\
  (cond_Type cond <> v1alpha1.ComputeNodeConditionUnknown ->
   (forall c, c ∈ merged -> cond_Type c = v1alpha1.ComputeNodeConditionUnknown ->
      cond_Status c = v1alpha1.ConditionStatusFalse) /\
   (exists c, c ∈ merged /\ cond_Type c = cond_Type cond) /\
   (forall c, c ∈ merged -> cond_Type c = cond_Type cond -> c = cond) /\
   (cond_Status cond = v1alpha1.ConditionStatusTrue ->
    forall c, c ∈ merged -> cond_Type c = cond_Type cond ->
      cond_Status c = v1alpha1.ConditionStatusTrue)).
Proof.
  intros merged. subst merged.
  assert (Hsame : forall c, c ∈ updateComputeNodeStatusCondition conditions cond ->
                    cond_Type c = cond_Type cond -> c = cond).
  { intros c Hin Ht. apply elem_of_update in Hin as [->|(c0 & _ & Hne & ->)];
      [reflexivity|]. rewrite mergeEntry_type in Ht. contradiction. }
  split.
  - intros Hu c Hin. split.
    + intros Hne. apply elem_of_update in Hin as [->|(c0 & _ & Hne0 & ->)].
      * contradiction.
      * apply mergeEntry_unknown; assumption.
    + intros Hc. apply Hsame; congruence.
  - intros Hne. split; [|split; [|split]].
    + intros c Hin Hc. apply elem_of_update in Hin as [->|(c0 & _ & Hne0 & ->)].
      * contradiction.
      * rewrite mergeEntry_type in Hc. apply mergeEntry_retires_unknown; assumption.
    + exists cond. split; [apply cond_in_update|reflexivity].
    + exact Hsame.
    + intros Hst c Hin Ht. rewrite (Hsame c Hin Ht). exact Hst.
Qed.

(** A Failed rollup merged into a history that asserts Unknown and Ready:
    an instance of C4 with its premises checked. *)
Lemma updateComputeNodeStatusCondition_unknown_exclusive_witness :
  cond_Type (newConditionFailed 5 6 "PodFailed" "Some pods are failed")
    <> v1alpha1.ComputeNodeConditionUnknown /\
  cond_Status (newConditionFailed 5 6 "PodFailed" "Some pods are failed")
    = v1alpha1.ConditionStatusTrue /\
  forall c,
    c ∈ updateComputeNodeStatusCondition
          [newConditionUnknown 1 2 "PodUnknown" "All pods are unknown";
           newConditionReady 3 4 "PodReady" "Some pods are ready"]
          (newConditionFailed 5 6 "PodFailed" "Some pods are failed") ->
    (cond_Type c = v1alpha1.ComputeNodeConditionUnknown ->
     cond_Status c = v1alpha1.ConditionStatusFalse) /\
    (cond_Type c = v1alpha1.ComputeNodeConditionFailed ->
     cond_Status c = v1alpha1.ConditionStatusTrue).
Proof.
  assert (Hne : cond_Type (newConditionFailed 5 6 "PodFailed" "Some pods are failed")
                <> v1alpha1.ComputeNodeConditionUnknown) by (vm_compute; discriminate).
  assert (Hst : cond_Status (newConditionFailed 5 6 "PodFailed" "Some pods are failed")
                = v1alpha1.ConditionStatusTrue) by reflexivity.
  split; [exact Hne|]. split; [exact Hst|].
  intros c Hin.
  destruct (proj2 (updateComputeNodeStatusCondition_unknown_exclusive
                     [newConditionUnknown 1 2 "PodUnknown" "All pods are unknown";
                      newConditionReady 3 4 "PodReady" "Some pods are ready"]
                     (newConditionFailed 5 6 "PodFailed" "Some pods are failed")) Hne)
    as (Hunk & _ & _ & Htrue).
  split.
  - exact (Hunk c Hin).
  - exact (Htrue Hst c Hin).
Defined.

(** C4 as stated fails where the rollup falls through: one running pod
    without true sub-conditions rolls up to the zero condition, whose
    type is not Unknown, and the entry the merge adds for it has the
    empty status, not True. *)
Lemma updateComputeNodeStatusCondition_merged_status_counterexample :
  cond_Type (getConditionFromPods 5 6 [Scenario.running])
    <> v1alpha1.ComputeNodeConditionUnknown /\
  ~ (forall c,
       c ∈ updateComputeNodeStatusCondition
             [newConditionUnknown 1 2 "PodUnknown" "All pods are unknown"]
             (getConditionFromPods 5 6 [Scenario.running]) ->
       cond_Type c = cond_Type (getConditionFromPods 5 6 [Scenario.running]) ->
       cond_Status c = v1alpha1.ConditionStatusTrue).
Proof.
  split.
  - vm_compute. discriminate.
  - intros H. specialize (H zeroCondition).
    assert (Hs : cond_Status zeroCondition = v1alpha1.ConditionStatusTrue).
    { apply H.
      - vm_compute. apply list_elem_of_In. right. left. reflexivity.
      - reflexivity. }
    vm_compute in Hs. discriminate Hs.
Qed.

(** C5. Merges keep a history with one entry per type that way, whatever
    the sequence of merged conditions, and the types the history started
    with stay where they were, with new types after them. A single merge
    puts the merged condition at every position that held its type and
    leaves the length alone; if no entry has its type it rewrites the
    entries where they stand and appends the condition, once, at the end;
    and every position keeps its type. *)
Theorem updateComputeNodeStatusCondition_type_unique :
  (forall conditions conds,
     NoDup (types conditions) ->
     NoDup (types (merges conditions conds)) /\
     exists added, types (merges conditions conds) = types conditions ++ added) /\
  (forall conditions cond,
     let merged := updateComputeNodeStatusCondition conditions cond in
     (forall i c, conditions !! i = Some c -> cond_Type c = cond_Type cond ->
        merged !! i = Some cond /\ length merged = length conditions) /\
     (cond_Type cond ∉ types conditions ->
        merged = map (mergeEntry cond) conditions ++ [cond]) /\
     (forall i c, conditions !! i = Some c ->
        exists c', merged !! i = Some c' /\ cond_Type c' = cond_Type c)).
Proof.
  split.
  - intros conditions conds Hnd. split.
    + apply NoDup_types_merges, Hnd.
    + apply types_merges.
  - intros conditions cond merged. subst merged.
    rewrite updateComputeNodeStatusCondition_map.
    assert (Hat : forall i c, conditions !! i = Some c ->
                    (map (mergeEntry cond) conditions
                       ++ (if existsb (sameType cond) conditions then [] else [cond]))
                      !! i = Some (mergeEntry cond c)).
    { intros i c Hi. apply lookup_app_l_Some.
      change (map (mergeEntry cond) conditions) with (mergeEntry cond <$> conditions).
      rewrite list_lookup_fmap, Hi. reflexivity. }
    split; [|split].
    + intros i c Hi Ht. split.
      * rewrite (Hat i c Hi). f_equal. apply mergeEntry_same, Ht.
      * assert (E : existsb (sameType cond) conditions = true).
        { apply existsb_sameType. rewrite <- Ht. unfold types.
          apply list_elem_of_fmap. exists c. split; [reflexivity|].
          eapply list_elem_of_lookup_2, Hi. }
        rewrite E, app_nil_r. apply length_map.
    + intros Hnin. destruct (existsb (sameType cond) conditions) eqn:E; [|reflexivity].
      apply existsb_sameType in E. contradiction.
    + intros i c Hi. exists (mergeEntry cond c). split; [apply Hat, Hi|].
      apply mergeEntry_type.
Qed.

(** Two merges into a history of two types: an instance of C5 with the
    premise checked. *)
Lemma updateComputeNodeStatusCondition_type_unique_witness :
  NoDup (types [newConditionUnknown 1 2 "PodNotFound" "No pod was found";
                newConditionPending 3 4 "PodPending" "Some pods are pending"]) /\
  NoDup (types (merges
                  [newConditionUnknown 1 2 "PodNotFound" "No pod was found";
                   newConditionPending 3 4 "PodPending" "Some pods are pending"]
                  [newConditionReady 5 6 "PodReady" "Some pods are ready";
                   newConditionUnknown 7 8 "PodUnknown" "All pods are unknown"])).
Proof.
  assert (Hnd : NoDup (types [newConditionUnknown 1 2 "PodNotFound" "No pod was found";
                              newConditionPending 3 4 "PodPending" "Some pods are pending"])).
  { vm_compute. apply NoDup_cons. split.
    - intros H. apply list_elem_of_singleton in H. discriminate H.
    - apply NoDup_singleton. }
  split; [exact Hnd|].
  exact (proj1 (proj1 updateComputeNodeStatusCondition_type_unique _
                  [newConditionReady 5 6 "PodReady" "Some pods are ready";
                   newConditionUnknown 7 8 "PodUnknown" "All pods are unknown"] Hnd)).
Defined.

(** ** The service ports *)

Section Ports.
Implicit Types (b pb : PortBinding) (sp : ServicePort)
  (pbs : list PortBinding) (sps : list ServicePort).

Lemma adoptNodePort_names sp pbs :
  map pb_Name (adoptNodePort sp pbs) = map pb_Name pbs.
Proof.
  induction pbs as [|b pbs IH]; [reflexivity|]. cbn [adoptNodePort].
  destruct (String.eqb (sp_Name sp) (pb_Name b)).
  - destruct (pb_NodePort b =? 0); reflexivity.
  - cbn [map]. rewrite IH. reflexivity.
Qed.

(** A binding that has a node port keeps it. *)
Lemma adoptNodePort_assigned sp pbs : forall i b,
  pbs !! i = Some b -> pb_NodePort b <> 0 -> adoptNodePort sp pbs !! i = Some b.
Proof.
  induction pbs as [|b0 pbs IH]; intros i b Hi Hnz; [discriminate Hi|].
  cbn [adoptNodePort]. destruct (String.eqb (sp_Name sp) (pb_Name b0)).
  - destruct i as [|i]; [|exact Hi]. cbn in Hi. injection Hi as ->.
    apply Z.eqb_neq in Hnz. rewrite Hnz. reflexivity.
  - destruct i as [|i]; [exact Hi|]. cbn. apply IH; assumption.
Qed.

(** A binding of another name is left alone. *)
Lemma adoptNodePort_other sp pbs : forall i b,
  pbs !! i = Some b -> sp_Name sp <> pb_Name b -> adoptNodePort sp pbs !! i = Some b.
Proof.
  induction pbs as [|b0 pbs IH]; intros i b Hi Hne; [discriminate Hi|].
  cbn [adoptNodePort].
  destruct (String.eqb_spec (sp_Name sp) (pb_Name b0)) as [Heq|_].
  - destruct i as [|i]; [|exact Hi]. cbn in Hi. injection Hi as ->. contradiction.
  - destruct i as [|i]; [exact Hi|]. cbn. apply IH; assumption.
Qed.

(** The binding of the live port's name, when names are unique, adopts
    the live node port if it has none. *)
Lemma adoptNodePort_adopts sp pbs : forall i b,
  NoDup (map pb_Name pbs) ->
  pbs !! i = Some b -> sp_Name sp = pb_Name b -> pb_NodePort b = 0 ->
  adoptNodePort sp pbs !! i = Some (setNodePort (sp_NodePort sp) b).
Proof.
  induction pbs as [|b0 pbs IH]; intros i b Hnd Hi Hn Hz; [discriminate Hi|].
  cbn [map] in Hnd. apply NoDup_cons in Hnd as [Hnin Hnd].
  cbn [adoptNodePort].
  destruct (String.eqb_spec (sp_Name sp) (pb_Name b0)) as [Heq|Hne].
  - destruct i as [|i].
    + cbn in Hi. injection Hi as ->. rewrite Hz. reflexivity.
    + exfalso. apply Hnin. rewrite <- Heq, Hn.
      change (map pb_Name pbs) with (pb_Name <$> pbs).
      apply list_elem_of_fmap. exists b. split; [reflexivity|].
      eapply list_elem_of_lookup_2. exact Hi.
  - destruct i as [|i].
    + cbn in Hi. injection Hi as ->. contradiction.
    + cbn. apply IH; assumption.
Qed.

Lemma updateServiceNodePort_names sps : forall pbs,
  map pb_Name (updateServiceNodePort pbs sps) = map pb_Name pbs.
Proof.
  unfold updateServiceNodePort.
  induction sps as [|sp sps IH]; intros pbs; cbn [foldl]; [reflexivity|].
  rewrite IH. apply adoptNodePort_names.
Qed.

Lemma updateServiceNodePort_assigned sps : forall pbs i b,
  pbs !! i = Some b -> pb_NodePort b <> 0 ->
  updateServiceNodePort pbs sps !! i = Some b.
Proof.
  unfold updateServiceNodePort.
  induction sps as [|sp sps IH]; intros pbs i b Hi Hnz; cbn [foldl]; [exact Hi|].
  apply IH; [|exact Hnz]. apply adoptNodePort_assigned; assumption.
Qed.

Lemma updateServiceNodePort_other sps : forall pbs i b,
  pbs !! i = Some b -> (forall sp, sp ∈ sps -> sp_Name sp <> pb_Name b) ->
  updateServiceNodePort pbs sps !! i = Some b.
Proof.
  unfold updateServiceNodePort.
  induction sps as [|sp sps IH]; intros pbs i b Hi Hne; cbn [foldl]; [exact Hi|].
  apply IH.
  - apply adoptNodePort_other; [exact Hi|]. apply Hne. left.
  - intros sp' Hin. apply Hne. right. exact Hin.
Qed.

Lemma updateServiceNodePort_adopts sps : forall pbs sp i b,
  NoDup (map pb_Name pbs) -> NoDup (map sp_Name sps) ->
  sp ∈ sps -> pbs !! i = Some b -> sp_Name sp = pb_Name b -> pb_NodePort b = 0 ->
  updateServiceNodePort pbs sps !! i = Some (setNodePort (sp_NodePort sp) b).
Proof.
  induction sps as [|sp0 sps IH]; intros pbs sp i b Hpb Hsp Hin Hi Hn Hz.
  - apply elem_of_nil in Hin. contradiction.
  - cbn [map] in Hsp. apply NoDup_cons in Hsp as [Hnin Hsp].
    change (updateServiceNodePort pbs (sp0 :: sps))
      with (updateServiceNodePort (adoptNodePort sp0 pbs) sps).
    apply elem_of_cons in Hin as [->|Hin].
    + apply updateServiceNodePort_other.
      * apply adoptNodePort_adopts; assumption.
      * intros sp' Hin' Heq. apply Hnin. cbn in Heq. rewrite Hn, <- Heq.
        change (map sp_Name sps) with (sp_Name <$> sps).
        apply list_elem_of_fmap. exists sp'. split; [reflexivity|exact Hin'].
    + apply (IH _ sp); try assumption.
      * rewrite adoptNodePort_names. exact Hpb.
      * apply adoptNodePort_other; [exact Hi|].
        intros Heq. apply Hnin. rewrite Heq, <- Hn.
        change (map sp_Name sps) with (sp_Name <$> sps).
        apply list_elem_of_fmap. exists sp. split; [reflexivity|exact Hin].
Qed.

(** The port built in the join carries the live node port, zero or not. *)
Lemma joinPort_NodePort pb sp : sp_NodePort (joinPort pb sp) = sp_NodePort sp.
Proof.
  unfold joinPort. destruct (Z.eqb_spec (sp_NodePort sp) 0) as [->|_]; reflexivity.
Qed.

Lemma joinPort_Name pb sp : sp_Name (joinPort pb sp) = pb_Name pb.
Proof. unfold joinPort. destruct (negb _); reflexivity. Qed.

Lemma inner_join pb sps : forall ports,
  foldl (fun ports sp =>
           if String.eqb (pb_Name pb) (sp_Name sp)
           then ports ++ [joinPort pb sp] else ports) ports sps
  = ports ++ joinedFor sps pb.
Proof.
  unfold joinedFor.
  induction sps as [|sp sps IH]; intros ports; cbn [foldl List.filter map].
  - rewrite app_nil_r. reflexivity.
  - rewrite IH. destruct (String.eqb (pb_Name pb) (sp_Name sp)); [|reflexivity].
    cbn [map]. rewrite <- app_assoc. reflexivity.
Qed.

Lemma outer_join sps pbs : forall ports,
  foldl (fun ports pb =>
           foldl (fun ports sp =>
                    if String.eqb (pb_Name pb) (sp_Name sp)
                    then ports ++ [joinPort pb sp] else ports) ports sps)
        ports pbs
  = ports ++ flat_map (joinedFor sps) pbs.
Proof.
  induction pbs as [|pb pbs IH]; intros ports; cbn [foldl flat_map].
  - rewrite app_nil_r. reflexivity.
  - rewrite IH, inner_join, <- app_assoc. reflexivity.
Qed.

(** The rebuilt list is the join by name, binding by binding. *)
Lemma updateNodePorts_join pbs sps :
  updateNodePorts pbs sps = flat_map (joinedFor sps) pbs.
Proof. unfold updateNodePorts. rewrite outer_join. reflexivity. Qed.

Lemma elem_of_updateNodePorts pbs sps p :
  p ∈ updateNodePorts pbs sps <->
  exists pb sp, pb ∈ pbs /\ sp ∈ sps /\ pb_Name pb = sp_Name sp /\ p = joinPort pb sp.
Proof.
  rewrite updateNodePorts_join, list_elem_of_In, in_flat_map. unfold joinedFor. split.
  - intros (pb & Hpb & Hin). apply in_map_iff in Hin as (sp & <- & Hsp).
    apply filter_In in Hsp as [Hsp Heq]. apply String.eqb_eq in Heq.
    exists pb, sp. rewrite !list_elem_of_In. auto.
  - intros (pb & sp & Hpb & Hsp & Heq & ->). exists pb.
    rewrite <- list_elem_of_In. split; [exact Hpb|].
    apply in_map, filter_In. rewrite <- list_elem_of_In.
    split; [exact Hsp|]. apply String.eqb_eq, Heq.
Qed.

(** Clearing stops at the first node port: the bindings before it have
    none, and the bindings after it are as they were. *)
Lemma updateServiceClusterIP_first pre b post :
  Forall (fun b => pb_NodePort b = 0) pre -> pb_NodePort b <> 0 ->
  updateServiceClusterIP (pre ++ b :: post) = pre ++ setNodePort 0 b :: post.
Proof.
  intros Hpre Hnz. induction Hpre as [|b0 pre H0 _ IH]; cbn [app updateServiceClusterIP].
  - apply Z.eqb_neq in Hnz. rewrite Hnz. reflexivity.
  - rewrite H0, IH. reflexivity.
Qed.

Lemma updateServiceClusterIP_none pbs :
  Forall (fun b => pb_NodePort b = 0) pbs -> updateServiceClusterIP pbs = pbs.
Proof.
  intros H. induction H as [|b pbs H0 _ IH]; cbn [updateServiceClusterIP]; [reflexivity|].
  rewrite H0, IH. reflexivity.
Qed.
End Ports.

(** C2. Node ports are first-write-wins. A binding that has a node port
    keeps it through [updateServiceNodePort]. With names unique among
    the bindings and among the live ports, as the data model has them, a
    binding without a node port whose name is that of a live port has
    that port's node port afterwards. The list [updateNodePorts] rebuilds
    has, for every binding and live port of one name, a port of that name
    with the live node port, and has no other ports. *)
Theorem updateServiceNodePort_first_write_wins
    (portBindings : list PortBinding) (svcports : list ServicePort) :
  let after := updateServiceNodePort portBindings svcports in
  (forall i b, portBindings !! i = Some b -> pb_NodePort b <> 0 ->
     after !! i = Some b) /\
  (NoDup (map pb_Name portBindings) -> NoDup (map sp_Name svcports) ->
   forall sp i b, sp ∈ svcports -> portBindings !! i = Some b ->
     sp_Name sp = pb_Name b -> pb_NodePort b = 0 ->
     after !! i = Some (mkPortBinding (pb_Name b) (pb_ContainerPort b)
                          (pb_ServicePort b) (sp_NodePort sp) (pb_Protocol b))) /\
  (forall bindings pb sp, pb ∈ bindings -> sp ∈ svcports -> pb_Name pb = sp_Name sp ->
     exists p, p ∈ updateNodePorts bindings svcports /\
       sp_Name p = sp_Name sp /\ sp_NodePort p = sp_NodePort sp) /\
  (forall bindings p, p ∈ updateNodePorts bindings svcports ->
     exists pb sp, pb ∈ bindings /\ sp ∈ svcports /\ pb_Name pb = sp_Name sp /\
       sp_Name p = sp_Name sp /\ sp_NodePort p = sp_NodePort sp).
Proof.
  intros after. subst after. split; [|split; [|split]].
  - intros i b. apply updateServiceNodePort_assigned.
  - intros Hpb Hsp sp i b Hin Hi Hn Hz.
    apply (updateServiceNodePort_adopts _ _ sp i b); assumption.
  - intros bindings pb sp Hpb Hsp Hn. exists (joinPort pb sp). split; [|split].
    + apply elem_of_updateNodePorts. exists pb, sp. auto.
    + rewrite joinPort_Name. exact Hn.
    + apply joinPort_NodePort.
  - intros bindings p Hp. apply elem_of_updateNodePorts in Hp as (pb & sp & Hpb & Hsp & Hn & ->).
    exists pb, sp. rewrite joinPort_Name, joinPort_NodePort. auto.
Qed.

(** The live port p with node port 30080 and the binding p without one:
    the binding adopts 30080 and the rebuilt port p carries 30080. An
    instance of C2 with its premises checked. *)
Lemma updateServiceNodePort_first_write_wins_witness :
  NoDup (map pb_Name [Scenario.bindingP]) /\
  NoDup (map sp_Name [Scenario.liveP]) /\
  updateServiceNodePort [Scenario.bindingP] [Scenario.liveP] !! 0%nat
    = Some (mkPortBinding "p" 3307 3307 30080 "TCP") /\
  exists p, p ∈ updateNodePorts [mkPortBinding "p" 3307 3307 30080 "TCP"]
                  [Scenario.liveP] /\
    sp_Name p = "p" /\ sp_NodePort p = 30080.
Proof.
  assert (Hpb : NoDup (map pb_Name [Scenario.bindingP])) by apply NoDup_singleton.
  assert (Hsp : NoDup (map sp_Name [Scenario.liveP])) by apply NoDup_singleton.
  split; [exact Hpb|]. split; [exact Hsp|].
  destruct (updateServiceNodePort_first_write_wins [Scenario.bindingP] [Scenario.liveP])
    as (_ & Hadopt & Hjoin & _).
  split.
  - apply (Hadopt Hpb Hsp Scenario.liveP 0%nat Scenario.bindingP).
    + apply list_elem_of_singleton. reflexivity.
    + reflexivity.
    + reflexivity.
    + reflexivity.
  - apply (Hjoin [mkPortBinding "p" 3307 3307 30080 "TCP"]
             (mkPortBinding "p" 3307 3307 30080 "TCP") Scenario.liveP).
    + apply list_elem_of_singleton. reflexivity.
    + apply list_elem_of_singleton. reflexivity.
    + reflexivity.
Defined.

(** C1, where the code departs from it. With node ports on two bindings,
    a and b, [updateServiceClusterIP] clears the one of a and leaves
    30002 on b; [updateService] in ClusterIP mode then sends the compute
    node with these bindings to the cluster, and that is its first
    call. *)
Theorem updateServiceClusterIP_leaves_later_node_ports :
  updateServiceClusterIP [Scenario.bindingA; Scenario.bindingB]
    = [setNodePort 0 Scenario.bindingA; Scenario.bindingB] /\
  pb_NodePort Scenario.bindingB = 30002 /\
  head (snd (updateService
               (Scenario.cluster (Scenario.node "ClusterIP" [Scenario.bindingA; Scenario.bindingB])
                  [] (Some (Scenario.live [])) None None None)
               (Scenario.node "ClusterIP" [Scenario.bindingA; Scenario.bindingB])
               (Scenario.live []) []))
    = Some (ClientUpdateComputeNode
              (Scenario.node "ClusterIP" [setNodePort 0 Scenario.bindingA; Scenario.bindingB])).
Proof.
  split; [reflexivity|]. split; reflexivity.
Qed.

(** ** The reconcilers *)

(** Run the monadic steps of the goal down to pairs of result and calls. *)
Ltac run := unfold loggerError; unfold mbind, M_bind, mret, M_ret, call; cbn beta iota.

Section Reconcilers.
Variable r : ComputeNodeReconciler.
Implicit Types (cn : ComputeNode) (tr : Trace).

Lemma createDeployment_run cn tr :
  exists result,
    createDeployment r cn tr = (result, tr ++ [DeploymentCreate (Deployment_Build r cn)]) /\
    IdempotentCreate (Deployment_Create r tr (Deployment_Build r cn)) result.
Proof.
  unfold createDeployment, IdempotentCreate. run.
  destruct (Deployment_Create r tr (Deployment_Build r cn)) as [e|].
  - destruct (apierrors.IsAlreadyExists e) eqn:E; eexists; (split; [reflexivity|]);
      repeat split; intros; congruence.
  - eexists. split; [reflexivity|]. repeat split; intros; congruence.
Qed.

Lemma createService_run cn tr :
  exists result,
    createService r cn tr = (result, tr ++ [ServiceCreate (Service_Build r cn)]) /\
    IdempotentCreate (Service_Create r tr (Service_Build r cn)) result.
Proof.
  unfold createService, IdempotentCreate. run.
  destruct (Service_Create r tr (Service_Build r cn)) as [e|].
  - destruct (apierrors.IsAlreadyExists e) eqn:E; eexists; (split; [reflexivity|]);
      repeat split; intros; congruence.
  - eexists. split; [reflexivity|]. repeat split; intros; congruence.
Qed.

Lemma createConfigMap_run cn tr :
  exists result,
    createConfigMap r cn tr = (result, tr ++ [ConfigMapCreate (ConfigMap_Build r cn)]) /\
    IdempotentCreate (ConfigMap_Create r tr (ConfigMap_Build r cn)) result.
Proof.
  unfold createConfigMap, IdempotentCreate. run.
  destruct (ConfigMap_Create r tr (ConfigMap_Build r cn)) as [e|].
  - destruct (apierrors.IsAlreadyExists e) eqn:E; eexists; (split; [reflexivity|]);
      repeat split; intros; congruence.
  - eexists. split; [reflexivity|]. repeat split; intros; congruence.
Qed.

(** Each reconciler starts with its lookup and makes no other lookup. *)
Lemma reconcileDeployment_calls cn tr :
  exists calls,
    snd (reconcileDeployment r cn tr)
      = tr ++ DeploymentGetByNamespacedName (keyOf cn) :: calls /\
    List.filter isLookup calls = [].
Proof.
  unfold reconcileDeployment, getDeploymentByNamespacedName. run.
  destruct (Deployment_GetByNamespacedName r tr (keyOf cn)) as [[dp|] [e|]]; cbn.
  - exists []. auto.
  - unfold updateDeployment. run. cbn. rewrite <- app_assoc. eexists. split; reflexivity.
  - exists []. auto.
  - destruct (createDeployment_run cn (tr ++ [DeploymentGetByNamespacedName (keyOf cn)]))
      as (res & -> & _).
    cbn. rewrite <- app_assoc. eexists. split; reflexivity.
Qed.

Lemma updateService_calls cn cur tr :
  exists calls,
    snd (updateService r cn cur tr) = tr ++ calls /\ List.filter isLookup calls = [].
Proof.
  unfold updateService, updateServicePorts, clientUpdateComputeNode. run.
  destruct (String.eqb (cn_ServiceType cn) corev1.ServiceTypeClusterIP).
  - destruct (Update_ComputeNode r tr _) as [cn' [e|]]; cbn.
    + eexists. split; reflexivity.
    + rewrite <- app_assoc. eexists. split; reflexivity.
  - destruct (_ || _ || _).
    + destruct (Update_ComputeNode r tr _) as [cn' [e|]]; cbn.
      * eexists. split; reflexivity.
      * rewrite <- app_assoc. eexists. split; reflexivity.
    + cbn. eexists. split; reflexivity.
Qed.

Lemma reconcileService_calls cn tr :
  exists calls,
    snd (reconcileService r cn tr)
      = tr ++ ServiceGetByNamespacedName (keyOf cn) :: calls /\
    List.filter isLookup calls = [].
Proof.
  unfold reconcileService, getServiceByNamespacedName. run.
  destruct (Service_GetByNamespacedName r tr (keyOf cn)) as [[svc|] [e|]]; cbn.
  - exists []. auto.
  - destruct (updateService_calls cn svc (tr ++ [ServiceGetByNamespacedName (keyOf cn)]))
      as (calls & -> & Hf).
    rewrite <- app_assoc. exists calls. auto.
  - exists []. auto.
  - destruct (createService_run cn (tr ++ [ServiceGetByNamespacedName (keyOf cn)]))
      as (res & -> & _).
    cbn. rewrite <- app_assoc. eexists. split; reflexivity.
Qed.

Lemma reconcileConfigMap_calls cn tr :
  exists calls,
    snd (reconcileConfigMap r cn tr)
      = tr ++ ConfigMapGetByNamespacedName (keyOf cn) :: calls /\
    List.filter isLookup calls = [].
Proof.
  unfold reconcileConfigMap, getConfigMapByNamespacedName. run.
  destruct (ConfigMap_GetByNamespacedName r tr (keyOf cn)) as [[cm|] [e|]]; cbn.
  - exists []. auto.
  - unfold updateConfigMap. run. cbn. rewrite <- app_assoc. eexists. split; reflexivity.
  - exists []. auto.
  - destruct (createConfigMap_run cn (tr ++ [ConfigMapGetByNamespacedName (keyOf cn)]))
      as (res & -> & _).
    cbn. rewrite <- app_assoc. eexists. split; reflexivity.
Qed.

Lemma reconcileStatus_calls cn tr :
  exists calls,
    snd (reconcileStatus r cn tr) = tr ++ calls /\ List.filter isLookup calls = [].
Proof.
  unfold reconcileStatus, getRuntimeComputeNode. run.
  destruct (List_Pods r tr _ _) as [items [e|]]; cbn.
  { eexists. split; reflexivity. }
  destruct (Get_Service r _ _) as [svc [e|]]; cbn.
  { rewrite <- app_assoc. eexists. split; reflexivity. }
  destruct (Get_ComputeNode r _ _) as [rt [e|]]; cbn.
  { rewrite <- !app_assoc. eexists. split; reflexivity. }
  destruct (time_Now r _) as [tu tn]. cbn.
  rewrite <- !app_assoc. eexists. split; reflexivity.
Qed.

Lemma collect_run errors err msg tr :
  collect errors err msg tr = (errors ++ option_list err, tr ++ logOf err msg).
Proof.
  unfold collect. destruct err as [e|]; run; cbn.
  - reflexivity.
  - rewrite !app_nil_r. reflexivity.
Qed.
End Reconcilers.

(** X27. [updateService] in NodePort mode: the compute node goes to the
    cluster with the bindings [updateServiceNodePort] leaves, and, when
    that succeeds and leaves [cn'], the service goes with the ports
    [updateNodePorts] joins from the bindings of [cn'] and the live
    ports, if [cn'] is still in NodePort mode. *)
Lemma updateService_NodePort (r : ComputeNodeReconciler) (cn cn' : ComputeNode)
    (cur : Service) (tr : Trace) :
  cn_ServiceType cn = corev1.ServiceTypeNodePort ->
  Update_ComputeNode r tr
    (setPortBindings (updateServiceNodePort (cn_PortBindings cn) (svc_Ports cur)) cn)
    = (cn', None) ->
  cn_ServiceType cn' = corev1.ServiceTypeNodePort ->
  exists exp err,
    updateService r cn cur tr
      = ((cn', err),
         tr ++ [ClientUpdateComputeNode
                  (setPortBindings
                     (updateServiceNodePort (cn_PortBindings cn) (svc_Ports cur)) cn);
                ClientUpdateService exp]) /\
    svc_Ports exp = updateNodePorts (cn_PortBindings cn') (svc_Ports cur) /\
    svc_ObjectMeta exp = svc_ObjectMeta cur /\
    svc_ClusterIP exp = svc_ClusterIP cur /\
    svc_ClusterIPs exp = svc_ClusterIPs cur.
Proof.
  intros Hty Hupd Hty'.
  unfold updateService, updateServicePorts, clientUpdateComputeNode. run.
  rewrite Hty. cbn [String.eqb Ascii.eqb Bool.eqb corev1.ServiceTypeNodePort
                      corev1.ServiceTypeClusterIP corev1.ServiceTypeExternalName
                      corev1.ServiceTypeLoadBalancer orb].
  rewrite Hupd. cbn beta iota.
  exists (expectedService r cn' cur). eexists. split; [|split; [|repeat split]].
  - rewrite <- app_assoc. reflexivity.
  - unfold expectedService. cbn [svc_Ports]. rewrite Hty'. reflexivity.
Qed.

(** Port preservation on the cluster of [Scenario]: the binding p adopts
    the live node port 30080 and the service sent has the port p with
    node port 30080. *)
Lemma updateService_port_preservation :
  snd (updateService
         (Scenario.cluster (Scenario.node "NodePort" [Scenario.bindingP]) []
            (Some (Scenario.live [Scenario.liveP])) None None None)
         (Scenario.node "NodePort" [Scenario.bindingP])
         (Scenario.live [Scenario.liveP]) [])
  = [ClientUpdateComputeNode
       (Scenario.node "NodePort" [setNodePort 30080 Scenario.bindingP]);
     ClientUpdateService
       (mkService Scenario.meta "NodePort" "10.0.0.1" ["10.0.0.1"]
          [mkServicePort "p" "TCP" 3307 3307 30080] [])].
Proof. reflexivity. Qed.

(** C7. When the fetch of the compute node answers not-found, the pass
    ends there with the directive to requeue after [defaultRequeueTime],
    ten seconds, and no error; when it answers any other error, the pass
    logs it and ends with the directive to requeue now and that error.
    In both cases the fetch is the only call to the cluster: no status
    step and no reconciler runs. *)
Theorem Reconcile_fetch_failure (r : ComputeNodeReconciler) (req : NamespacedName)
    (tr : Trace) (cn : ComputeNode) (err : error) :
  Get_ComputeNode r tr req = (cn, Some err) ->
  defaultRequeueTime = 10 * Second /\
  (apierrors.IsNotFound err = true ->
   Reconcile r req tr
     = ((mkResult false defaultRequeueTime, None), tr ++ [ClientGetComputeNode req])) /\
  (apierrors.IsNotFound err = false ->
   Reconcile r req tr
     = ((mkResult true 0, Some err),
        tr ++ [ClientGetComputeNode req;
               LoggerError err "Failed to get the compute node"])).
Proof.
  intros Hget. split; [reflexivity|].
  unfold Reconcile. run. rewrite Hget.
  split; intros ->; cbn; [reflexivity|].
  rewrite <- app_assoc. reflexivity.
Qed.

(** A compute node that is gone, and a fetch that ends in a conflict:
    instances of C7 with the premises checked. *)
Lemma Reconcile_fetch_failure_witness :
  Reconcile (Scenario.cluster zeroComputeNode [] None (Some Scenario.notFound) None None)
      (mkNamespacedName "default" "proxy") []
    = ((mkResult false 10000000000, None),
       [ClientGetComputeNode (mkNamespacedName "default" "proxy")]) /\
  Reconcile (Scenario.cluster zeroComputeNode [] None (Some Scenario.conflict) None None)
      (mkNamespacedName "default" "proxy") []
    = ((mkResult true 0, Some Scenario.conflict),
       [ClientGetComputeNode (mkNamespacedName "default" "proxy");
        LoggerError Scenario.conflict "Failed to get the compute node"]).
Proof.
  split.
  - exact (proj1 (proj2 (Reconcile_fetch_failure
                           (Scenario.cluster zeroComputeNode [] None
                              (Some Scenario.notFound) None None)
                           (mkNamespacedName "default" "proxy") [] zeroComputeNode
                           Scenario.notFound eq_refl)) eq_refl).
  - exact (proj2 (proj2 (Reconcile_fetch_failure
                           (Scenario.cluster zeroComputeNode [] None
                              (Some Scenario.conflict) None None)
                           (mkNamespacedName "default" "proxy") [] zeroComputeNode
                           Scenario.conflict eq_refl)) eq_refl).
Defined.

(** C9. When the lookup finds no artifact and reports no error, each of
    the three reconcilers builds the artifact from the compute node and
    makes one creation call with it; it returns [nil] when the creation
    succeeds and when it fails with already-exists, and returns the
    error of any other failure. *)
Theorem create_is_idempotent (r : ComputeNodeReconciler) (cn : ComputeNode) (tr : Trace) :
  (Deployment_GetByNamespacedName r tr (keyOf cn) = (None, None) ->
   exists result,
     reconcileDeployment r cn tr
       = (result, tr ++ [DeploymentGetByNamespacedName (keyOf cn);
                         DeploymentCreate (Deployment_Build r cn)]) /\
     IdempotentCreate
       (Deployment_Create r (tr ++ [DeploymentGetByNamespacedName (keyOf cn)])
          (Deployment_Build r cn)) result) /\
  (Service_GetByNamespacedName r tr (keyOf cn) = (None, None) ->
   exists result,
     reconcileService r cn tr
       = ((cn, result), tr ++ [ServiceGetByNamespacedName (keyOf cn);
                               ServiceCreate (Service_Build r cn)]) /\
     IdempotentCreate
       (Service_Create r (tr ++ [ServiceGetByNamespacedName (keyOf cn)])
          (Service_Build r cn)) result) /\
  (ConfigMap_GetByNamespacedName r tr (keyOf cn) = (None, None) ->
   exists result,
     reconcileConfigMap r cn tr
       = (result, tr ++ [ConfigMapGetByNamespacedName (keyOf cn);
                         ConfigMapCreate (ConfigMap_Build r cn)]) /\
     IdempotentCreate
       (ConfigMap_Create r (tr ++ [ConfigMapGetByNamespacedName (keyOf cn)])
          (ConfigMap_Build r cn)) result).
Proof.
  split; [|split]; intros Hget.
  - unfold reconcileDeployment, getDeploymentByNamespacedName. run. rewrite Hget. cbn.
    destruct (createDeployment_run r cn (tr ++ [DeploymentGetByNamespacedName (keyOf cn)]))
      as (result & -> & Hid).
    exists result. rewrite <- app_assoc. auto.
  - unfold reconcileService, getServiceByNamespacedName. run. rewrite Hget. cbn.
    destruct (createService_run r cn (tr ++ [ServiceGetByNamespacedName (keyOf cn)]))
      as (result & -> & Hid).
    exists result. rewrite <- app_assoc. auto.
  - unfold reconcileConfigMap, getConfigMapByNamespacedName. run. rewrite Hget. cbn.
    destruct (createConfigMap_run r cn (tr ++ [ConfigMapGetByNamespacedName (keyOf cn)]))
      as (result & -> & Hid).
    exists result. rewrite <- app_assoc. auto.
Qed.

(** A deployment that another creator made first: the reconciler
    returns [nil]. An instance of C9 with its premise checked. *)
Lemma create_is_idempotent_witness :
  Deployment_GetByNamespacedName
    (Scenario.cluster (Scenario.node "ClusterIP" []) [] None None (Some Scenario.exists_) None)
    [] (keyOf (Scenario.node "ClusterIP" [])) = (None, None) /\
  fst (reconcileDeployment
         (Scenario.cluster (Scenario.node "ClusterIP" []) [] None None
            (Some Scenario.exists_) None)
         (Scenario.node "ClusterIP" []) []) = None.
Proof.
  split; [reflexivity|].
  destruct (proj1 (create_is_idempotent
                     (Scenario.cluster (Scenario.node "ClusterIP" []) [] None None
                        (Some Scenario.exists_) None)
                     (Scenario.node "ClusterIP" []) []) eq_refl)
    as (result & Hrun & _ & Hexists & _).
  rewrite Hrun. exact (Hexists Scenario.exists_ eq_refl eq_refl).
Defined.

Lemma firstError_cases (ed esv ec : option error) :
  firstError [ed; esv; ec] =
    match ed, esv, ec with
    | Some e, _, _ => Some e
    | None, Some e, _ => Some e
    | None, None, e => e
    end.
Proof. destruct ed, esv, ec; reflexivity. Qed.

(** One pass after a successful fetch, step by step. *)
Lemma Reconcile_run (r : ComputeNodeReconciler) (req : NamespacedName) (tr : Trace)
    (cn : ComputeNode) (es : option error) (tr1 : Trace) (ed : option error)
    (tr2 : Trace) (cn' : ComputeNode) (esv : option error) (tr3 : Trace)
    (ec : option error) (tr4 : Trace) :
  Get_ComputeNode r tr req = (cn, None) ->
  reconcileStatus r cn (tr ++ [ClientGetComputeNode req]) = (es, tr1) ->
  reconcileDeployment r cn (tr1 ++ logOf es "Failed to reconcile status") = (ed, tr2) ->
  reconcileService r cn (tr2 ++ logOf ed "Failed to reconcile deployement")
    = ((cn', esv), tr3) ->
  reconcileConfigMap r cn' (tr3 ++ logOf esv "Failed to reconcile service") = (ec, tr4) ->
  Reconcile r req tr
    = (directive (firstError [ed; esv; ec]),
       tr4 ++ logOf ec "Failed to reconcile configmap").
Proof.
  intros Hget Est Edp Esv Ecm.
  unfold Reconcile. run. rewrite Hget. cbn beta iota. rewrite Est.
  destruct es as [e|]; cbn [logOf] in Edp; rewrite ?app_nil_r in Edp;
    cbn beta iota zeta; rewrite Edp, collect_run; cbn beta iota;
    rewrite Esv; cbn beta iota; rewrite collect_run, Ecm, collect_run;
    rewrite firstError_cases; destruct ed, esv, ec; reflexivity.
Qed.

(** C8. After a successful fetch the pass runs the status step, then the
    deployment, the service and the config map reconciler, each on the
    calls of the ones before and whatever those returned. An error of
    the status step is logged and does not reach the directive. The
    three lookups are made in this order in every pass. The directive is
    to requeue now with the first error among deployment, service and
    config map, if there is one, and otherwise to requeue after ten
    seconds without error. *)
Theorem Reconcile_collects_errors (r : ComputeNodeReconciler) (req : NamespacedName)
    (tr : Trace) (cn : ComputeNode) :
  Get_ComputeNode r tr req = (cn, None) ->
  let '(es, tr1) := reconcileStatus r cn (tr ++ [ClientGetComputeNode req]) in
  let '(ed, tr2) :=
    reconcileDeployment r cn (tr1 ++ logOf es "Failed to reconcile status") in
  let '((cn', esv), tr3) :=
    reconcileService r cn (tr2 ++ logOf ed "Failed to reconcile deployement") in
  let '(ec, tr4) :=
    reconcileConfigMap r cn' (tr3 ++ logOf esv "Failed to reconcile service") in
  Reconcile r req tr
    = (directive (firstError [ed; esv; ec]),
       tr4 ++ logOf ec "Failed to reconcile configmap") /\
  (exists calls,
     tr4 = tr ++ calls /\
     List.filter isLookup calls
       = [DeploymentGetByNamespacedName (keyOf cn);
          ServiceGetByNamespacedName (keyOf cn);
          ConfigMapGetByNamespacedName (keyOf cn')]) /\
  (ed = None -> esv = None -> ec = None ->
   fst (Reconcile r req tr) = (mkResult false (10 * Second), None)) /\
  (forall e, ed = Some e -> fst (Reconcile r req tr) = (mkResult true 0, Some e)) /\
  (forall e, ed = None -> esv = Some e ->
     fst (Reconcile r req tr) = (mkResult true 0, Some e)) /\
  (forall e, ed = None -> esv = None -> ec = Some e ->
     fst (Reconcile r req tr) = (mkResult true 0, Some e)).
Proof.
  intros Hget.
  destruct (reconcileStatus r cn (tr ++ [ClientGetComputeNode req])) as [es tr1] eqn:Est.
  destruct (reconcileDeployment r cn (tr1 ++ logOf es "Failed to reconcile status"))
    as [ed tr2] eqn:Edp.
  destruct (reconcileService r cn (tr2 ++ logOf ed "Failed to reconcile deployement"))
    as [[cn' esv] tr3] eqn:Esv.
  destruct (reconcileConfigMap r cn' (tr3 ++ logOf esv "Failed to reconcile service"))
    as [ec tr4] eqn:Ecm.
  pose proof (Reconcile_run r req tr cn es tr1 ed tr2 cn' esv tr3 ec tr4
                Hget Est Edp Esv Ecm) as Hrun.
  split; [exact Hrun|]. split.
  - destruct (reconcileStatus_calls r cn (tr ++ [ClientGetComputeNode req]))
      as (c1 & H1 & F1).
    rewrite Est in H1. cbn [snd] in H1.
    destruct (reconcileDeployment_calls r cn (tr1 ++ logOf es "Failed to reconcile status"))
      as (c2 & H2 & F2).
    rewrite Edp in H2. cbn [snd] in H2.
    destruct (reconcileService_calls r cn (tr2 ++ logOf ed "Failed to reconcile deployement"))
      as (c3 & H3 & F3).
    rewrite Esv in H3. cbn [snd] in H3.
    destruct (reconcileConfigMap_calls r cn' (tr3 ++ logOf esv "Failed to reconcile service"))
      as (c4 & H4 & F4).
    rewrite Ecm in H4. cbn [snd] in H4.
    subst tr1 tr2 tr3 tr4.
    eexists. split.
    + rewrite <- !app_assoc. reflexivity.
    + rewrite !List.filter_app. cbn [List.filter isLookup app].
      rewrite F1, F2, F3, F4.
      destruct es, ed, esv; reflexivity.
  - rewrite Hrun, firstError_cases. cbn [fst].
    repeat split; intros; subst; reflexivity.
Qed.

(** A pass in which creating the deployment ends in a conflict and the
    config map was created by another: the directive is to requeue now
    with the conflict. An instance of C8 with its premise checked. *)
Lemma Reconcile_collects_errors_witness :
  Get_ComputeNode
    (Scenario.cluster (Scenario.node "NodePort" [Scenario.bindingP]) [Scenario.running]
       (Some (Scenario.live [Scenario.liveP])) None
       (Some Scenario.conflict) (Some Scenario.exists_))
    [] (mkNamespacedName "default" "proxy")
    = (Scenario.node "NodePort" [Scenario.bindingP], None) /\
  fst (Reconcile
         (Scenario.cluster (Scenario.node "NodePort" [Scenario.bindingP]) [Scenario.running]
            (Some (Scenario.live [Scenario.liveP])) None
            (Some Scenario.conflict) (Some Scenario.exists_))
         (mkNamespacedName "default" "proxy") [])
    = (mkResult true 0, Some Scenario.conflict).
Proof.
  split; [reflexivity|].
  exact (proj1 (proj2 (proj2 (proj2
           (Reconcile_collects_errors
              (Scenario.cluster (Scenario.node "NodePort" [Scenario.bindingP])
                 [Scenario.running] (Some (Scenario.live [Scenario.liveP])) None
                 (Some Scenario.conflict) (Some Scenario.exists_))
              (mkNamespacedName "default" "proxy") []
              (Scenario.node "NodePort" [Scenario.bindingP]) eq_refl))))
           Scenario.conflict eq_refl).
Defined.

(** Refute that some pod of a given list classifies to a given type. *)
Ltac not_any :=
  let H := fresh in
  intros H;
  repeat (apply Exists_cons in H as [H|H]; [vm_compute in H; discriminate H|]);
  apply Exists_nil in H; exact H.

(** C10. When the pods are not all Unknown and none classifies as Ready,
    Started, Initialized, Deployed, Pending or Failed, the rollup is the
    zero condition: empty type and status, zero times, empty reason and
    message. The merge puts it into the history, appended after the
    rewritten entries when no entry has the empty type, and the status
    step sends the compute node with this history to the cluster. *)
Theorem getConditionFromPods_falls_through (tu tn : Time) (items : list Pod) :
  len items < 2 ^ 63 ->
  items <> [] ->
  ~ allAre v1alpha1.ComputeNodeConditionUnknown items ->
  ~ anyIs v1alpha1.ComputeNodeConditionReady items ->
  ~ anyIs v1alpha1.ComputeNodeConditionStarted items ->
  ~ anyIs v1alpha1.ComputeNodeConditionInitialized items ->
  ~ anyIs v1alpha1.ComputeNodeConditionDeployed items ->
  ~ anyIs v1alpha1.ComputeNodeConditionPending items ->
  ~ anyIs v1alpha1.ComputeNodeConditionFailed items ->
  getConditionFromPods tu tn items = mkCondition "" "" 0 0 "" "" /\
  (forall conditions,
     let merged :=
       updateComputeNodeStatusCondition conditions (getConditionFromPods tu tn items) in
     zeroCondition ∈ merged /\
     ("" ∉ types conditions ->
      merged = map (mergeEntry zeroCondition) conditions ++ [zeroCondition])) /\
  (forall r cn tr svc rt,
     List_Pods r tr (om_Namespace (cn_ObjectMeta cn)) (cn_MatchLabels cn)
       = (items, None) ->
     Get_Service r
       (tr ++ [ClientListPods (om_Namespace (cn_ObjectMeta cn)) (cn_MatchLabels cn)])
       (keyOf cn) = (svc, None) ->
     Get_ComputeNode r
       ((tr ++ [ClientListPods (om_Namespace (cn_ObjectMeta cn)) (cn_MatchLabels cn)])
          ++ [ClientGetService (keyOf cn)])
       (keyOf cn) = (rt, None) ->
     time_Now r
       (((tr ++ [ClientListPods (om_Namespace (cn_ObjectMeta cn)) (cn_MatchLabels cn)])
           ++ [ClientGetService (keyOf cn)]) ++ [ClientGetComputeNode (keyOf cn)])
       = (tu, tn) ->
     exists published,
       ClientStatusUpdate published ∈ snd (reconcileStatus r cn tr) /\
       zeroCondition ∈ cn_Conditions published).
Proof.
  intros Hlt Hne Hunk Hr Hs Hi Hd Hp Hf.
  assert (Hzero : getConditionFromPods tu tn items = zeroCondition).
  { rewrite getConditionFromPods_rollupSpec by exact Hlt.
    unfold v1alpha1.ComputeNodeConditionUnknown, v1alpha1.ComputeNodeConditionReady,
      v1alpha1.ComputeNodeConditionStarted, v1alpha1.ComputeNodeConditionInitialized,
      v1alpha1.ComputeNodeConditionDeployed, v1alpha1.ComputeNodeConditionPending,
      v1alpha1.ComputeNodeConditionFailed in *.
    rewrite rollupSpec_chain by exact Hunk. decide_chain. }
  split; [exact Hzero|]. split.
  - intros conditions merged. subst merged. rewrite Hzero. split.
    + apply cond_in_update.
    + intros Hnin. rewrite updateComputeNodeStatusCondition_map.
      destruct (existsb (sameType zeroCondition) conditions) eqn:E; [|reflexivity].
      apply existsb_sameType in E. contradiction.
  - intros r cn tr svc rt Hlist Hsvc Hrt Hnow.
    unfold reconcileStatus, getRuntimeComputeNode. run.
    rewrite Hlist. cbn beta iota. rewrite Hsvc. cbn beta iota.
    rewrite Hrt. cbn beta iota. rewrite Hnow. cbn beta iota zeta.
    eexists. split.
    + cbn [snd]. apply elem_of_app. right. apply list_elem_of_singleton. reflexivity.
    + unfold reconcileComputeNodeStatus. cbn [cn_Conditions].
      rewrite Hzero. apply cond_in_update.
Qed.

(** One running pod without true sub-conditions beside one unknown pod:
    the rollup is the zero condition and it joins the history. An
    instance of C10 with its premises checked. *)
Lemma getConditionFromPods_falls_through_witness :
  len [Scenario.unknown; Scenario.running] < 2 ^ 63 /\
  [Scenario.unknown; Scenario.running] <> [] /\
  ~ allAre v1alpha1.ComputeNodeConditionUnknown [Scenario.unknown; Scenario.running] /\
  ~ anyIs v1alpha1.ComputeNodeConditionReady [Scenario.unknown; Scenario.running] /\
  ~ anyIs v1alpha1.ComputeNodeConditionStarted [Scenario.unknown; Scenario.running] /\
  ~ anyIs v1alpha1.ComputeNodeConditionInitialized [Scenario.unknown; Scenario.running] /\
  ~ anyIs v1alpha1.ComputeNodeConditionDeployed [Scenario.unknown; Scenario.running] /\
  ~ anyIs v1alpha1.ComputeNodeConditionPending [Scenario.unknown; Scenario.running] /\
  ~ anyIs v1alpha1.ComputeNodeConditionFailed [Scenario.unknown; Scenario.running] /\
  getConditionFromPods 5 6 [Scenario.unknown; Scenario.running] = zeroCondition /\
  updateComputeNodeStatusCondition
    [newConditionUnknown 1 2 "PodUnknown" "All pods are unknown"]
    (getConditionFromPods 5 6 [Scenario.unknown; Scenario.running])
  = [mergeEntry zeroCondition (newConditionUnknown 1 2 "PodUnknown" "All pods are unknown");
     zeroCondition] /\
  exists published,
    ClientStatusUpdate published
      ∈ snd (reconcileStatus
               (Scenario.cluster (Scenario.node "ClusterIP" [])
                  [Scenario.unknown; Scenario.running] None None None None)
               (Scenario.node "ClusterIP" []) []) /\
    zeroCondition ∈ cn_Conditions published.
Proof.
  assert (Hlt : len [Scenario.unknown; Scenario.running] < 2 ^ 63)
    by (vm_compute; reflexivity).
  assert (Hne : [Scenario.unknown; Scenario.running] <> []) by discriminate.
  assert (Hunk : ~ allAre v1alpha1.ComputeNodeConditionUnknown
                   [Scenario.unknown; Scenario.running]).
  { intros H. apply Forall_cons in H as [_ H]. apply Forall_cons in H as [H _].
    vm_compute in H. discriminate H. }
  assert (Hr : ~ anyIs v1alpha1.ComputeNodeConditionReady
                 [Scenario.unknown; Scenario.running]) by not_any.
  assert (Hs : ~ anyIs v1alpha1.ComputeNodeConditionStarted
                 [Scenario.unknown; Scenario.running]) by not_any.
  assert (Hi : ~ anyIs v1alpha1.ComputeNodeConditionInitialized
                 [Scenario.unknown; Scenario.running]) by not_any.
  assert (Hd : ~ anyIs v1alpha1.ComputeNodeConditionDeployed
                 [Scenario.unknown; Scenario.running]) by not_any.
  assert (Hp : ~ anyIs v1alpha1.ComputeNodeConditionPending
                 [Scenario.unknown; Scenario.running]) by not_any.
  assert (Hf : ~ anyIs v1alpha1.ComputeNodeConditionFailed
                 [Scenario.unknown; Scenario.running]) by not_any.
  repeat (split; [assumption|]).
  destruct (getConditionFromPods_falls_through 5 6 [Scenario.unknown; Scenario.running]
              Hlt Hne Hunk Hr Hs Hi Hd Hp Hf) as (Hzero & Hmerge & Hpublish).
  split; [exact Hzero|]. split.
  - apply (proj2 (Hmerge [newConditionUnknown 1 2 "PodUnknown" "All pods are unknown"])).
    intros H. apply list_elem_of_singleton in H. discriminate H.
  - exact (Hpublish
             (Scenario.cluster (Scenario.node "ClusterIP" [])
                [Scenario.unknown; Scenario.running] None None None None)
             (Scenario.node "ClusterIP" []) [] (Scenario.live [])
             (Scenario.node "ClusterIP" []) eq_refl eq_refl eq_refl eq_refl).
Defined.

(** * Further properties of the controller *)

(** ** Clearing node ports, pass after pass *)

Lemma assigned_zero (pbs : list PortBinding) :
  assigned pbs = 0%nat <-> Forall (fun b => pb_NodePort b = 0) pbs.
Proof.
  unfold assigned. induction pbs as [|b pbs IH]; cbn [List.filter].
  - split; [constructor|reflexivity].
  - destruct (Z.eqb_spec (pb_NodePort b) 0) as [Hz|Hnz]; cbn [negb length].
    + rewrite IH. split.
      * intros H. constructor; assumption.
      * intros H. apply Forall_cons in H as [_ H]. exact H.
    + split; [discriminate|]. intros H. apply Forall_cons in H as [H _]. contradiction.
Qed.

Lemma assigned_updateServiceClusterIP (pbs : list PortBinding) :
  assigned (updateServiceClusterIP pbs) = Nat.pred (assigned pbs).
Proof.
  unfold assigned. induction pbs as [|b pbs IH]; [reflexivity|].
  cbn [updateServiceClusterIP List.filter].
  destruct (Z.eqb_spec (pb_NodePort b) 0) as [Hz|Hnz]; cbn [negb].
  - cbn [List.filter]. rewrite Hz. cbn. exact IH.
  - cbn [List.filter setNodePort pb_NodePort]. cbn. reflexivity.
Qed.



Lemma updateServiceClusterIP_fixed (pbs : list PortBinding) :
  updateServiceClusterIP pbs = pbs -> Forall (fun b => pb_NodePort b = 0) pbs.
Proof.
  intros Heq. apply assigned_zero.
  pose proof (assigned_updateServiceClusterIP pbs) as H. rewrite Heq in H.
  destruct (assigned pbs); [reflexivity|]. cbn in H. lia.
Qed.

Lemma updateServiceClusterIP_shape (pbs : list PortBinding) :
  map (setNodePort 0) (updateServiceClusterIP pbs) = map (setNodePort 0) pbs.
Proof.
  induction pbs as [|b pbs IH]; [reflexivity|].
  cbn [updateServiceClusterIP]. destruct (negb (pb_NodePort b =? 0)); cbn [map].
  - reflexivity.
  - rewrite IH. reflexivity.
Qed.

(** X2. [updateServiceClusterIP] changes node ports only: the bindings
    keep their number, order, names, ports and protocols. It changes
    nothing at all exactly when no binding has a node port. *)
Theorem updateServiceClusterIP_touches_node_ports_only (portBindings : list PortBinding) :
  map (setNodePort 0) (updateServiceClusterIP portBindings)
    = map (setNodePort 0) portBindings /\
  (updateServiceClusterIP portBindings = portBindings
   <-> Forall (fun b => pb_NodePort b = 0) portBindings).
Proof.
  split; [apply updateServiceClusterIP_shape|].
  split; [apply updateServiceClusterIP_fixed|apply updateServiceClusterIP_none].
Qed.

(** ** Adopting node ports *)

Lemma adoptNodePort_shape (sp : ServicePort) (pbs : list PortBinding) :
  map (setNodePort 0) (adoptNodePort sp pbs) = map (setNodePort 0) pbs.
Proof.
  induction pbs as [|b pbs IH]; [reflexivity|]. cbn [adoptNodePort].
  destruct (String.eqb (sp_Name sp) (pb_Name b)).
  - destruct (pb_NodePort b =? 0); reflexivity.
  - cbn [map]. rewrite IH. reflexivity.
Qed.

Lemma updateServiceNodePort_shape (sps : list ServicePort) :
  forall pbs,
    map (setNodePort 0) (updateServiceNodePort pbs sps) = map (setNodePort 0) pbs.
Proof.
  unfold updateServiceNodePort.
  induction sps as [|sp sps IH]; intros pbs; cbn [foldl]; [reflexivity|].
  rewrite IH. apply adoptNodePort_shape.
Qed.

(** X3. [updateServiceNodePort] changes node ports only: the bindings
    keep their number, order, names, ports and protocols, whatever the
    live ports are. *)
Theorem updateServiceNodePort_touches_node_ports_only
    (portBindings : list PortBinding) (svcports : list ServicePort) :
  map (setNodePort 0) (updateServiceNodePort portBindings svcports)
    = map (setNodePort 0) portBindings.
Proof. apply updateServiceNodePort_shape. Qed.

Lemma settled_fixed (sp : ServicePort) (pbs : list PortBinding) :
  settled sp pbs -> adoptNodePort sp pbs = pbs.
Proof.
  induction pbs as [|b pbs IH]; [reflexivity|]. cbn [settled adoptNodePort].
  destruct (String.eqb (sp_Name sp) (pb_Name b)).
  - intros [Hnz|Hz].
    + apply Z.eqb_neq in Hnz. rewrite Hnz. reflexivity.
    + destruct (Z.eqb_spec (pb_NodePort b) 0) as [Hb|_]; [|reflexivity].
      rewrite Hz. destruct b. cbn in *. subst. reflexivity.
  - intros H. rewrite IH by exact H. reflexivity.
Qed.

Lemma settled_adopt_self (sp : ServicePort) (pbs : list PortBinding) :
  settled sp (adoptNodePort sp pbs).
Proof.
  induction pbs as [|b pbs IH]; [exact I|]. cbn [adoptNodePort].
  destruct (String.eqb (sp_Name sp) (pb_Name b)) eqn:E.
  - destruct (Z.eqb_spec (pb_NodePort b) 0) as [Hb|Hb]; cbn [settled setNodePort pb_Name];
      rewrite E; cbn [pb_NodePort].
    + destruct (Z.eq_dec (sp_NodePort sp) 0); [right|left]; assumption.
    + left. exact Hb.
  - cbn [settled]. rewrite E. exact IH.
Qed.

Lemma settled_adopt_other (sp sp' : ServicePort) (pbs : list PortBinding) :
  settled sp pbs -> settled sp (adoptNodePort sp' pbs).
Proof.
  induction pbs as [|b pbs IH]; [intros; exact I|]. cbn [settled adoptNodePort].
  destruct (String.eqb (sp_Name sp') (pb_Name b)) eqn:E'.
  - destruct (Z.eqb_spec (pb_NodePort b) 0) as [Hb|Hb]; cbn [settled setNodePort pb_Name];
      [|exact (fun H => H)].
    destruct (String.eqb (sp_Name sp) (pb_Name b)); [|exact (fun H => H)].
    cbn [pb_NodePort]. intros [Hnz|Hz]; [contradiction|right; exact Hz].
  - cbn [settled]. destruct (String.eqb (sp_Name sp) (pb_Name b)); [exact (fun H => H)|].
    exact IH.
Qed.

Lemma settled_updateServiceNodePort (sp : ServicePort) (sps : list ServicePort) :
  forall pbs, settled sp pbs -> settled sp (updateServiceNodePort pbs sps).
Proof.
  unfold updateServiceNodePort.
  induction sps as [|sp' sps IH]; intros pbs H; cbn [foldl]; [exact H|].
  apply IH, settled_adopt_other, H.
Qed.

Lemma updateServiceNodePort_settles (sps : list ServicePort) :
  forall pbs, Forall (fun sp => settled sp (updateServiceNodePort pbs sps)) sps.
Proof.
  induction sps as [|sp sps IH]; intros pbs; [constructor|].
  change (updateServiceNodePort pbs (sp :: sps))
    with (updateServiceNodePort (adoptNodePort sp pbs) sps).
  constructor; [|apply IH].
  apply settled_updateServiceNodePort, settled_adopt_self.
Qed.

Lemma updateServiceNodePort_settled_fixed (sps : list ServicePort) (pbs : list PortBinding) :
  Forall (fun sp => settled sp pbs) sps -> updateServiceNodePort pbs sps = pbs.
Proof.
  unfold updateServiceNodePort.
  induction 1 as [|sp sps Hsp _ IH]; cbn [foldl]; [reflexivity|].
  rewrite (settled_fixed _ _ Hsp). exact IH.
Qed.

(** X4. [updateServiceNodePort] is idempotent: a second pass against the
    same live ports changes no binding, with or without repeated names. *)
Theorem updateServiceNodePort_idempotent
    (portBindings : list PortBinding) (svcports : list ServicePort) :
  updateServiceNodePort (updateServiceNodePort portBindings svcports) svcports
    = updateServiceNodePort portBindings svcports.
Proof.
  apply updateServiceNodePort_settled_fixed, updateServiceNodePort_settles.
Qed.

(** X5. A binding whose name no live port has is left as it is by
    [updateServiceNodePort], node port 0 included. *)
Theorem updateServiceNodePort_unmatched
    (portBindings : list PortBinding) (svcports : list ServicePort)
    (i : nat) (b : PortBinding) :
  portBindings !! i = Some b ->
  pb_Name b ∉ map sp_Name svcports ->
  updateServiceNodePort portBindings svcports !! i = Some b.
Proof.
  intros Hi Hnin. apply updateServiceNodePort_other; [exact Hi|].
  intros sp Hsp Heq. apply Hnin. rewrite <- Heq.
  change (map sp_Name svcports) with (sp_Name <$> svcports).
  apply list_elem_of_fmap. exists sp. auto.
Qed.

(** The binding b, which no live port is named after, next to the live
    port p: an instance of X5 with its premises checked. *)
Lemma updateServiceNodePort_unmatched_witness :
  (([Scenario.bindingP; Scenario.bindingB] : list PortBinding) !! 1%nat)
    = Some Scenario.bindingB /\
  (pb_Name Scenario.bindingB ∉ map sp_Name [Scenario.liveP]) /\
  updateServiceNodePort [Scenario.bindingP; Scenario.bindingB] [Scenario.liveP] !! 1%nat
    = Some Scenario.bindingB.
Proof.
  assert (Hnin : pb_Name Scenario.bindingB ∉ map sp_Name [Scenario.liveP]).
  { intros H. apply list_elem_of_singleton in H. discriminate H. }
  split; [reflexivity|]. split; [exact Hnin|].
  exact (updateServiceNodePort_unmatched [Scenario.bindingP; Scenario.bindingB]
           [Scenario.liveP] 1%nat Scenario.bindingB eq_refl Hnin).
Defined.

(** ** Rebuilding the ports *)

Lemma joinPort_eq (pb : PortBinding) (sp : ServicePort) :
  joinPort pb sp
    = mkServicePort (pb_Name pb) (pb_Protocol pb) (pb_ServicePort pb)
        (pb_ContainerPort pb) (sp_NodePort sp).
Proof.
  unfold joinPort. destruct (Z.eqb_spec (sp_NodePort sp) 0) as [->|_]; reflexivity.
Qed.

Lemma joinedFor_absent (pb : PortBinding) (sps : list ServicePort) :
  pb_Name pb ∉ map sp_Name sps -> joinedFor sps pb = [].
Proof.
  unfold joinedFor. induction sps as [|sp sps IH]; intros Hnin; [reflexivity|].
  cbn [List.filter]. cbn [map] in Hnin. apply not_elem_of_cons in Hnin as [Hne Hnin].
  destruct (String.eqb_spec (pb_Name pb) (sp_Name sp)) as [Heq|_]; [contradiction|].
  apply IH, Hnin.
Qed.

Lemma joinedFor_names (pb : PortBinding) (sps : list ServicePort) :
  NoDup (map sp_Name sps) ->
  map sp_Name (joinedFor sps pb)
    = if existsb (String.eqb (pb_Name pb)) (map sp_Name sps) then [pb_Name pb] else [].
Proof.
  induction sps as [|sp sps IH]; intros Hnd; [reflexivity|].
  cbn [map] in Hnd. apply NoDup_cons in Hnd as [Hnin Hnd].
  unfold joinedFor. cbn [List.filter map existsb].
  destruct (String.eqb_spec (pb_Name pb) (sp_Name sp)) as [Heq|Hne]; cbn [orb].
  - assert (Ha : joinedFor sps pb = []) by (apply joinedFor_absent; rewrite Heq; exact Hnin).
    unfold joinedFor in Ha. cbn [map]. rewrite Ha. cbn [map].
    rewrite joinPort_Name. reflexivity.
  - apply IH, Hnd.
Qed.

(** X6. With live ports of distinct names, the names of the ports that
    [updateNodePorts] rebuilds are the names of the bindings that have a
    live port, in the order of the bindings: a binding without a live
    port of its name gets no port. *)
Theorem updateNodePorts_names (portbindings : list PortBinding)
    (svcports : list ServicePort) :
  NoDup (map sp_Name svcports) ->
  map sp_Name (updateNodePorts portbindings svcports)
    = List.filter (fun n => existsb (String.eqb n) (map sp_Name svcports))
        (map pb_Name portbindings).
Proof.
  intros Hnd. rewrite updateNodePorts_join.
  induction portbindings as [|pb pbs IH]; [reflexivity|].
  cbn [flat_map map List.filter]. rewrite map_app, IH, joinedFor_names by exact Hnd.
  destruct (existsb (String.eqb (pb_Name pb)) (map sp_Name svcports)); reflexivity.
Qed.

(** The bindings p and b against the live port p alone: only p is
    rebuilt. An instance of X6 with its premise checked. *)
Lemma updateNodePorts_names_witness :
  NoDup (map sp_Name [Scenario.liveP]) /\
  map sp_Name (updateNodePorts [Scenario.bindingP; Scenario.bindingB] [Scenario.liveP])
    = ["p"].
Proof.
  assert (Hnd : NoDup (map sp_Name [Scenario.liveP])) by apply NoDup_singleton.
  split; [exact Hnd|].
  exact (updateNodePorts_names [Scenario.bindingP; Scenario.bindingB]
           [Scenario.liveP] Hnd).
Defined.

(** X7. A port is in the list [updateNodePorts] rebuilds exactly when it
    has the name, protocol, service port and container port of a
    binding and the node port of a live port of the same name; the port,
    target port and protocol of the live port are not carried over. *)
Theorem updateNodePorts_ports (portbindings : list PortBinding)
    (svcports : list ServicePort) (p : ServicePort) :
  p ∈ updateNodePorts portbindings svcports <->
  exists pb sp, pb ∈ portbindings /\ sp ∈ svcports /\ pb_Name pb = sp_Name sp /\
    p = mkServicePort (pb_Name pb) (pb_Protocol pb) (pb_ServicePort pb)
          (pb_ContainerPort pb) (sp_NodePort sp).
Proof.
  rewrite elem_of_updateNodePorts. split.
  - intros (pb & sp & Hpb & Hsp & Hn & ->). exists pb, sp. rewrite joinPort_eq. auto.
  - intros (pb & sp & Hpb & Hsp & Hn & ->). exists pb, sp. rewrite joinPort_eq. auto.
Qed.

(** ** Updating the service *)

Lemma persistedBindings_shape (cn : ComputeNode) (cur : Service) :
  map (setNodePort 0) (persistedBindings cn cur)
    = map (setNodePort 0) (cn_PortBindings cn).
Proof.
  unfold persistedBindings. destruct (String.eqb _ _).
  - apply updateServiceClusterIP_shape.
  - apply updateServiceNodePort_shape.
Qed.

Lemma knownServiceTypes_test (t : string) :
  t ∈ knownServiceTypes ->
  t <> corev1.ServiceTypeClusterIP ->
  String.eqb t corev1.ServiceTypeExternalName
  || String.eqb t corev1.ServiceTypeLoadBalancer
  || String.eqb t corev1.ServiceTypeNodePort = true.
Proof.
  intros Hin Hne. unfold knownServiceTypes in Hin.
  repeat (apply elem_of_cons in Hin as [Hin|Hin]);
    try (rewrite Hin; reflexivity); try contradiction.
  apply elem_of_nil in Hin. contradiction.
Qed.

Lemma unknownServiceType_test (t : string) :
  t ∉ knownServiceTypes ->
  String.eqb t corev1.ServiceTypeClusterIP = false /\
  String.eqb t corev1.ServiceTypeExternalName
  || String.eqb t corev1.ServiceTypeLoadBalancer
  || String.eqb t corev1.ServiceTypeNodePort = false.
Proof.
  intros Hnin. unfold knownServiceTypes in Hnin.
  repeat (apply not_elem_of_cons in Hnin as [? Hnin]).
  split.
  - apply String.eqb_neq. assumption.
  - repeat (apply orb_false_iff; split); apply String.eqb_neq; assumption.
Qed.

(** The [switch] of [updateService] in one of the four modes. *)
Lemma updateServicePorts_known (r : ComputeNodeReconciler) (cn : ComputeNode)
    (cur : Service) (tr : Trace) :
  cn_ServiceType cn ∈ knownServiceTypes ->
  updateServicePorts r cn cur tr
    = (Update_ComputeNode r tr (setPortBindings (persistedBindings cn cur) cn),
       tr ++ [ClientUpdateComputeNode (setPortBindings (persistedBindings cn cur) cn)]).
Proof.
  intros Hin. unfold updateServicePorts, clientUpdateComputeNode, call, persistedBindings.
  destruct (String.eqb_spec (cn_ServiceType cn) corev1.ServiceTypeClusterIP) as [_|Hne];
    [reflexivity|].
  rewrite (knownServiceTypes_test _ Hin Hne). reflexivity.
Qed.

Lemma updateServicePorts_unknown (r : ComputeNodeReconciler) (cn : ComputeNode)
    (cur : Service) (tr : Trace) :
  cn_ServiceType cn ∉ knownServiceTypes ->
  updateServicePorts r cn cur tr = ((cn, None), tr).
Proof.
  intros Hnin. unfold updateServicePorts.
  destruct (unknownServiceType_test _ Hnin) as [-> ->]. reflexivity.
Qed.

(** X8. In each of the four exposure modes, when the cluster refuses the
    compute node with its rewritten bindings, [updateService] returns
    that error after this one call: the service is not updated. *)
Theorem updateService_persist_failure (r : ComputeNodeReconciler)
    (cn cn' : ComputeNode) (cur : Service) (tr : Trace) (e : error) :
  cn_ServiceType cn ∈ knownServiceTypes ->
  Update_ComputeNode r tr (setPortBindings (persistedBindings cn cur) cn)
    = (cn', Some e) ->
  updateService r cn cur tr
    = ((cn', Some e),
       tr ++ [ClientUpdateComputeNode (setPortBindings (persistedBindings cn cur) cn)]).
Proof.
  intros Hin Hupd. unfold updateService. run.
  rewrite updateServicePorts_known by exact Hin. rewrite Hupd. reflexivity.
Qed.

(** X9. Whatever the mode and the answers of the cluster, the calls of
    [updateService] are updates of two kinds only: of the compute node,
    which differs from the one handed in by node ports at most, and of
    the service, which has the metadata, resource version included, and
    the cluster addresses of the live service. *)
Theorem updateService_calls_preserve (r : ComputeNodeReconciler) (cn : ComputeNode)
    (cur : Service) (tr : Trace) :
  exists calls,
    snd (updateService r cn cur tr) = tr ++ calls /\
    Forall (updateServiceCall cn cur) calls.
Proof.
  assert (Hcn : forall pbs,
            map (setNodePort 0) pbs = map (setNodePort 0) (cn_PortBindings cn) ->
            updateServiceCall cn cur (ClientUpdateComputeNode (setPortBindings pbs cn))).
  { intros pbs Hshape. cbn. rewrite Hshape. reflexivity. }
  assert (Hsvc : forall cn0,
            updateServiceCall cn cur (ClientUpdateService (expectedService r cn0 cur))).
  { intros cn0. cbn. auto. }
  unfold updateService. run.
  destruct (decide (cn_ServiceType cn ∈ knownServiceTypes)) as [Hin|Hnin].
  - rewrite updateServicePorts_known by exact Hin.
    destruct (Update_ComputeNode r tr _) as [cn' [e|]]; cbn.
    + eexists. split; [reflexivity|].
      constructor; [|constructor]. apply Hcn, persistedBindings_shape.
    + rewrite <- app_assoc. eexists. split; [reflexivity|].
      constructor; [|constructor; [|constructor]].
      * apply Hcn, persistedBindings_shape.
      * apply Hsvc.
  - rewrite updateServicePorts_unknown by exact Hnin. cbn.
    eexists. split; [reflexivity|]. constructor; [|constructor]. apply Hsvc.
Qed.

(** X10. For a service type outside the four, the empty one of a field
    left unset among them, [updateService] skips the port bookkeeping:
    it sends nothing for the compute node and makes one call, the
    update of the service with the ports as the builder made them. *)
Theorem updateService_unknown_type (r : ComputeNodeReconciler) (cn : ComputeNode)
    (cur : Service) (tr : Trace) :
  cn_ServiceType cn ∉ knownServiceTypes ->
  let exp :=
    mkService (svc_ObjectMeta cur) (svc_Type (Service_Build r cn))
      (svc_ClusterIP cur) (svc_ClusterIPs cur)
      (svc_Ports (Service_Build r cn)) (svc_Ingress (Service_Build r cn)) in
  updateService r cn cur tr
    = ((cn, Update_Service r tr exp), tr ++ [ClientUpdateService exp]).
Proof.
  intros Hnin exp. subst exp. unfold updateService. run.
  rewrite updateServicePorts_unknown by exact Hnin. cbn beta iota.
  unfold expectedService.
  replace (String.eqb (cn_ServiceType cn) corev1.ServiceTypeNodePort) with false;
    [reflexivity|].
  symmetry. apply String.eqb_neq. intros Heq. apply Hnin. rewrite Heq.
  unfold knownServiceTypes. set_solver.
Qed.

(** A compute node in ClusterIP mode that the cluster refuses with a
    conflict: an instance of X8 with its premises checked. *)
Lemma updateService_persist_failure_witness :
  (cn_ServiceType (Scenario.node "ClusterIP" [Scenario.bindingA])
     ∈ knownServiceTypes) /\
  updateService
    (Faulty.cluster (Scenario.node "ClusterIP" [Scenario.bindingA]) []
       (None, None) (None, None) (None, None) None None (Some Scenario.conflict))
    (Scenario.node "ClusterIP" [Scenario.bindingA]) (Scenario.live []) []
  = ((Scenario.node "ClusterIP" [setNodePort 0 Scenario.bindingA],
      Some Scenario.conflict),
     [ClientUpdateComputeNode
        (Scenario.node "ClusterIP" [setNodePort 0 Scenario.bindingA])]).
Proof.
  assert (Hin : cn_ServiceType (Scenario.node "ClusterIP" [Scenario.bindingA])
                  ∈ knownServiceTypes) by (apply elem_of_cons; left; reflexivity).
  split; [exact Hin|].
  exact (updateService_persist_failure
           (Faulty.cluster (Scenario.node "ClusterIP" [Scenario.bindingA]) []
              (None, None) (None, None) (None, None) None None (Some Scenario.conflict))
           (Scenario.node "ClusterIP" [Scenario.bindingA])
           (Scenario.node "ClusterIP" [setNodePort 0 Scenario.bindingA])
           (Scenario.live []) [] Scenario.conflict Hin eq_refl).
Defined.

(** A compute node whose service type was left empty: an instance of
    X10 with its premise checked. *)
Lemma updateService_unknown_type_witness :
  (cn_ServiceType (Scenario.node "" [Scenario.bindingA]) ∉ knownServiceTypes) /\
  snd (updateService
         (Scenario.cluster (Scenario.node "" [Scenario.bindingA]) []
            (Some (Scenario.live [])) None None None)
         (Scenario.node "" [Scenario.bindingA]) (Scenario.live []) [])
  = [ClientUpdateService
       (mkService Scenario.meta "" "10.0.0.1" ["10.0.0.1"]
          [mkServicePort "a" "TCP" 3307 3307 30001] [])].
Proof.
  assert (Hnin : cn_ServiceType (Scenario.node "" [Scenario.bindingA])
                   ∉ knownServiceTypes).
  { intros H. unfold knownServiceTypes in H.
    repeat (apply elem_of_cons in H as [H|H]; [discriminate H|]).
    apply elem_of_nil in H. exact H. }
  split; [exact Hnin|].
  exact (f_equal snd
           (updateService_unknown_type
              (Scenario.cluster (Scenario.node "" [Scenario.bindingA]) []
                 (Some (Scenario.live [])) None None None)
              (Scenario.node "" [Scenario.bindingA]) (Scenario.live []) [] Hnin)).
Defined.

(** ** Lookups that find the artifact, and lookups that fail *)

(** X11. When the lookup finds the deployment, the reconciler makes one
    more call, an update with the object freshly built from the compute
    node under the name, namespace, labels and annotations of the live
    object and an empty resource version, and returns what the update
    answers; the config map reconciler does the same. Nothing is
    created. *)
Theorem reconcile_found_updates (r : ComputeNodeReconciler) (cn : ComputeNode)
    (tr : Trace) :
  (forall dp,
     Deployment_GetByNamespacedName r tr (keyOf cn) = (Some dp, None) ->
     let exp :=
       mkDeployment
         (mkObjectMeta (om_Name (dp_ObjectMeta dp)) (om_Namespace (dp_ObjectMeta dp)) ""
            (om_Labels (dp_ObjectMeta dp)) (om_Annotations (dp_ObjectMeta dp)))
         (dp_Spec (Deployment_Build r cn)) in
     reconcileDeployment r cn tr
       = (Deployment_Update r (tr ++ [DeploymentGetByNamespacedName (keyOf cn)]) exp,
          tr ++ [DeploymentGetByNamespacedName (keyOf cn); DeploymentUpdate exp])) /\
  (forall cm,
     ConfigMap_GetByNamespacedName r tr (keyOf cn) = (Some cm, None) ->
     let exp :=
       mkConfigMap
         (mkObjectMeta (om_Name (cm_ObjectMeta cm)) (om_Namespace (cm_ObjectMeta cm)) ""
            (om_Labels (cm_ObjectMeta cm)) (om_Annotations (cm_ObjectMeta cm)))
         (cm_Data (ConfigMap_Build r cn)) in
     reconcileConfigMap r cn tr
       = (ConfigMap_Update r (tr ++ [ConfigMapGetByNamespacedName (keyOf cn)]) exp,
          tr ++ [ConfigMapGetByNamespacedName (keyOf cn); ConfigMapUpdate exp])).
Proof.
  split.
  - intros dp Hget exp. subst exp.
    unfold reconcileDeployment, getDeploymentByNamespacedName, updateDeployment. run.
    rewrite Hget. cbn. rewrite <- app_assoc. reflexivity.
  - intros cm Hget exp. subst exp.
    unfold reconcileConfigMap, getConfigMapByNamespacedName, updateConfigMap. run.
    rewrite Hget. cbn. rewrite <- app_assoc. reflexivity.
Qed.

(** A live deployment with a label and resource version 41, and a live
    config map: instances of X11 with the premises checked. *)
Lemma reconcile_found_updates_witness :
  snd (reconcileDeployment
         (Faulty.cluster (Scenario.node "ClusterIP" []) []
            (Some Faulty.liveDeployment, None) (None, None)
            (Some Faulty.liveConfigMap, None) None None None)
         (Scenario.node "ClusterIP" []) [])
  = [DeploymentGetByNamespacedName (mkNamespacedName "default" "proxy");
     DeploymentUpdate
       (mkDeployment (mkObjectMeta "proxy" "default" "" {[ "app" := "proxy" ]} ∅)
          "proxy")] /\
  snd (reconcileConfigMap
         (Faulty.cluster (Scenario.node "ClusterIP" []) []
            (Some Faulty.liveDeployment, None) (None, None)
            (Some Faulty.liveConfigMap, None) None None None)
         (Scenario.node "ClusterIP" []) [])
  = [ConfigMapGetByNamespacedName (mkNamespacedName "default" "proxy");
     ConfigMapUpdate
       (mkConfigMap (mkObjectMeta "proxy" "default" "" ∅ {[ "note" := "kept" ]}) ∅)].
Proof.
  split.
  - exact (f_equal snd
             (proj1 (reconcile_found_updates
                       (Faulty.cluster (Scenario.node "ClusterIP" []) []
                          (Some Faulty.liveDeployment, None) (None, None)
                          (Some Faulty.liveConfigMap, None) None None None)
                       (Scenario.node "ClusterIP" []) [])
                Faulty.liveDeployment eq_refl)).
  - exact (f_equal snd
             (proj2 (reconcile_found_updates
                       (Faulty.cluster (Scenario.node "ClusterIP" []) []
                          (Some Faulty.liveDeployment, None) (None, None)
                          (Some Faulty.liveConfigMap, None) None None None)
                       (Scenario.node "ClusterIP" []) [])
                Faulty.liveConfigMap eq_refl)).
Defined.

(** X12. When a lookup answers an error, its reconciler returns that
    error after the lookup alone, whether or not an object came with
    it: nothing is built, created or updated, and the service
    reconciler leaves the compute node as it was. *)
Theorem reconcile_lookup_failure (r : ComputeNodeReconciler) (cn : ComputeNode)
    (tr : Trace) (e : error) :
  (forall dp,
     Deployment_GetByNamespacedName r tr (keyOf cn) = (dp, Some e) ->
     reconcileDeployment r cn tr
       = (Some e, tr ++ [DeploymentGetByNamespacedName (keyOf cn)])) /\
  (forall svc,
     Service_GetByNamespacedName r tr (keyOf cn) = (svc, Some e) ->
     reconcileService r cn tr
       = ((cn, Some e), tr ++ [ServiceGetByNamespacedName (keyOf cn)])) /\
  (forall cm,
     ConfigMap_GetByNamespacedName r tr (keyOf cn) = (cm, Some e) ->
     reconcileConfigMap r cn tr
       = (Some e, tr ++ [ConfigMapGetByNamespacedName (keyOf cn)])).
Proof.
  split; [|split].
  - intros dp Hget. unfold reconcileDeployment, getDeploymentByNamespacedName. run.
    rewrite Hget. reflexivity.
  - intros svc Hget. unfold reconcileService, getServiceByNamespacedName. run.
    rewrite Hget. reflexivity.
  - intros cm Hget. unfold reconcileConfigMap, getConfigMapByNamespacedName. run.
    rewrite Hget. reflexivity.
Qed.

(** A service lookup that times out although it hands back an object:
    an instance of X12 with its premise checked. *)
Lemma reconcile_lookup_failure_witness :
  reconcileService
    (Faulty.cluster (Scenario.node "NodePort" [Scenario.bindingP]) []
       (None, None)
       (Some (Scenario.live [Scenario.liveP]), Some (mkError StatusReasonTimeout "timeout"))
       (None, None) None None None)
    (Scenario.node "NodePort" [Scenario.bindingP]) []
  = ((Scenario.node "NodePort" [Scenario.bindingP],
      Some (mkError StatusReasonTimeout "timeout")),
     [ServiceGetByNamespacedName (mkNamespacedName "default" "proxy")]).
Proof.
  exact (proj1 (proj2 (reconcile_lookup_failure
                         (Faulty.cluster (Scenario.node "NodePort" [Scenario.bindingP]) []
                            (None, None)
                            (Some (Scenario.live [Scenario.liveP]),
                             Some (mkError StatusReasonTimeout "timeout"))
                            (None, None) None None None)
                         (Scenario.node "NodePort" [Scenario.bindingP]) []
                         (mkError StatusReasonTimeout "timeout")))
           (Some (Scenario.live [Scenario.liveP])) eq_refl).
Defined.

(** ** The status step *)

(** X13. The status step reads the pods, the service and the compute
    node, in this order, and gives up at the first read that fails: it
    returns that error and writes nothing, so the status in the cluster
    stays as it was. *)
Theorem reconcileStatus_read_failure (r : ComputeNodeReconciler) (cn : ComputeNode)
    (tr : Trace) (e : error) :
  let list := ClientListPods (om_Namespace (cn_ObjectMeta cn)) (cn_MatchLabels cn) in
  (forall items,
     List_Pods r tr (om_Namespace (cn_ObjectMeta cn)) (cn_MatchLabels cn)
       = (items, Some e) ->
     reconcileStatus r cn tr = (Some e, tr ++ [list])) /\
  (forall items svc,
     List_Pods r tr (om_Namespace (cn_ObjectMeta cn)) (cn_MatchLabels cn)
       = (items, None) ->
     Get_Service r (tr ++ [list]) (keyOf cn) = (svc, Some e) ->
     reconcileStatus r cn tr = (Some e, tr ++ [list; ClientGetService (keyOf cn)])) /\
  (forall items svc rt,
     List_Pods r tr (om_Namespace (cn_ObjectMeta cn)) (cn_MatchLabels cn)
       = (items, None) ->
     Get_Service r (tr ++ [list]) (keyOf cn) = (svc, None) ->
     Get_ComputeNode r ((tr ++ [list]) ++ [ClientGetService (keyOf cn)]) (keyOf cn)
       = (rt, Some e) ->
     reconcileStatus r cn tr
       = (Some e, tr ++ [list; ClientGetService (keyOf cn);
                         ClientGetComputeNode (keyOf cn)])).
Proof.
  intros list. subst list. split; [|split].
  - intros items Hlist. unfold reconcileStatus. run. rewrite Hlist. reflexivity.
  - intros items svc Hlist Hsvc. unfold reconcileStatus. run.
    rewrite Hlist. cbn beta iota. rewrite Hsvc. cbn beta iota.
    rewrite <- app_assoc. reflexivity.
  - intros items svc rt Hlist Hsvc Hrt. unfold reconcileStatus, getRuntimeComputeNode. run.
    rewrite Hlist. cbn beta iota. rewrite Hsvc. cbn beta iota. rewrite Hrt. cbn beta iota.
    rewrite <- !app_assoc. reflexivity.
Qed.

(** A service that cannot be read after the pods were listed: an
    instance of X13 with its premises checked. *)
Lemma reconcileStatus_read_failure_witness :
  reconcileStatus
    (Faulty.cluster (Scenario.node "ClusterIP" []) [Scenario.readyPod]
       (None, None) (None, None) (None, None) None (Some Scenario.notFound) None)
    (Scenario.node "ClusterIP" []) []
  = (Some Scenario.notFound,
     [ClientListPods "default" ∅;
      ClientGetService (mkNamespacedName "default" "proxy")]).
Proof.
  exact (proj1 (proj2 (reconcileStatus_read_failure
                         (Faulty.cluster (Scenario.node "ClusterIP" []) [Scenario.readyPod]
                            (None, None) (None, None) (None, None) None
                            (Some Scenario.notFound) None)
                         (Scenario.node "ClusterIP" []) [] Scenario.notFound))
           [Scenario.readyPod] (Scenario.live []) eq_refl eq_refl).
Defined.

(** X14. When the three reads succeed, the status step prints the
    history and sends one status update, whose answer it returns. The
    object it sends is the compute node as just read from the cluster,
    not the one the pass started with, with its metadata and spec as
    read (replicas, selector, service type, port bindings) and with the
    cluster address and the ingress points of the service as read. *)
Theorem reconcileStatus_publishes (r : ComputeNodeReconciler) (cn : ComputeNode)
    (tr : Trace) (items : list Pod) (svc : Service) (rt : ComputeNode) (tu tn : Time) :
  let reads :=
    tr ++ [ClientListPods (om_Namespace (cn_ObjectMeta cn)) (cn_MatchLabels cn);
           ClientGetService (keyOf cn); ClientGetComputeNode (keyOf cn)] in
  let published := reconcileComputeNodeStatus tu tn items svc rt in
  List_Pods r tr (om_Namespace (cn_ObjectMeta cn)) (cn_MatchLabels cn)
    = (items, None) ->
  Get_Service r
    (tr ++ [ClientListPods (om_Namespace (cn_ObjectMeta cn)) (cn_MatchLabels cn)])
    (keyOf cn) = (svc, None) ->
  Get_ComputeNode r
    (tr ++ [ClientListPods (om_Namespace (cn_ObjectMeta cn)) (cn_MatchLabels cn);
            ClientGetService (keyOf cn)])
    (keyOf cn) = (rt, None) ->
  time_Now r reads = (tu, tn) ->
  reconcileStatus r cn tr
    = (Status_Update r (reads ++ [Printf (cn_Conditions published)]) published,
       reads ++ [Printf (cn_Conditions published); ClientStatusUpdate published]) /\
  cn_ObjectMeta published = cn_ObjectMeta rt /\
  cn_Replicas published = cn_Replicas rt /\
  cn_MatchLabels published = cn_MatchLabels rt /\
  cn_ServiceType published = cn_ServiceType rt /\
  cn_PortBindings published = cn_PortBindings rt /\
  cn_ClusterIP published = svc_ClusterIP svc /\
  cn_Ingress published = svc_Ingress svc.
Proof.
  intros reads published Hlist Hsvc Hrt Hnow. subst reads published.
  split; [|repeat split].
  unfold reconcileStatus, getRuntimeComputeNode. run.
  rewrite Hlist. cbn beta iota. rewrite Hsvc. cbn beta iota.
  replace ((tr ++ [ClientListPods (om_Namespace (cn_ObjectMeta cn)) (cn_MatchLabels cn)])
             ++ [ClientGetService (keyOf cn)])
    with (tr ++ [ClientListPods (om_Namespace (cn_ObjectMeta cn)) (cn_MatchLabels cn);
                 ClientGetService (keyOf cn)])
    by (rewrite <- app_assoc; reflexivity).
  rewrite Hrt. cbn beta iota.
  replace ((tr ++ [ClientListPods (om_Namespace (cn_ObjectMeta cn)) (cn_MatchLabels cn);
                   ClientGetService (keyOf cn)])
             ++ [ClientGetComputeNode (keyOf cn)])
    with (tr ++ [ClientListPods (om_Namespace (cn_ObjectMeta cn)) (cn_MatchLabels cn);
                 ClientGetService (keyOf cn); ClientGetComputeNode (keyOf cn)])
    by (rewrite <- app_assoc; reflexivity).
  rewrite Hnow. cbn beta iota zeta.
  rewrite <- !app_assoc. cbn [app]. reflexivity.
Qed.

(** One ready pod whose proxy container is not reported: the status
    sent has the Ready condition and the phase NotReady. An instance of
    X14 with its premises checked. *)
Lemma reconcileStatus_publishes_witness :
  snd (reconcileStatus
         (Scenario.cluster (Scenario.node "ClusterIP" [Scenario.bindingA])
            [Scenario.readyPod] None None None None)
         (Scenario.node "ClusterIP" []) [])
  = [ClientListPods "default" ∅;
     ClientGetService (mkNamespacedName "default" "proxy");
     ClientGetComputeNode (mkNamespacedName "default" "proxy");
     Printf [newConditionReady 5 6 "PodReady" "Some pods are ready"];
     ClientStatusUpdate
       (mkComputeNode Scenario.meta 1 ∅ "ClusterIP" [Scenario.bindingA] "NotReady"
          [newConditionReady 5 6 "PodReady" "Some pods are ready"] "0/1" 0
          "10.0.0.1" [])].
Proof.
  exact (f_equal snd
           (proj1 (reconcileStatus_publishes
                     (Scenario.cluster (Scenario.node "ClusterIP" [Scenario.bindingA])
                        [Scenario.readyPod] None None None None)
                     (Scenario.node "ClusterIP" []) [] [Scenario.readyPod]
                     (Scenario.live []) (Scenario.node "ClusterIP" [Scenario.bindingA])
                     5 6 eq_refl eq_refl eq_refl eq_refl))).
Defined.

(** ** Counting the ready instances *)

Lemma wrap32_small (x : Z) : - 2 ^ 31 <= x < 2 ^ 31 -> wrap32 x = x.
Proof.
  intros Hx. unfold wrap32. rewrite Z.mod_small; lia.
Qed.

Lemma len_app {A} (s t : list A) : len (s ++ t) = len s + len t.
Proof. unfold len. rewrite length_app. lia. Qed.

(** The loop over the container statuses of one pod. *)
Lemma count_containers (css : list ContainerStatus) : forall cnt,
  0 <= cnt ->
  cnt + len (List.filter
               (fun cs => String.eqb (cs_Name cs) "shardingsphere-proxy" && cs_Ready cs)
               css) < 2 ^ 31 ->
  foldl (fun cnt cs =>
           if String.eqb (cs_Name cs) "shardingsphere-proxy" && cs_Ready cs
           then wrap32 (cnt + 1) else cnt) cnt css
  = cnt + len (List.filter
                 (fun cs => String.eqb (cs_Name cs) "shardingsphere-proxy" && cs_Ready cs)
                 css).
Proof.
  induction css as [|cs css IH]; intros cnt H0 Hlt; cbn [foldl List.filter] in *.
  - unfold len. cbn. lia.
  - destruct (String.eqb (cs_Name cs) "shardingsphere-proxy" && cs_Ready cs).
    + rewrite len_cons in *.
      pose proof (len_nonneg
                    (List.filter
                       (fun cs => String.eqb (cs_Name cs) "shardingsphere-proxy"
                                  && cs_Ready cs) css)) as Hl.
      rewrite wrap32_small by lia. rewrite IH by lia. lia.
    + apply IH; assumption.
Qed.

Lemma findRunningPod_count (cnt : Z) (pod : Pod) :
  0 <= cnt ->
  cnt + (if runningAndReady pod then len (readyProxyContainers pod) else 0) < 2 ^ 31 ->
  findRunningPod cnt pod
    = cnt + (if runningAndReady pod then len (readyProxyContainers pod) else 0).
Proof.
  unfold findRunningPod, runningAndReady, readyProxyContainers.
  destruct (String.eqb (pod_Phase pod) corev1.PodRunning); cbn [negb andb]; [|lia].
  destruct (isTrueReadyPod pod); [|lia].
  apply count_containers.
Qed.

Lemma readyProxies_cons (pod : Pod) (items : list Pod) :
  readyProxies (pod :: items)
    = (if runningAndReady pod then len (readyProxyContainers pod) else 0)
      + readyProxies items.
Proof.
  unfold readyProxies. cbn [List.filter].
  destruct (runningAndReady pod); [|lia].
  cbn [flat_map]. apply len_app.
Qed.

Lemma readyProxies_nonneg (items : list Pod) : 0 <= readyProxies items.
Proof. apply len_nonneg. Qed.

Lemma foldl_findRunningPod (items : list Pod) : forall cnt,
  0 <= cnt -> cnt + readyProxies items < 2 ^ 31 ->
  foldl findRunningPod cnt items = cnt + readyProxies items.
Proof.
  induction items as [|pod items IH]; intros cnt H0 Hlt; cbn [foldl].
  - unfold readyProxies, len. cbn. lia.
  - rewrite readyProxies_cons in *.
    pose proof (readyProxies_nonneg items) as Hn.
    assert (Hp : 0 <= (if runningAndReady pod then len (readyProxyContainers pod) else 0))
      by (destruct (runningAndReady pod); [apply len_nonneg|lia]).
    rewrite findRunningPod_count by lia. rewrite IH by lia. lia.
Qed.

(** X15. The ready instance count is the number of ready containers
    named shardingsphere-proxy in the pods that are running with a true
    Ready condition, as long as this number fits the 32-bit counter. *)
Theorem getReadyProxyInstances_counts (items : list Pod) :
  readyProxies items < 2 ^ 31 ->
  getReadyProxyInstances items = readyProxies items.
Proof.
  intros Hlt. unfold getReadyProxyInstances.
  rewrite foldl_findRunningPod by lia. lia.
Qed.

(** A running, ready pod with a ready proxy container and a sidecar,
    beside a pod that is pending: an instance of X15 with its premise
    checked. *)
Lemma getReadyProxyInstances_counts_witness :
  readyProxies
    [mkPod "Running" [mkPodCondition "Ready" "True"]
       [mkContainerStatus "shardingsphere-proxy" true; mkContainerStatus "agent" true];
     mkPod "Pending" [mkPodCondition "Ready" "True"]
       [mkContainerStatus "shardingsphere-proxy" true]] < 2 ^ 31 /\
  getReadyProxyInstances
    [mkPod "Running" [mkPodCondition "Ready" "True"]
       [mkContainerStatus "shardingsphere-proxy" true; mkContainerStatus "agent" true];
     mkPod "Pending" [mkPodCondition "Ready" "True"]
       [mkContainerStatus "shardingsphere-proxy" true]] = 1.
Proof.
  assert (Hlt : readyProxies
                  [mkPod "Running" [mkPodCondition "Ready" "True"]
                     [mkContainerStatus "shardingsphere-proxy" true;
                      mkContainerStatus "agent" true];
                   mkPod "Pending" [mkPodCondition "Ready" "True"]
                     [mkContainerStatus "shardingsphere-proxy" true]] < 2 ^ 31)
    by (vm_compute; reflexivity).
  split; [exact Hlt|].
  exact (getReadyProxyInstances_counts _ Hlt).
Defined.

Lemma findRunningPod_skips (cnt : Z) (pod : Pod) :
  runningAndReady pod = false -> findRunningPod cnt pod = cnt.
Proof.
  unfold findRunningPod, runningAndReady.
  destruct (String.eqb (pod_Phase pod) corev1.PodRunning); cbn [negb andb];
    [|reflexivity].
  intros ->. reflexivity.
Qed.

Lemma foldl_findRunningPod_skips (items : list Pod) : forall cnt,
  Forall (fun pod => runningAndReady pod = false) items ->
  foldl findRunningPod cnt items = cnt.
Proof.
  induction items as [|pod items IH]; intros cnt H; cbn [foldl]; [reflexivity|].
  apply Forall_cons in H as [Hp H].
  rewrite findRunningPod_skips by exact Hp. apply IH, H.
Qed.

Lemma runningAndReady_podType (pod : Pod) :
  runningAndReady pod = true -> podType pod = v1alpha1.ComputeNodeConditionReady.
Proof.
  unfold runningAndReady. intros H. apply andb_prop in H as [Hph Hr].
  apply String.eqb_eq in Hph.
  unfold podType, getPreferedConditionFromPod. rewrite Hph.
  cbn [String.eqb Ascii.eqb Bool.eqb corev1.PodRunning corev1.PodUnknown
         corev1.PodPending corev1.PodFailed].
  rewrite getPreferedConditionFromPodConditions_spec.
  unfold isTrueReadyPod in Hr. unfold hasTrue.
  change corev1.PodReady with "Ready" in Hr. rewrite Hr. reflexivity.
Qed.

Lemma ready_instances_anyIs (items : list Pod) :
  getReadyProxyInstances items <> 0 ->
  anyIs v1alpha1.ComputeNodeConditionReady items.
Proof.
  intros Hnz. unfold anyIs.
  destruct (decide (Exists (fun pod => runningAndReady pod = true) items)) as [Hex|Hno].
  - eapply Exists_impl; [exact Hex|]. intros pod. apply runningAndReady_podType.
  - exfalso. apply Hnz. unfold getReadyProxyInstances.
    apply foldl_findRunningPod_skips.
    apply Forall_forall. intros pod Hin.
    destruct (runningAndReady pod) eqn:E; [|reflexivity].
    exfalso. apply Hno. apply Exists_exists. eauto.
Qed.

Lemma anyIs_Ready_rollup (tu tn : Time) (items : list Pod) :
  len items < 2 ^ 63 ->
  anyIs "Ready" items ->
  getConditionFromPods tu tn items = newConditionReady tu tn "PodReady" "Some pods are ready".
Proof.
  intros Hlt Hany.
  rewrite getConditionFromPods_rollupSpec by exact Hlt.
  rewrite rollupSpec_chain.
  - decide_chain.
  - intros Hall. unfold anyIs in Hany. unfold allAre in Hall.
    apply Exists_exists in Hany as (pod & Hin & Hty).
    rewrite Forall_forall in Hall. specialize (Hall pod Hin).
    rewrite Hty in Hall. discriminate Hall.
Qed.

(** X16. A positive ready count goes with a Ready rollup: when the count
    of ready instances is not 0, some pod classifies as Ready and the
    rollup of the pods is the Ready condition, so a status whose phase
    is Ready has that condition in its history. *)
Theorem ready_phase_has_ready_condition (tu tn : Time) (items : list Pod)
    (svc : Service) (cn : ComputeNode) :
  len items < 2 ^ 63 ->
  (getReadyProxyInstances items <> 0 ->
   getConditionFromPods tu tn items
     = mkCondition "Ready" "True" tu tn "PodReady" "Some pods are ready") /\
  (cn_Phase (reconcileComputeNodeStatus tu tn items svc cn)
     = v1alpha1.ComputeNodeStatusReady ->
   mkCondition "Ready" "True" tu tn "PodReady" "Some pods are ready"
     ∈ cn_Conditions (reconcileComputeNodeStatus tu tn items svc cn)).
Proof.
  intros Hlt.
  assert (Hroll : getReadyProxyInstances items <> 0 ->
                  getConditionFromPods tu tn items
                  = mkCondition "Ready" "True" tu tn "PodReady" "Some pods are ready").
  { intros Hnz. apply anyIs_Ready_rollup; [exact Hlt|].
    apply ready_instances_anyIs, Hnz. }
  split; [exact Hroll|].
  unfold reconcileComputeNodeStatus. cbn [cn_Phase cn_Conditions].
  destruct (Z.ltb_spec 0 (getReadyProxyInstances items)) as [Hpos|Hle];
    [|intros H; discriminate H].
  intros _. rewrite Hroll by lia. apply cond_in_update.
Qed.

(** One running, ready pod with a ready proxy container: an instance of
    X16 with its premises checked. *)
Lemma ready_phase_has_ready_condition_witness :
  len [mkPod "Running" [mkPodCondition "Ready" "True"]
         [mkContainerStatus "shardingsphere-proxy" true]] < 2 ^ 63 /\
  cn_Phase
    (reconcileComputeNodeStatus 5 6
       [mkPod "Running" [mkPodCondition "Ready" "True"]
          [mkContainerStatus "shardingsphere-proxy" true]]
       (Scenario.live []) (Scenario.node "ClusterIP" []))
    = v1alpha1.ComputeNodeStatusReady /\
  mkCondition "Ready" "True" 5 6 "PodReady" "Some pods are ready"
    ∈ cn_Conditions
        (reconcileComputeNodeStatus 5 6
           [mkPod "Running" [mkPodCondition "Ready" "True"]
              [mkContainerStatus "shardingsphere-proxy" true]]
           (Scenario.live []) (Scenario.node "ClusterIP" [])).
Proof.
  assert (Hlt : len [mkPod "Running" [mkPodCondition "Ready" "True"]
                       [mkContainerStatus "shardingsphere-proxy" true]] < 2 ^ 63)
    by (vm_compute; reflexivity).
  split; [exact Hlt|]. split; [reflexivity|].
  exact (proj2 (ready_phase_has_ready_condition 5 6 _ (Scenario.live [])
                  (Scenario.node "ClusterIP" []) Hlt) eq_refl).
Defined.

(** ** More on the rollup *)

Lemma existsb_Permutation {A} (f : A -> bool) (l l' : list A) :
  l ≡ₚ l' -> existsb f l = existsb f l'.
Proof.
  induction 1 as [|x l l' _ IH|x y l|l l' l'' _ IH1 _ IH2]; cbn [existsb].
  - reflexivity.
  - rewrite IH. reflexivity.
  - destruct (f x), (f y); reflexivity.
  - congruence.
Qed.

Lemma forallb_Permutation {A} (f : A -> bool) (l l' : list A) :
  l ≡ₚ l' -> forallb f l = forallb f l'.
Proof.
  induction 1 as [|x l l' _ IH|x y l|l l' l'' _ IH1 _ IH2]; cbn [forallb].
  - reflexivity.
  - rewrite IH. reflexivity.
  - destruct (f x), (f y); reflexivity.
  - congruence.
Qed.

Lemma rollupSpec_Permutation (tu tn : Time) (ts ts' : list string) :
  ts ≡ₚ ts' -> rollupSpec tu tn ts = rollupSpec tu tn ts'.
Proof.
  intros Hp. unfold rollupSpec, firstMatch, rollupChain. cbn [List.find].
  rewrite !(existsb_Permutation _ ts ts' Hp), (forallb_Permutation _ ts ts' Hp).
  destruct ts as [|t ts], ts' as [|t' ts']; try reflexivity.
  - apply Permutation_nil_cons in Hp. contradiction.
  - symmetry in Hp. apply Permutation_nil_cons in Hp. contradiction.
Qed.

(** X17. The rollup does not depend on the order of the pods: two lists
    with the same pods in any order roll up to the same condition. *)
Theorem getConditionFromPods_order_free (tu tn : Time) (items items' : list Pod) :
  len items < 2 ^ 63 ->
  items ≡ₚ items' ->
  getConditionFromPods tu tn items = getConditionFromPods tu tn items'.
Proof.
  intros Hlt Hp.
  assert (Hlt' : len items' < 2 ^ 63).
  { unfold len in *. rewrite <- (Permutation_length Hp). exact Hlt. }
  rewrite !getConditionFromPods_rollupSpec by assumption.
  apply rollupSpec_Permutation, Permutation_map, Hp.
Qed.

(** A failed, a ready and an unknown pod in two orders: an instance of
    X17 with its premises checked. *)
Lemma getConditionFromPods_order_free_witness :
  len [Scenario.failed; Scenario.readyPod; Scenario.unknown] < 2 ^ 63 /\
  [Scenario.failed; Scenario.readyPod; Scenario.unknown]
    ≡ₚ [Scenario.unknown; Scenario.failed; Scenario.readyPod] /\
  getConditionFromPods 5 6 [Scenario.failed; Scenario.readyPod; Scenario.unknown]
    = getConditionFromPods 5 6 [Scenario.unknown; Scenario.failed; Scenario.readyPod].
Proof.
  assert (Hlt : len [Scenario.failed; Scenario.readyPod; Scenario.unknown] < 2 ^ 63)
    by (vm_compute; reflexivity).
  assert (Hp : [Scenario.failed; Scenario.readyPod; Scenario.unknown]
                 ≡ₚ [Scenario.unknown; Scenario.failed; Scenario.readyPod]).
  { apply Permutation_sym.
    apply (Permutation_cons_app [Scenario.failed; Scenario.readyPod] []).
    rewrite app_nil_r. reflexivity. }
  split; [exact Hlt|]. split; [exact Hp|].
  exact (getConditionFromPods_order_free 5 6 _ _ Hlt Hp).
Defined.

(** X18. A rollup is either the zero condition or a condition with
    status True, a type that is not empty, and the two readings of the
    clock as its update and transition times; its type is one of
    Unknown, Ready, Started, Initialized, Deployed, Pending, Failed and
    the empty type. *)
Theorem getConditionFromPods_shape (tu tn : Time) (items : list Pod) :
  let summary := getConditionFromPods tu tn items in
  cond_Type summary ∈ rollupTypes /\
  (summary = zeroCondition \/
   (cond_Status summary = v1alpha1.ConditionStatusTrue /\
    cond_Type summary <> "" /\
    cond_LastUpdateTime summary = tu /\
    cond_LastTransitionTime summary = tn /\
    cond_Reason summary <> "" /\
    cond_Message summary <> "")).
Proof.
  intros summary. subst summary. unfold getConditionFromPods.
  repeat match goal with
    | |- context [if ?b then _ else _] =>
        destruct b;
        [ split; [unfold rollupTypes; cbn; set_solver|];
          right; cbn; repeat split; discriminate |]
    end.
  split; [unfold rollupTypes; cbn; set_solver|]. left. reflexivity.
Qed.

(** ** More on the merge *)

Lemma mergeEntry_LastUpdateTime (cond c : ComputeNodeCondition) :
  cond_LastUpdateTime (mergeEntry cond c) = cond_LastUpdateTime cond.
Proof.
  unfold mergeEntry.
  destruct (String.eqb (cond_Type c) (cond_Type cond)); [reflexivity|].
  destruct (String.eqb (cond_Type cond) v1alpha1.ComputeNodeConditionUnknown);
    [reflexivity|].
  destruct (String.eqb (cond_Type c) v1alpha1.ComputeNodeConditionUnknown); reflexivity.
Qed.

Lemma mergeEntry_other (cond c : ComputeNodeCondition) :
  cond_Type c <> cond_Type cond ->
  cond_LastTransitionTime (mergeEntry cond c) = cond_LastTransitionTime c /\
  cond_Reason (mergeEntry cond c) = cond_Reason c /\
  cond_Message (mergeEntry cond c) = cond_Message c /\
  (cond_Type cond <> v1alpha1.ComputeNodeConditionUnknown ->
   cond_Type c <> v1alpha1.ComputeNodeConditionUnknown ->
   cond_Status (mergeEntry cond c) = cond_Status c).
Proof.
  intros Hne. unfold mergeEntry.
  destruct (String.eqb_spec (cond_Type c) (cond_Type cond)) as [Heq|_]; [contradiction|].
  destruct (String.eqb_spec (cond_Type cond) v1alpha1.ComputeNodeConditionUnknown)
    as [Hu|_].
  - repeat split. intros Hn. contradiction.
  - destruct (String.eqb_spec (cond_Type c) v1alpha1.ComputeNodeConditionUnknown)
      as [Hu|_]; repeat split. intros _ Hn. contradiction.
Qed.

(** X19. A merge stamps every entry of the history with the update time
    of the merged condition. An entry of another type keeps its place,
    type, transition time, reason and message, and when neither it nor
    the merged condition has type Unknown it keeps its status too, so a
    condition asserted earlier stays asserted beside the new one. *)
Theorem updateComputeNodeStatusCondition_refreshes
    (conditions : list ComputeNodeCondition) (cond : ComputeNodeCondition) :
  let merged := updateComputeNodeStatusCondition conditions cond in
  (forall c, c ∈ merged -> cond_LastUpdateTime c = cond_LastUpdateTime cond) /\
  (forall i c, conditions !! i = Some c -> cond_Type c <> cond_Type cond ->
     exists c', merged !! i = Some c' /\
       cond_Type c' = cond_Type c /\
       cond_LastTransitionTime c' = cond_LastTransitionTime c /\
       cond_Reason c' = cond_Reason c /\
       cond_Message c' = cond_Message c /\
       (cond_Type cond <> v1alpha1.ComputeNodeConditionUnknown ->
        cond_Type c <> v1alpha1.ComputeNodeConditionUnknown ->
        cond_Status c' = cond_Status c)).
Proof.
  intros merged. subst merged. split.
  - intros c Hin. apply elem_of_update in Hin as [->|(c0 & _ & _ & ->)]; [reflexivity|].
    apply mergeEntry_LastUpdateTime.
  - intros i c Hi Hne. exists (mergeEntry cond c). split.
    + rewrite updateComputeNodeStatusCondition_map. apply lookup_app_l_Some.
      change (map (mergeEntry cond) conditions) with (mergeEntry cond <$> conditions).
      rewrite list_lookup_fmap, Hi. reflexivity.
    + split; [apply mergeEntry_type|]. apply mergeEntry_other, Hne.
Qed.

Lemma mergeEntry_idem (cond c : ComputeNodeCondition) :
  mergeEntry cond (mergeEntry cond c) = mergeEntry cond c.
Proof.
  destruct c as [ty st lu lt re me]. unfold mergeEntry.
  cbn [cond_Type].
  destruct (String.eqb ty (cond_Type cond)) eqn:E1.
  - rewrite String.eqb_refl. reflexivity.
  - destruct (String.eqb (cond_Type cond) v1alpha1.ComputeNodeConditionUnknown) eqn:E2.
    + cbn [setStatusFalse setLastUpdateTime cond_Type cond_Status cond_LastUpdateTime
             cond_LastTransitionTime cond_Reason cond_Message].
      rewrite E1. reflexivity.
    + destruct (String.eqb ty v1alpha1.ComputeNodeConditionUnknown) eqn:E3;
        cbn [setStatusFalse setLastUpdateTime cond_Type cond_Status cond_LastUpdateTime
               cond_LastTransitionTime cond_Reason cond_Message];
        rewrite E1, E3; reflexivity.
Qed.

(** X20. Merging the same condition a second time changes nothing: a
    pass that repeats the rollup of the pass before, clock readings
    included, leaves the history as it is. *)
Theorem updateComputeNodeStatusCondition_idempotent
    (conditions : list ComputeNodeCondition) (cond : ComputeNodeCondition) :
  updateComputeNodeStatusCondition (updateComputeNodeStatusCondition conditions cond) cond
    = updateComputeNodeStatusCondition conditions cond.
Proof.
  rewrite (updateComputeNodeStatusCondition_map
             (updateComputeNodeStatusCondition conditions cond)).
  assert (E : existsb (sameType cond) (updateComputeNodeStatusCondition conditions cond)
              = true).
  { apply existsb_exists. exists cond. split.
    - apply list_elem_of_In, cond_in_update.
    - apply String.eqb_refl. }
  rewrite E, app_nil_r.
  rewrite updateComputeNodeStatusCondition_map, map_app, map_map.
  f_equal.
  - apply map_ext. intros c. apply mergeEntry_idem.
  - destruct (existsb (sameType cond) conditions); [reflexivity|].
    cbn [map]. rewrite mergeEntry_same by reflexivity. reflexivity.
Qed.

(** ** The other builders of the history *)

Lemma refreshFirst_found (cond : ComputeNodeCondition) (cs : list ComputeNodeCondition) :
  snd (refreshFirst cond cs) = existsb (sameType cond) cs.
Proof.
  induction cs as [|c cs IH]; [reflexivity|]. cbn [refreshFirst existsb].
  unfold sameType at 1.
  destruct (String.eqb (cond_Type c) (cond_Type cond)); cbn [negb orb]; [reflexivity|].
  destruct (refreshFirst cond cs). exact IH.
Qed.

Lemma refreshFirst_types (cond : ComputeNodeCondition) (cs : list ComputeNodeCondition) :
  types (fst (refreshFirst cond cs)) = types cs.
Proof.
  unfold types. induction cs as [|c cs IH]; [reflexivity|]. cbn [refreshFirst].
  destruct (String.eqb (cond_Type c) (cond_Type cond)); cbn [negb]; [reflexivity|].
  destruct (refreshFirst cond cs). cbn [fst map] in *. rewrite IH. reflexivity.
Qed.

Lemma newConditions_types_eq (cs : list ComputeNodeCondition) (cond : ComputeNodeCondition) :
  types (newConditions cs cond)
    = types cs ++ (if String.eqb (cond_Type cond) "" || existsb (sameType cond) cs
                   then [] else [cond_Type cond]).
Proof.
  unfold newConditions.
  destruct (String.eqb (cond_Type cond) ""); cbn [orb]; [rewrite app_nil_r; reflexivity|].
  pose proof (refreshFirst_found cond cs) as Hf.
  pose proof (refreshFirst_types cond cs) as Ht.
  destruct (refreshFirst cond cs) as [cs' found]. cbn [fst snd] in *. subst found.
  destruct (existsb (sameType cond) cs); cbn [negb].
  - rewrite app_nil_r. exact Ht.
  - unfold types in *. rewrite map_app, Ht. reflexivity.
Qed.

(** X21. [newConditions] keeps the types of the history in place and
    adds the type of the condition at the end when it is new and not
    empty. It therefore keeps a history with one entry per type that
    way, and it never brings the empty type into a history: a condition
    without a type is dropped. *)
Theorem newConditions_types (conditions : list ComputeNodeCondition)
    (cond : ComputeNodeCondition) :
  types (newConditions conditions cond)
    = types conditions
        ++ (if String.eqb (cond_Type cond) "" || existsb (sameType cond) conditions
            then [] else [cond_Type cond]) /\
  (NoDup (types conditions) -> NoDup (types (newConditions conditions cond))) /\
  ("" ∉ types conditions -> "" ∉ types (newConditions conditions cond)) /\
  (cond_Type cond = "" -> newConditions conditions cond = conditions).
Proof.
  split; [apply newConditions_types_eq|]. split; [|split].
  - intros Hnd. rewrite newConditions_types_eq.
    destruct (String.eqb (cond_Type cond) "" || existsb (sameType cond) conditions) eqn:E.
    + rewrite app_nil_r. exact Hnd.
    + apply orb_false_iff in E as [_ E].
      apply NoDup_app. split; [exact Hnd|]. split; [|apply NoDup_singleton].
      intros t Ht Hin. apply list_elem_of_singleton in Hin. subst t.
      apply existsb_sameType in Ht. congruence.
  - intros Hnin. rewrite newConditions_types_eq.
    destruct (String.eqb_spec (cond_Type cond) "") as [He|Hne]; cbn [orb].
    + rewrite app_nil_r. exact Hnin.
    + destruct (existsb (sameType cond) conditions).
      * rewrite app_nil_r. exact Hnin.
      * intros Hin. apply elem_of_app in Hin as [Hin|Hin]; [contradiction|].
        apply list_elem_of_singleton in Hin. congruence.
  - intros He. unfold newConditions. rewrite He. reflexivity.
Qed.

(** A history without the empty type and with one entry per type, and a
    Ready condition to add: an instance of X21 with its premises
    checked. *)
Lemma newConditions_types_witness :
  NoDup (types [newConditionPending 1 2 "PodPending" "Some pods are pending"]) /\
  ("" ∉ types [newConditionPending 1 2 "PodPending" "Some pods are pending"]) /\
  NoDup (types (newConditions
                  [newConditionPending 1 2 "PodPending" "Some pods are pending"]
                  (newConditionReady 5 6 "PodReady" "Some pods are ready"))) /\
  ("" ∉ types (newConditions
                 [newConditionPending 1 2 "PodPending" "Some pods are pending"]
                 (newConditionReady 5 6 "PodReady" "Some pods are ready"))) /\
  newConditions [newConditionPending 1 2 "PodPending" "Some pods are pending"]
    zeroCondition
  = [newConditionPending 1 2 "PodPending" "Some pods are pending"].
Proof.
  assert (Hnd : NoDup (types [newConditionPending 1 2 "PodPending" "Some pods are pending"]))
    by apply NoDup_singleton.
  assert (Hnin : "" ∉ types [newConditionPending 1 2 "PodPending" "Some pods are pending"]).
  { intros H. apply list_elem_of_singleton in H. discriminate H. }
  split; [exact Hnd|]. split; [exact Hnin|].
  destruct (newConditions_types
              [newConditionPending 1 2 "PodPending" "Some pods are pending"]
              (newConditionReady 5 6 "PodReady" "Some pods are ready"))
    as (_ & Hkeep & Hempty & _).
  split; [exact (Hkeep Hnd)|]. split; [exact (Hempty Hnin)|].
  exact (proj2 (proj2 (proj2 (newConditions_types
                                [newConditionPending 1 2 "PodPending"
                                   "Some pods are pending"] zeroCondition))) eq_refl).
Defined.

Lemma refreshFirst_insert (cond : ComputeNodeCondition) (cs : list ComputeNodeCondition) :
  forall i c,
    cs !! i = Some c -> cond_Type c = cond_Type cond ->
    (forall j c', (j < i)%nat -> cs !! j = Some c' -> cond_Type c' <> cond_Type cond) ->
    refreshFirst cond cs
      = (<[i := setStatus (cond_Status cond)
                  (setLastUpdateTime (cond_LastUpdateTime cond) c)]> cs, true).
Proof.
  induction cs as [|c0 cs IH]; intros i c Hi Ht Hfirst; [discriminate Hi|].
  cbn [refreshFirst]. destruct i as [|i].
  - cbn in Hi. injection Hi as ->. rewrite Ht, String.eqb_refl. reflexivity.
  - assert (Hne : cond_Type c0 <> cond_Type cond)
      by (apply (Hfirst 0%nat); [lia|reflexivity]).
    apply String.eqb_neq in Hne. rewrite Hne. cbn [negb].
    rewrite (IH i c).
    + reflexivity.
    + exact Hi.
    + exact Ht.
    + intros j c' Hj Hc'. apply (Hfirst (S j)); [lia|exact Hc'].
Qed.

(** X22. When the history has an entry of the type of the condition,
    [newConditions] rewrites the first such entry and nothing else: the
    entry takes the status and the update time of the condition and
    keeps its own transition time, reason and message; the history
    keeps its length. *)
Theorem newConditions_refreshes_first (conditions : list ComputeNodeCondition)
    (cond c : ComputeNodeCondition) (i : nat) :
  cond_Type cond <> "" ->
  conditions !! i = Some c ->
  cond_Type c = cond_Type cond ->
  (forall j c', (j < i)%nat -> conditions !! j = Some c' ->
     cond_Type c' <> cond_Type cond) ->
  newConditions conditions cond
    = <[i := mkCondition (cond_Type c) (cond_Status cond) (cond_LastUpdateTime cond)
               (cond_LastTransitionTime c) (cond_Reason c) (cond_Message c)]> conditions.
Proof.
  intros Hne Hi Ht Hfirst. unfold newConditions.
  apply String.eqb_neq in Hne. rewrite Hne.
  rewrite (refreshFirst_insert cond conditions i c Hi Ht Hfirst). reflexivity.
Qed.

(** A history with Pending first and Ready second, refreshed with a
    Ready condition of status False: an instance of X22 with its
    premises checked. *)
Lemma newConditions_refreshes_first_witness :
  newConditions
    [newConditionPending 1 2 "PodPending" "Some pods are pending";
     newConditionReady 3 4 "PodReady" "Some pods are ready"]
    (mkCondition "Ready" "False" 9 9 "Gone" "no pod is ready")
  = [newConditionPending 1 2 "PodPending" "Some pods are pending";
     mkCondition "Ready" "False" 9 4 "PodReady" "Some pods are ready"].
Proof.
  apply (newConditions_refreshes_first
           [newConditionPending 1 2 "PodPending" "Some pods are pending";
            newConditionReady 3 4 "PodReady" "Some pods are ready"]
           (mkCondition "Ready" "False" 9 9 "Gone" "no pod is ready")
           (newConditionReady 3 4 "PodReady" "Some pods are ready") 1%nat).
  - discriminate.
  - reflexivity.
  - reflexivity.
  - intros j c' Hj Hc'. assert (j = 0%nat) as -> by lia.
    cbn in Hc'. injection Hc' as <-. discriminate.
Defined.

Lemma retireReady_types (clock : nat -> Time) (cur : list ComputeNodeCondition) :
  forall k, types (retireReady clock k cur) = types cur.
Proof.
  unfold types. induction cur as [|c cur IH]; intros k; [reflexivity|].
  cbn [retireReady].
  destruct (String.eqb (cond_Type c) v1alpha1.ComputeNodeConditionReady); cbn [map];
    rewrite IH; reflexivity.
Qed.

Lemma retireReady_False (clock : nat -> Time) (cur : list ComputeNodeCondition) :
  forall k c, c ∈ retireReady clock k cur ->
    cond_Type c = v1alpha1.ComputeNodeConditionReady ->
    cond_Status c = v1alpha1.ConditionStatusFalse.
Proof.
  induction cur as [|c0 cur IH]; intros k c Hin Ht.
  - apply elem_of_nil in Hin. contradiction.
  - cbn [retireReady] in Hin.
    destruct (String.eqb_spec (cond_Type c0) v1alpha1.ComputeNodeConditionReady)
      as [Heq|Hne]; apply elem_of_cons in Hin as [->|Hin].
    + reflexivity.
    + eapply IH; eassumption.
    + contradiction.
    + eapply IH; eassumption.
Qed.

(** X23. After [updateNotReadyConditions] no entry of type Ready has a
    status other than False, the condition just merged included, and
    the types of the history are those [newConditions] leaves. *)
Theorem updateNotReadyConditions_retires_ready (clock : nat -> Time)
    (conditions : list ComputeNodeCondition) (cond : ComputeNodeCondition) :
  (forall c, c ∈ updateNotReadyConditions clock conditions cond ->
     cond_Type c = v1alpha1.ComputeNodeConditionReady ->
     cond_Status c = v1alpha1.ConditionStatusFalse) /\
  types (updateNotReadyConditions clock conditions cond)
    = types (newConditions conditions cond).
Proof.
  unfold updateNotReadyConditions. split.
  - intros c. apply retireReady_False.
  - apply retireReady_types.
Qed.

Lemma setEntry_type (cond : ComputeNodeCondition) (exlusive : bool)
    (c : ComputeNodeCondition) :
  cond_Type (setEntry cond exlusive c) = cond_Type c.
Proof.
  unfold setEntry.
  destruct (String.eqb_spec (cond_Type c) (cond_Type cond)) as [->|_]; [reflexivity|].
  destruct exlusive; reflexivity.
Qed.

Lemma setLoop_map (cond : ComputeNodeCondition) (exlusive : bool)
    (cs : list ComputeNodeCondition) : forall found,
  setLoop cond exlusive cs found
    = (map (setEntry cond exlusive) cs, found || existsb (sameType cond) cs).
Proof.
  induction cs as [|c cs IH]; intros found; cbn [setLoop map existsb].
  - rewrite orb_false_r. reflexivity.
  - rewrite IH. unfold sameType at 2.
    destruct (String.eqb (cond_Type c) (cond_Type cond)), found; reflexivity.
Qed.

(** X24. [setCondition] cannot add a condition to the history of its
    caller. The caller's slice keeps its length and the type of every
    entry; when no entry has the type [t], the new condition is appended
    to the function's own copy of the slice header only, and the
    caller's history still has no entry of type [t]. *)
Theorem setCondition_append_is_lost (tu tn : Time)
    (conditions : list ComputeNodeCondition) (t reason message : string)
    (exlusive : bool) :
  let seen := fst (setCondition tu tn conditions t reason message exlusive) in
  let kept := snd (setCondition tu tn conditions t reason message exlusive) in
  types seen = types conditions /\
  length seen = length conditions /\
  (t ∉ types conditions ->
   (t ∉ types seen) /\
   kept = seen ++ [mkCondition t v1alpha1.ConditionStatusTrue tu tn reason message]).
Proof.
  intros seen kept. subst seen kept. unfold setCondition. rewrite setLoop_map.
  cbn [fst snd orb].
  assert (Ht : types (map (setEntry
                             (mkCondition t v1alpha1.ConditionStatusTrue tu tn reason message)
                             exlusive) conditions) = types conditions).
  { unfold types. rewrite map_map. apply map_ext. intros c. apply setEntry_type. }
  split; [exact Ht|]. split; [apply length_map|].
  intros Hnin. split; [rewrite Ht; exact Hnin|].
  destruct (existsb (sameType (mkCondition t v1alpha1.ConditionStatusTrue tu tn
                                 reason message)) conditions) eqn:E.
  - apply existsb_sameType in E. contradiction.
  - cbn [negb]. rewrite orb_true_r. reflexivity.
Qed.

(** An empty history: [setConditionReady] leaves it empty for the
    caller. An instance of X24 with its premise checked. *)
Lemma setCondition_append_is_lost_witness :
  (v1alpha1.ComputeNodeConditionReady ∉ types []) /\
  fst (setConditionReady 5 6 [] "PodReady" "Some pods are ready") = [] /\
  snd (setConditionReady 5 6 [] "PodReady" "Some pods are ready")
    = [newConditionReady 5 6 "PodReady" "Some pods are ready"].
Proof.
  assert (Hnin : v1alpha1.ComputeNodeConditionReady ∉ types []) by apply not_elem_of_nil.
  split; [exact Hnin|]. split; [reflexivity|].
  exact (proj2 (proj2 (proj2 (setCondition_append_is_lost 5 6 []
                                v1alpha1.ComputeNodeConditionReady "PodReady"
                                "Some pods are ready" false)) Hnin)).
Defined.

(** ** The directive of a pass *)

Lemma directive_cases (err : option error) :
  let '(res, e) := directive err in
  (e = None /\ res = mkResult false defaultRequeueTime) \/
  (exists e', e = Some e' /\ res = mkResult true 0).
Proof.
  destruct err as [e|]; cbn; [right; eauto|left; auto].
Qed.

(** X25. Every pass starts with the fetch of the compute node and ends
    in one of two directives: to requeue after [defaultRequeueTime]
    with no error, or to requeue now with an error; an error is never
    returned with a delay, and a pass without error never asks to be
    requeued at once. *)
Theorem Reconcile_directive (r : ComputeNodeReconciler) (req : NamespacedName)
    (tr : Trace) :
  (exists calls, snd (Reconcile r req tr) = tr ++ ClientGetComputeNode req :: calls) /\
  ((snd (fst (Reconcile r req tr)) = None /\
    fst (fst (Reconcile r req tr)) = mkResult false defaultRequeueTime) \/
   (exists e, snd (fst (Reconcile r req tr)) = Some e /\
      fst (fst (Reconcile r req tr)) = mkResult true 0)).
Proof.
  destruct (Get_ComputeNode r tr req) as [cn [e|]] eqn:Hget.
  - unfold Reconcile. run. rewrite Hget.
    destruct (apierrors.IsNotFound e); cbn.
    + split; [exists []; reflexivity|]. left. auto.
    + split; [rewrite <- app_assoc; eexists; reflexivity|]. right. eauto.
  - destruct (reconcileStatus r cn (tr ++ [ClientGetComputeNode req]))
      as [es tr1] eqn:Est.
    destruct (reconcileDeployment r cn (tr1 ++ logOf es "Failed to reconcile status"))
      as [ed tr2] eqn:Edp.
    destruct (reconcileService r cn (tr2 ++ logOf ed "Failed to reconcile deployement"))
      as [[cn' esv] tr3] eqn:Esv.
    destruct (reconcileConfigMap r cn' (tr3 ++ logOf esv "Failed to reconcile service"))
      as [ec tr4] eqn:Ecm.
    rewrite (Reconcile_run r req tr cn es tr1 ed tr2 cn' esv tr3 ec tr4
               Hget Est Edp Esv Ecm).
    cbn [fst snd]. split.
    + destruct (reconcileStatus_calls r cn (tr ++ [ClientGetComputeNode req]))
        as (c1 & H1 & _).
      rewrite Est in H1. cbn [snd] in H1.
      destruct (reconcileDeployment_calls r cn
                  (tr1 ++ logOf es "Failed to reconcile status")) as (c2 & H2 & _).
      rewrite Edp in H2. cbn [snd] in H2.
      destruct (reconcileService_calls r cn
                  (tr2 ++ logOf ed "Failed to reconcile deployement")) as (c3 & H3 & _).
      rewrite Esv in H3. cbn [snd] in H3.
      destruct (reconcileConfigMap_calls r cn'
                  (tr3 ++ logOf esv "Failed to reconcile service")) as (c4 & H4 & _).
      rewrite Ecm in H4. cbn [snd] in H4.
      subst tr1 tr2 tr3 tr4. rewrite <- !app_assoc. cbn [app].
      eexists. reflexivity.
    + pose proof (directive_cases (firstError [ed; esv; ec])) as Hd.
      destruct (directive (firstError [ed; esv; ec])) as [res e]. exact Hd.
Qed.

(** ** Instances and two more properties *)

(** Pending then Ready in the history, and a Failed rollup merged: the
    Ready entry keeps its status True. An instance of X19 with its
    premises checked. *)
Lemma updateComputeNodeStatusCondition_refreshes_witness :
  exists c',
    updateComputeNodeStatusCondition
      [newConditionPending 1 2 "PodPending" "Some pods are pending";
       newConditionReady 3 4 "PodReady" "Some pods are ready"]
      (newConditionFailed 5 6 "PodFailed" "Some pods are failed") !! 1%nat = Some c' /\
    cond_Type c' = "Ready" /\
    cond_LastTransitionTime c' = 4 /\
    cond_Reason c' = "PodReady" /\
    cond_Message c' = "Some pods are ready" /\
    cond_Status c' = "True" /\
    cond_LastUpdateTime c' = 5.
Proof.
  destruct (updateComputeNodeStatusCondition_refreshes
              [newConditionPending 1 2 "PodPending" "Some pods are pending";
               newConditionReady 3 4 "PodReady" "Some pods are ready"]
              (newConditionFailed 5 6 "PodFailed" "Some pods are failed"))
    as [Hstamp Hkeep].
  destruct (Hkeep 1%nat (newConditionReady 3 4 "PodReady" "Some pods are ready") eq_refl)
    as (c' & Hat & Hty & Htt & Hre & Hme & Hst).
  { discriminate. }
  exists c'. split; [exact Hat|]. split; [exact Hty|]. split; [exact Htt|].
  split; [exact Hre|]. split; [exact Hme|]. split.
  - apply Hst; discriminate.
  - apply Hstamp. eapply list_elem_of_lookup_2. exact Hat.
Defined.

(** A Ready condition of status True given to [updateNotReadyConditions]
    on an empty history: it is stored with status False. An instance of
    X23 with its premises checked. *)
Lemma updateNotReadyConditions_retires_ready_witness :
  updateNotReadyConditions (fun k => 10 + Z.of_nat k) []
    (newConditionReady 5 6 "PodReady" "Some pods are ready")
  = [mkCondition "Ready" "False" 10 6 "PodReady" "Some pods are ready"] /\
  cond_Status (mkCondition "Ready" "False" 10 6 "PodReady" "Some pods are ready")
  = v1alpha1.ConditionStatusFalse.
Proof.
  split; [reflexivity|].
  apply (proj1 (updateNotReadyConditions_retires_ready (fun k => 10 + Z.of_nat k) []
                  (newConditionReady 5 6 "PodReady" "Some pods are ready"))).
  - apply list_elem_of_singleton. reflexivity.
  - reflexivity.
Defined.

(** The live port p with node port 30080 and the binding p without
    one, through [updateService]: an instance of the NodePort lemma
    above with its premises checked. *)
Lemma updateService_NodePort_witness :
  exists exp err,
    updateService
      (Scenario.cluster (Scenario.node "NodePort" [Scenario.bindingP]) []
         (Some (Scenario.live [Scenario.liveP])) None None None)
      (Scenario.node "NodePort" [Scenario.bindingP])
      (Scenario.live [Scenario.liveP]) []
    = ((Scenario.node "NodePort" [setNodePort 30080 Scenario.bindingP], err),
       [ClientUpdateComputeNode
          (Scenario.node "NodePort" [setNodePort 30080 Scenario.bindingP]);
        ClientUpdateService exp]) /\
    svc_Ports exp = [mkServicePort "p" "TCP" 3307 3307 30080].
Proof.
  destruct (updateService_NodePort
              (Scenario.cluster (Scenario.node "NodePort" [Scenario.bindingP]) []
                 (Some (Scenario.live [Scenario.liveP])) None None None)
              (Scenario.node "NodePort" [Scenario.bindingP])
              (Scenario.node "NodePort" [setNodePort 30080 Scenario.bindingP])
              (Scenario.live [Scenario.liveP]) [] eq_refl eq_refl eq_refl)
    as (exp & err & Hrun & Hports & _).
  exists exp, err. split; [exact Hrun|]. exact Hports.
Defined.

(** X26. The classifier does not depend on the order in which a pod
    lists its conditions, nor on its container statuses. *)
Theorem getPreferedConditionFromPod_order_free (phase : string)
    (conditions conditions' : list PodCondition)
    (statuses statuses' : list ContainerStatus) :
  conditions ≡ₚ conditions' ->
  getPreferedConditionFromPod (mkPod phase conditions statuses)
    = getPreferedConditionFromPod (mkPod phase conditions' statuses').
Proof.
  intros Hp. unfold getPreferedConditionFromPod. cbn [pod_Phase pod_Conditions].
  rewrite !getPreferedConditionFromPodConditions_spec. unfold hasTrue.
  rewrite !(existsb_Permutation _ conditions conditions' Hp). reflexivity.
Qed.

(** A pod that reports Ready before PodScheduled and one that reports
    them the other way round: an instance of X26 with its premise
    checked. *)
Lemma getPreferedConditionFromPod_order_free_witness :
  [mkPodCondition "Ready" "True"; mkPodCondition "PodScheduled" "True"]
    ≡ₚ [mkPodCondition "PodScheduled" "True"; mkPodCondition "Ready" "True"] /\
  getPreferedConditionFromPod
    (mkPod "Running"
       [mkPodCondition "Ready" "True"; mkPodCondition "PodScheduled" "True"] [])
  = getPreferedConditionFromPod
      (mkPod "Running"
         [mkPodCondition "PodScheduled" "True"; mkPodCondition "Ready" "True"]
         [mkContainerStatus "shardingsphere-proxy" false]).
Proof.
  assert (Hp : [mkPodCondition "Ready" "True"; mkPodCondition "PodScheduled" "True"]
                 ≡ₚ [mkPodCondition "PodScheduled" "True"; mkPodCondition "Ready" "True"])
    by apply perm_swap.
  split; [exact Hp|].
  exact (getPreferedConditionFromPod_order_free "Running" _ _ []
           [mkContainerStatus "shardingsphere-proxy" false] Hp).
Defined.
